(** * pynmea2: the sentence grammar, dispatcher and renderer of [nmea.py]

    A shallow embedding of [pynmea2/nmea.py] and the properties of it that
    the specification states.

    Python strings are sequences of Unicode code points, so a string is a
    list of [N].  Everything the module does on ASCII is written out; what the
    interpreter takes from the Unicode database for code points from 128 on
    (the classes [\s] and [\w] of [re], [str.upper]) and the built-in [repr]
    are fields of a [runtime] record the development is parametric in. *)

From Stdlib Require Import NArith ZArith List Ascii String Bool Lia.
From stdpp Require Import base option list gmap strings.

Open Scope N_scope.

(** ** Strings *)

Abbreviation str := (list N).

(** A string literal, as the list of its character codes. *)
Definition py (s : string) : str := map N_of_ascii (list_ascii_of_string s).

(** [ord] of a character literal. *)
Definition ord (a : ascii) : N := N_of_ascii a.

Arguments ord : simpl never.
Arguments py : simpl never.

(** [s.split(sep)] for a one-character separator: never empty, the fields
    hold no separator. *)
Fixpoint split (sep : N) (s : str) : list str :=
  match s with
  | [] => [[]]
  | c :: s' =>
      if c =? sep then [] :: split sep s'
      else match split sep s' with
           | f :: fs => (c :: f) :: fs
           | [] => [[c]]
           end
  end.

(** [sep.join(l)]. *)
Fixpoint join (sep : str) (l : list str) : str :=
  match l with
  | [] => []
  | [x] => x
  | x :: l' => x ++ sep ++ join sep l'
  end.

(** Digits of [n] in base [b], most significant first; [fuel] bounds the
    number of digits produced. *)
Fixpoint digits_aux (b : N) (fuel : nat) (n : N) (acc : list N) : list N :=
  match fuel with
  | O => acc
  | S fuel' =>
      let acc' := (n mod b) :: acc in
      if n / b =? 0 then acc' else digits_aux b fuel' (n / b) acc'
  end.

(** A number has at most as many digits as bits, whatever the base. *)
Definition digits (b : N) (n : N) : list N :=
  digits_aux b (S (N.to_nat (N.size n))) n [].

Definition hex_digit (d : N) : N :=
  if d <? 10 then ord "0" + d else ord "A" + (d - 10).

Definition dec_digit (d : N) : N := ord "0" + d.

(** ['%02X' % n]: upper-case hexadecimal, padded with zeros to two
    characters, longer when [n] needs more. *)
Definition format_02X (n : N) : str :=
  let ds := map hex_digit (digits 16 n) in
  replicate (2 - length ds)%nat (ord "0") ++ ds.

(** [str(n)] for an integer. *)
Definition str_of_Z (z : Z) : str :=
  match z with
  | Zneg p => ord "-" :: map dec_digit (digits 10 (Npos p))
  | _ => map dec_digit (digits 10 (Z.to_N z))
  end.

(** The value of one hexadecimal digit, of either case. *)
Definition hex_value (c : N) : option N :=
  if (ord "0" <=? c) && (c <=? ord "9") then Some (c - ord "0")
  else if (ord "A" <=? c) && (c <=? ord "F") then Some (c - ord "A" + 10)
  else if (ord "a" <=? c) && (c <=? ord "f") then Some (c - ord "a" + 10)
  else None.

(** [int(s, 16)] on a string of hexadecimal digits; [None] is Python's
    [ValueError].  (Python also accepts a sign, a [0x] prefix, underscores and
    surrounding blanks, none of which the grammar lets through.) *)
Fixpoint int16_aux (acc : N) (s : str) : option N :=
  match s with
  | [] => Some acc
  | c :: s' =>
      match hex_value c with
      | Some d => int16_aux (16 * acc + d) s'
      | None => None
      end
  end.

Definition int16 (s : str) : option N :=
  match s with
  | [] => None
  | _ => int16_aux 0 s
  end.

(** ** What the interpreter supplies *)

Record runtime := {
  (** [str.isspace] of a code point from 128 on *)
  uni_isspace : N -> bool;
  (** [str.isalnum] of a code point from 128 on *)
  uni_isalnum : N -> bool;
  (** [str.upper] of a code point from 128 on (it may be several) *)
  uni_upper : N -> str;
  (** [repr] of a string *)
  py_repr : str -> str
}.

Definition is_ascii (c : N) : bool := c <? 128.

Definition between (lo hi c : N) : bool := (lo <=? c) && (c <=? hi).

Definition ascii_isalnum (c : N) : bool :=
  between (ord "0") (ord "9") c || between (ord "A") (ord "Z") c
  || between (ord "a") (ord "z") c.

(** Tab, line feed, vertical tab, form feed, carriage return, the four
    separators 0x1C to 0x1F, and space. *)
Definition ascii_isspace (c : N) : bool :=
  between 9 13 c || between 28 31 c || (c =? 32).

Definition ascii_upper (c : N) : N :=
  if between (ord "a") (ord "z") c then c - 32 else c.

(** ** Regular expressions

    The fragment of [re] the module uses, run as [re] runs it: a backtracking
    search that takes the first alternative, the longest repetition and the
    present option first, and gives them up in that order when what follows
    fails. *)

Inductive regex :=
| Eps                                  (* the empty pattern; [^] under [match] *)
| Chr (p : N -> bool)                  (* one character of a class *)
| Cat (r1 r2 : regex)
| Alt (r1 r2 : regex)                  (* [r1|r2] *)
| Star (p : N -> bool)                 (* [c*] for a class [c], greedy *)
| Opt (r : regex)                      (* [r?], greedy *)
| Group (name : string) (r : regex)    (* a capturing group *)
| Eos.                                 (* [$] without [re.MULTILINE] *)

(** [r{n}] *)
Fixpoint times (n : nat) (r : regex) : regex :=
  match n with
  | O => Eps
  | S O => r
  | S n' => Cat r (times n' r)
  end.

Abbreviation groups := (gmap string str).

(** What was read between the input [s] and its suffix [s']. *)
Definition consumed (s s' : str) : str := take (length s - length s') s.

(** [c*] then [k]: the longest run first. *)
Fixpoint star {A} (p : N -> bool) (s : str) (k : str -> option A) : option A :=
  match s with
  | c :: s' =>
      if p c then
        match star p s' k with
        | Some a => Some a
        | None => k s
        end
      else k s
  | [] => k []
  end.

(** [$]: at the end of the string, or before a newline that ends it. *)
Definition at_end (s : str) : bool :=
  match s with
  | [] => true
  | [c] => c =? 10
  | _ => false
  end.

Fixpoint exec {A} (r : regex) (s : str) (g : groups)
    (k : str -> groups -> option A) : option A :=
  match r with
  | Eps => k s g
  | Chr p =>
      match s with
      | c :: s' => if p c then k s' g else None
      | [] => None
      end
  | Cat r1 r2 => exec r1 s g (fun s1 g1 => exec r2 s1 g1 k)
  | Alt r1 r2 =>
      match exec r1 s g k with
      | Some a => Some a
      | None => exec r2 s g k
      end
  | Star p => star p s (fun s' => k s' g)
  | Opt r' =>
      match exec r' s g k with
      | Some a => Some a
      | None => k s g
      end
  | Group name r' =>
      exec r' s g (fun s' g' => k s' (<[name := consumed s s']> g'))
  | Eos => if at_end s then k s g else None
  end.

(** [pattern.match(s)]: the groups of the first successful run from the
    start of [s], if any. *)
Definition re_match (r : regex) (s : str) : option groups :=
  exec r s ∅ (fun _ g => Some g).

Definition is_char (a : ascii) (c : N) : bool := c =? ord a.

(** A letter under [re.IGNORECASE]: the letter in either case.  (No other
    code point lower-cases to an ASCII letter that the patterns name.) *)
Definition is_char_i (a : ascii) (c : N) : bool :=
  (ascii_upper c =? ord a) && is_ascii c.

(** [[A-F0-9]] under [re.IGNORECASE]. *)
Definition is_hex_i (c : N) : bool :=
  between (ord "0") (ord "9") c || between (ord "A") (ord "F") c
  || between (ord "a") (ord "f") c.

Definition is_cr_lf (c : N) : bool := (c =? 13) || (c =? 10).

(** ** Values, exceptions and results *)

(** The Python values the module stores in an object and takes as the
    value of an attribute. *)
Inductive value :=
| VNone
| VInt (z : Z)
| VStr (s : str)
| VStrs (l : list str).                (* a list of strings *)

Inductive exn_class :=
| ValueError
| ParseError
| SentenceTypeError
| ChecksumError
| AttributeError
| IndexError
| TypeError.

(** [class ParseError(ValueError)], [class SentenceTypeError(ParseError)],
    [class ChecksumError(ParseError)]; the others are built in. *)
Definition parent (c : exn_class) : option exn_class :=
  match c with
  | ParseError => Some ValueError
  | SentenceTypeError => Some ParseError
  | ChecksumError => Some ParseError
  | _ => None
  end.

#[global] Instance exn_class_eq_dec : EqDecision exn_class.
Proof. solve_decision. Defined.

(** [issubclass(c, d)] *)
Definition issubclass (c d : exn_class) : bool :=
  bool_decide (c = d)
  || match parent c with
     | Some p => bool_decide (p = d)
                 || match parent p with
                    | Some q => bool_decide (q = d)
                    | None => false
                    end
     | None => false
     end.

(** An exception: [ParseError.__init__(self, message, data)] keeps the pair
    of its arguments; a built-in exception has a message only. *)
Record exn := {
  exn_type : exn_class;
  exn_message : str;
  exn_data : value
}.

Inductive result (A : Type) :=
| Ok (a : A)
| Raise (e : exn).
Arguments Ok {A} a.
Arguments Raise {A} e.

Definition bind {A B} (x : result A) (f : A -> result B) : result B :=
  match x with
  | Ok a => f a
  | Raise e => Raise e
  end.

Notation "x <- e1 ;; e2" := (bind e1 (fun x => e2))
  (at level 100, e1 at next level, right associativity).

Definition builtin_error {A} (c : exn_class) (msg : string) : result A :=
  Raise {| exn_type := c; exn_message := py msg; exn_data := VNone |}.

(** ** Sentence types and the registries *)

(** One entry of a [fields] tuple: (label, name). *)
Abbreviation field := (str * str)%type.

(** Which of the three classes of the module a type is, or derives from. *)
Inductive category := Talker | Query | Proprietary.

(** A sentence type, as far as this module reads it: the name and the
    [fields] its declaration gives, and the class of this module it derives
    from, whose [__init__], [identifier] and [render] it has. *)
Record sentence_class := {
  cls_name : str;
  cls_base : category;
  fields : list field
}.

(** [enumerate(l)] *)
Definition enumerate {A} (l : list A) : list (nat * A) :=
  imap (fun i x => (i, x)) l.

(** [dict(pairs)]: a later pair replaces an earlier one of the same key. *)
Definition dict_of `{Countable K} {V} (l : list (K * V)) : gmap K V :=
  foldl (fun m kv => <[kv.1 := kv.2]> m) ∅ l.

(** [cls.name_to_idx], which [NMEASentenceType.__init__] computes when the
    type is declared: [dict((f[1], i) for i, f in enumerate(cls.fields))]. *)
Definition name_to_idx (cls : sentence_class) : gmap str nat :=
  dict_of (map (fun '(i, f) => (f.2, i)) (enumerate (fields cls))).

(** The [sentence_types] dictionaries of [TalkerSentence] and
    [ProprietarySentence] ([QuerySentence] has one too, which nothing reads). *)
Record registry := {
  talker_types : gmap str sentence_class;
  query_types : gmap str sentence_class;
  proprietary_types : gmap str sentence_class
}.

(** [NMEASentenceType.__init__] for a type declared with the base [base]:
    [base.sentence_types[name] = cls]. *)
Definition declare (cls : sentence_class) (reg : registry) : registry :=
  match cls_base cls with
  | Talker =>
      {| talker_types := <[cls_name cls := cls]> (talker_types reg);
         query_types := query_types reg;
         proprietary_types := proprietary_types reg |}
  | Query =>
      {| talker_types := talker_types reg;
         query_types := <[cls_name cls := cls]> (query_types reg);
         proprietary_types := proprietary_types reg |}
  | Proprietary =>
      {| talker_types := talker_types reg;
         query_types := query_types reg;
         proprietary_types := <[cls_name cls := cls]> (proprietary_types reg) |}
  end.

(** The two types of this module that [parse] instantiates itself. *)
Definition QuerySentence : sentence_class :=
  {| cls_name := py "QuerySentence"; cls_base := Query; fields := [] |}.

Definition ProprietarySentence : sentence_class :=
  {| cls_name := py "ProprietarySentence"; cls_base := Proprietary; fields := [] |}.

(** ** Sentence objects *)

(** An object: its type, its instance attributes, and the keyword arguments
    its constructor was called with.  [TalkerSentence.__init__] takes them as
    [**kwargs] and reads none; they are kept for the types declared outside
    this module that do. *)
Record sentence := {
  type_of : sentence_class;
  attrs : gmap str value;
  init_kwargs : gmap string (list field)
}.

(** [t[:stop]] *)
Definition slice_to {A} (stop : Z) (t : list A) : list A :=
  let n := Z.of_nat (length t) in
  take (Z.to_nat (if (stop <? 0)%Z then Z.max 0 (n + stop) else stop)) t.

Section Sentences.

Context (rt : runtime).

(** [\s] *)
Definition is_space (c : N) : bool :=
  if is_ascii c then ascii_isspace c else uni_isspace rt c.

(** [\w] *)
Definition is_word (c : N) : bool :=
  if is_ascii c then ascii_isalnum c || (c =? ord "_") else uni_isalnum rt c.

(** [s.upper()] *)
Definition upper_char (c : N) : str :=
  if is_ascii c then [ascii_upper c] else uni_upper rt c.

Definition upper (s : str) : str := flat_map upper_char s.

Definition w : regex := Chr is_word.

(** The parts of [sentence_re], named as its comments name them. *)

(** proprietary sentence: [P\w{3}] *)
Definition proprietary_id : regex := Cat (Chr (is_char_i "P")) (times 3 w).

(** query sentence, ie: 'CCGPQ,GGA': [\w{2}\w{2}Q,\w{3}] *)
Definition query_id : regex :=
  Cat (times 2 w) (Cat (times 2 w)
    (Cat (Chr (is_char_i "Q")) (Cat (Chr (is_char ",")) (times 3 w)))).

(** talker sentence, ie: 'GPGGA': [\w{2}\w{3},] *)
Definition talker_id : regex := Cat (times 2 w) (Cat (times 3 w) (Chr (is_char ","))).

(** rest of message: [[^*]*] *)
Definition not_star (c : N) : bool := negb (is_char "*" c).
Definition rest_of_message : regex := Star not_star.

(** checksum: [(?:[*](?P<checksum>[A-F0-9]{2}))?] *)
Definition checksum_suffix : regex :=
  Opt (Cat (Chr (is_char "*")) (Group "checksum" (times 2 (Chr is_hex_i)))).

(** optional trailing whitespace: [\s*[\r\n]*$] *)
Definition trailing : regex := Cat (Star is_space) (Cat (Star is_cr_lf) Eos).

(** message (from '$' or start to checksum or end, non-inclusive) *)
Definition message : regex :=
  Group "nmea_str"
    (Cat
      (Group "sentence_type"
        (Alt (Group "3" proprietary_id) (Alt (Group "4" query_id) (Group "5" talker_id))))
      (Group "data" rest_of_message)).

(** [NMEASentence.sentence_re], compiled with [re.X | re.IGNORECASE]:
    start of string, optional whitespace, optional '$', the message, the
    checksum, the trailing whitespace. *)
Definition sentence_re : regex :=
  Cat Eps (Cat (Star is_space) (Cat (Opt (Chr (is_char "$")))
    (Cat message (Cat checksum_suffix trailing)))).

(** [NMEASentence.talker_re] *)
Definition talker_re : regex :=
  Cat Eps (Cat (Group "talker" (times 2 w)) (Cat (Group "sentence" (times 3 w))
  (Cat (Chr (is_char ",")) Eos))).

(** [NMEASentence.query_re] *)
Definition query_re : regex :=
  Cat Eps (Cat (Group "talker" (times 2 w)) (Cat (Group "listener" (times 2 w))
  (Cat (Chr (is_char "Q")) (Cat (Chr (is_char ","))
  (Cat (Group "sentence" (times 3 w)) Eos))))).

(** [NMEASentence.proprietary_re] *)
Definition proprietary_re : regex :=
  Cat Eps (Cat (Chr (is_char "P")) (Cat (Group "manufacturer" (times 3 w)) Eos)).

(** [str(v)] *)
Definition py_str (v : value) : str :=
  match v with
  | VNone => py "None"
  | VInt z => str_of_Z z
  | VStr s => s
  | VStrs l => py "[" ++ join (py ", ") (map (py_repr rt) l) ++ py "]"
  end.

(** ** Attributes *)

(** Modelled from the spec: reading [self.name].  An instance attribute is
    found in the object; any other name goes to [__getattr__], that is to
    [getattr__] of [nmea_utils], which is not part of this module and which
    the spec has fail for a name that is not defined. *)
Definition getattr (self : sentence) (name : str) : result value :=
  match attrs self !! name with
  | Some v => Ok v
  | None =>
      Raise {| exn_type := AttributeError; exn_message := name; exn_data := VNone |}
  end.

(** [self.data[i] = x] for the value [d] of [self.data]. *)
Definition setitem (d : value) (i : nat) (x : str) : result value :=
  match d with
  | VStrs l =>
      if bool_decide (i < length l)%nat then Ok (VStrs (<[i := x]> l))
      else builtin_error IndexError "list assignment index out of range"
  | _ => builtin_error TypeError "object does not support item assignment"
  end.

(** [NMEASentence.__setattr__] *)
Definition setattr (self : sentence) (name : str) (v : value) : result sentence :=
  let t := type_of self in
  match name_to_idx t !! name with
  | None =>
      (* object.__setattr__(self, name, value) *)
      Ok {| type_of := t; attrs := <[name := v]> (attrs self);
            init_kwargs := init_kwargs self |}
  | Some i =>
      d <- getattr self (py "data");;
      d' <- setitem d i (py_str v);;
      (* the list is changed in place: the object holds the changed list *)
      Ok {| type_of := t; attrs := <[py "data" := d']> (attrs self);
            init_kwargs := init_kwargs self |}
  end.

(** A new object of type [cls], before [__init__] runs. *)
Definition new (cls : sentence_class) (kwargs : gmap string (list field)) : sentence :=
  {| type_of := cls; attrs := ∅; init_kwargs := kwargs |}.

(** [TalkerSentence.__init__(self, talker, sentence_type, data, **kwargs)] *)
Definition TalkerSentence_init (cls : sentence_class) (talker sentence_type : str)
    (data : list str) (kwargs : gmap string (list field)) : result sentence :=
  self <- setattr (new cls kwargs) (py "talker") (VStr talker);;
  self <- setattr self (py "sentence_type") (VStr sentence_type);;
  setattr self (py "data") (VStrs data).

(** [QuerySentence.__init__(self, talker, listener, sentence_type)] *)
Definition QuerySentence_init (cls : sentence_class) (talker listener sentence_type : str)
    : result sentence :=
  self <- setattr (new cls ∅) (py "talker") (VStr talker);;
  self <- setattr self (py "listener") (VStr listener);;
  self <- setattr self (py "sentence_type") (VStr sentence_type);;
  setattr self (py "data") (VStrs []).

(** [ProprietarySentence.__init__(self, manufacturer, data)] *)
Definition ProprietarySentence_init (cls : sentence_class) (manufacturer : str)
    (data : list str) : result sentence :=
  self <- setattr (new cls ∅) (py "manufacturer") (VStr manufacturer);;
  setattr self (py "data") (VStrs data).

(** ** Checksum and rendering *)

(** [NMEASentence.checksum]: [reduce(operator.xor, map(ord, nmea_str), 0)].
    A character is its code here, so [map ord] is the identity. *)
Definition checksum (nmea_str : str) : N :=
  fold_left N.lxor nmea_str 0.

(** The [identifier] method of each of the three classes. *)
Definition identifier (self : sentence) : result str :=
  match cls_base (type_of self) with
  | Talker =>
      (* '%s%s,' % (self.talker, self.sentence_type) *)
      talker <- getattr self (py "talker");;
      sentence_type <- getattr self (py "sentence_type");;
      Ok (py_str talker ++ py_str sentence_type ++ py ",")
  | Query =>
      (* '%s%sQ,%s,' % (self.talker, self.listener, self.sentence_type) *)
      talker <- getattr self (py "talker");;
      listener <- getattr self (py "listener");;
      sentence_type <- getattr self (py "sentence_type");;
      Ok (py_str talker ++ py_str listener ++ py "Q," ++ py_str sentence_type ++ py ",")
  | Proprietary =>
      (* 'P%s' % (self.manufacturer) *)
      manufacturer <- getattr self (py "manufacturer");;
      Ok (py "P" ++ py_str manufacturer)
  end.

(** [','.join(d)] for the value [d] of [self.data]: a list of strings is
    joined, a string is joined character by character. *)
Definition join_data (d : value) : result str :=
  match d with
  | VStrs l => Ok (join (py ",") l)
  | VStr s => Ok (join (py ",") (map (fun c => [c]) s))
  | _ => builtin_error TypeError "can only join an iterable"
  end.

(** The [newline] argument of [render]: [False], [True], or a string. *)
Inductive newline_arg := NoNewline | Newline | NewlineStr (s : str).

(** [NMEASentence.render(self, checksum=True, dollar=True, newline=False)] *)
Definition render (self : sentence) (with_checksum dollar : bool)
    (newline : newline_arg) : result str :=
  ident <- identifier self;;
  d <- getattr self (py "data");;
  body <- join_data d;;
  let res := ident ++ body in
  let res := if with_checksum then res ++ py "*" ++ format_02X (checksum res) else res in
  let res := if dollar then py "$" ++ res else res in
  let res := match newline with
             | NoNewline => res
             | Newline => res ++ [13; 10]
             | NewlineStr s => res ++ s
             end in
  Ok res.

(** [NMEASentence.__str__] *)
Definition to_str (self : sentence) : result str :=
  render self true true NoNewline.

(** ** The dispatcher *)

(** [match.group(name)], for a group that took part in the match. *)
Definition group (m : groups) (name : string) : result str :=
  match m !! name with
  | Some s => Ok s
  | None => builtin_error AttributeError "'NoneType' object has no attribute"
  end.

Definition raise_parse_error {A} (c : exn_class) (msg : str) (data : value) : result A :=
  Raise {| exn_type := c; exn_message := msg; exn_data := data |}.

(** The checksum test of [parse]. *)
Definition check_checksum (m : groups) (nmea_str : str) (data : list str)
    (check : bool) : result unit :=
  match m !! "checksum"%string with
  | Some (c :: cs) =>
      match int16 (c :: cs) with
      | None => builtin_error ValueError "invalid literal for int() with base 16"
      | Some cs1 =>
          let cs2 := checksum nmea_str in
          if negb (cs1 =? cs2) && check then
            raise_parse_error ChecksumError
              (py "checksum does not match: " ++ format_02X cs1 ++ py " != " ++ format_02X cs2)
              (VStrs data)
          else Ok tt
      end
  | _ =>
      if check then
        raise_parse_error ChecksumError
          (py "strict checking requested but checksum missing") (VStrs data)
      else Ok tt
  end.

Definition GSV_field : field := (py "GNSS Signal ID", py "signal_id").
Definition GRS_fields : list field :=
  [(py "GNSS System ID", py "system_id"); (py "GNSS Signal ID", py "signal_id")].

(** [cls.fields] for the result [cls] of [sentence_types.get]. *)
Definition fields_of (cls : option sentence_class) : result (list field) :=
  match cls with
  | Some c => Ok (fields c)
  | None => builtin_error AttributeError "'NoneType' object has no attribute 'fields'"
  end.

(** The talker branch of [parse]. *)
Definition parse_talker (reg : registry) (line : str) (sentence_type : str)
    (data : list str) (GSV_signal_id GRS_ids : bool) (talker_match : groups)
    : result sentence :=
  talker <- group talker_match "talker";;
  sentence <- group talker_match "sentence";;
  let cls := talker_types reg !! sentence in
  let cls_kwargs : gmap string (list field) := ∅ in
  cls_kwargs <-
    (if bool_decide (sentence = py "GSV") && GSV_signal_id then
       fs <- fields_of cls;;
       Ok (<["fields"%string :=
              slice_to (Z.of_nat (length data) - 1) fs ++ [GSV_field]]> cls_kwargs)
     else Ok cls_kwargs);;
  cls_kwargs <-
    (if bool_decide (sentence = py "GRS") && GRS_ids then
       fs <- fields_of cls;;
       Ok (<["fields"%string := fs ++ GRS_fields]> cls_kwargs)
     else Ok cls_kwargs);;
  match cls with
  | None =>
      raise_parse_error SentenceTypeError
        (py "Unknown sentence type " ++ sentence_type) (VStr line)
  | Some cls => TalkerSentence_init cls talker sentence data cls_kwargs
  end.

(** The end of [parse]: the three identifier patterns, tried in turn on the
    upper-cased type identifier. *)
Definition parse_by_shape (reg : registry) (line : str) (sentence_type : str)
    (data_str : str) (data : list str) (GSV_signal_id GRS_ids : bool)
    : result sentence :=
  match re_match talker_re sentence_type with
  | Some talker_match =>
      parse_talker reg line sentence_type data GSV_signal_id GRS_ids talker_match
  | None =>
      match re_match query_re sentence_type, data_str with
      | Some query_match, [] =>
          talker <- group query_match "talker";;
          listener <- group query_match "listener";;
          sentence <- group query_match "sentence";;
          QuerySentence_init QuerySentence talker listener sentence
      | _, _ =>
          match re_match proprietary_re sentence_type with
          | Some proprietary_match =>
              manufacturer <- group proprietary_match "manufacturer";;
              let cls := default ProprietarySentence
                           (proprietary_types reg !! manufacturer) in
              ProprietarySentence_init cls manufacturer data
          | None =>
              raise_parse_error ParseError
                (py "could not parse sentence type: " ++ py_repr rt sentence_type)
                (VStr line)
          end
      end
  end.

(** [NMEASentence.parse(line, check=False, GSV_signal_id=False, GRS_ids=False)] *)
Definition parse (reg : registry) (line : str) (check GSV_signal_id GRS_ids : bool)
    : result sentence :=
  match re_match sentence_re line with
  | None => raise_parse_error ParseError (py "could not parse data") (VStr line)
  | Some m =>
      nmea_str <- group m "nmea_str";;
      data_str <- group m "data";;
      sentence_type <- group m "sentence_type";;
      let sentence_type := upper sentence_type in
      let data := split (ord ",") data_str in
      _ <- check_checksum m nmea_str data check;;
      parse_by_shape reg line sentence_type data_str data GSV_signal_id GRS_ids
  end.

End Sentences.

(** ** The grammar, read deterministically

    What the backtracking search of [sentence_re] comes to.  These
    definitions are compared with [re_match sentence_re] below; the
    dispatcher does not use them. *)

(** The longest prefix of [s] in the class [p], and what follows it. *)
Fixpoint span (p : N -> bool) (s : str) : str * str :=
  match s with
  | c :: s' => if p c then let '(a, b) := span p s' in (c :: a, b) else ([], s)
  | [] => ([], [])
  end.

(** The end of a match: the groups gathered so far. *)
Definition finish : str -> groups -> option groups := fun _ g => Some g.

Section Scanner.

Context (rt : runtime).

(** What may follow the data: nothing but blanks ([Some None]), or a star,
    two hexadecimal digits and blanks ([Some (Some digits)]). *)
Definition scan_suffix (s : str) : option (option str) :=
  match s with
  | c :: t =>
      if is_char "*" c then
        match t with
        | h1 :: h2 :: t' =>
            if is_hex_i h1 && is_hex_i h2 && forallb (is_space rt) t'
            then Some (Some [h1; h2]) else None
        | _ => None
        end
      else if forallb (is_space rt) s then Some None else None
  | [] => Some None
  end.

(** The data, up to the first star, and the checksum after it. *)
Definition scan_rest (r : str) : option (str * option str) :=
  let '(d, t) := span not_star r in
  cs ← scan_suffix t; Some (d, cs).

(** The three shapes of a type identifier at the head of [s]: the identifier
    and what follows it. *)
Definition scan_proprietary (s : str) : option (str * str) :=
  match s with
  | c1 :: c2 :: c3 :: c4 :: r =>
      if is_char_i "P" c1 && is_word rt c2 && is_word rt c3 && is_word rt c4
      then Some ([c1; c2; c3; c4], r) else None
  | _ => None
  end.

Definition scan_query (s : str) : option (str * str) :=
  match s with
  | c1 :: c2 :: c3 :: c4 :: c5 :: c6 :: c7 :: c8 :: c9 :: r =>
      if is_word rt c1 && is_word rt c2 && is_word rt c3 && is_word rt c4
         && is_char_i "Q" c5 && is_char "," c6
         && is_word rt c7 && is_word rt c8 && is_word rt c9
      then Some ([c1; c2; c3; c4; c5; c6; c7; c8; c9], r) else None
  | _ => None
  end.

Definition scan_talker (s : str) : option (str * str) :=
  match s with
  | c1 :: c2 :: c3 :: c4 :: c5 :: c6 :: r =>
      if is_word rt c1 && is_word rt c2 && is_word rt c3 && is_word rt c4
         && is_word rt c5 && is_char "," c6
      then Some ([c1; c2; c3; c4; c5; c6], r) else None
  | _ => None
  end.

Definition add_checksum (cs : option str) (g : groups) : groups :=
  match cs with
  | Some h => <["checksum"%string := h]> g
  | None => g
  end.

(** The groups of a match: the identifier under the number [n] of its
    alternative, the data, the message, and the checksum if there is one. *)
Definition match_groups (n : string) (id d : str) (cs : option str) : groups :=
  add_checksum cs
    (<["nmea_str"%string := id ++ d]>
       (<["data"%string := d]>
          (<["sentence_type"%string := id]> (<[n := id]> ∅)))).

(** One alternative: the identifier by [scan], then the rest. *)
Definition scan_with (n : string) (scan : str -> option (str * str)) (s : str)
    : option groups :=
  '(id, r) ← scan s; '(d, cs) ← scan_rest r; Some (match_groups n id d cs).

(** The message and what follows, from the first character of the
    identifier: the first alternative that leads to a match. *)
Definition scan_body (s : str) : option groups :=
  match scan_with "3" scan_proprietary s with
  | Some g => Some g
  | None =>
      match scan_with "4" scan_query s with
      | Some g => Some g
      | None => scan_with "5" scan_talker s
      end
  end.

(** After the leading blanks: an optional dollar, then the body. *)
Definition scan_line (s : str) : option groups :=
  match s with
  | c :: s' => if is_char "$" c then scan_body s' else scan_body s
  | [] => None
  end.

(** The three alternatives of the type identifier, by group number. *)
Definition alternatives : list (string * (str -> option (str * str))) :=
  [("3"%string, scan_proprietary); ("4"%string, scan_query);
   ("5"%string, scan_talker)].

End Scanner.

(** ** Identifiers as sequences of classes *)

(** [s] is one character of each class of [ps], in order. *)
Fixpoint matches_classes (ps : list (N -> bool)) (s : str) : bool :=
  match ps, s with
  | [], [] => true
  | p :: ps', c :: s' => p c && matches_classes ps' s'
  | _, _ => false
  end.

Section Classes.

Context (rt : runtime).

Definition proprietary_classes : list (N -> bool) :=
  [is_char_i "P"; is_word rt; is_word rt; is_word rt].

Definition query_classes : list (N -> bool) :=
  [is_word rt; is_word rt; is_word rt; is_word rt; is_char_i "Q"; is_char ",";
   is_word rt; is_word rt; is_word rt].

Definition talker_classes : list (N -> bool) :=
  [is_word rt; is_word rt; is_word rt; is_word rt; is_word rt; is_char ","].

(** A class that reads a letter and its upper case alike, and no star. *)
Definition plain_class (p : N -> bool) : Prop :=
  (forall c, p (ascii_upper c) = p c) /\ p (ord "*") = false.

End Classes.

Section Winner.

Context (rt : runtime).

(** The alternative numbered [n], whose classes are [ps], is the one that
    matches the body [s]: those before it do not. *)
Definition winner (n : string) (ps : list (N -> bool)) (s : str) : Prop :=
  (n = "3"%string /\ ps = proprietary_classes rt) \/
  (n = "4"%string /\ ps = query_classes rt /\
   scan_with rt "3" (scan_proprietary rt) s = None) \/
  (n = "5"%string /\ ps = talker_classes rt /\
   scan_with rt "3" (scan_proprietary rt) s = None /\
   scan_with rt "4" (scan_query rt) s = None).

End Winner.

(** ** Vocabulary of the statements *)

(** [r] raises an exception of the class [c] itself. *)
Definition raises {A} (r : result A) (c : exn_class) : Prop :=
  exists e, r = Raise e /\ exn_type e = c.

(** The checksum test lets a match [m] through: no check is asked for, or the
    suffix is there and is the checksum of the message. *)
Definition checksum_passes (m : groups) (check : bool) : Prop :=
  check = false \/
  exists h nmea_str,
    m !! "checksum"%string = Some h /\ m !! "nmea_str"%string = Some nmea_str /\
    int16 h = Some (checksum nmea_str).

(** [r] raises no exception of the class [c]. *)
Definition never {A} (c : exn_class) (r : result A) : Prop :=
  forall e, r = Raise e -> exn_type e <> c.

(** [c] is none of the classes the attribute layer raises. *)
Definition attribute_errors (c : exn_class) : Prop :=
  AttributeError <> c /\ IndexError <> c /\ TypeError <> c.

(** None of the attributes [TalkerSentence.__init__] sets is a field name of
    [cls], so that the constructor sets them as plain attributes. *)
Definition plain_schema (cls : sentence_class) : Prop :=
  name_to_idx cls !! py "talker" = None /\
  name_to_idx cls !! py "sentence_type" = None /\
  name_to_idx cls !! py "data" = None.

(** What a caller tells two results of [parse] apart by, the line an
    exception carries left out: the object, or the class and the message of
    the exception. *)
Definition outcome (r : result sentence) : sentence + exn_class * str :=
  match r with
  | Ok self => inl self
  | Raise e => inr (exn_type e, exn_message e)
  end.

(** Every class registered as a talker type derives from TalkerSentence and
    every class registered as a proprietary type from ProprietarySentence, as
    [declare] has it. *)
Definition registry_wf (reg : registry) : Prop :=
  (forall name cls, talker_types reg !! name = Some cls -> cls_base cls = Talker) /\
  (forall name cls,
     proprietary_types reg !! name = Some cls -> cls_base cls = Proprietary).

(** The exclusive-or reduction of a sequence of character codes, as the
    specification words it. *)
Fixpoint xor_reduction (codes : list N) : N :=
  match codes with
  | [] => 0
  | c :: codes' => N.lxor c (xor_reduction codes')
  end.

(** How many characters of [s] have bit [i] set. *)
Definition count_bit (i : N) (s : str) : nat :=
  length (filter (fun c => N.testbit c i = true) s).

(** ** The objects the constructors build *)

(** What [TalkerSentence.__init__], [QuerySentence.__init__] and
    [ProprietarySentence.__init__] leave when every name they set is a plain
    attribute. *)
Definition talker_object (cls : sentence_class) (talker sentence_type : str)
    (data : list str) (kwargs : gmap string (list field)) : sentence :=
  {| type_of := cls;
     attrs := <[py "data" := VStrs data]>
                (<[py "sentence_type" := VStr sentence_type]>
                   (<[py "talker" := VStr talker]> ∅));
     init_kwargs := kwargs |}.

Definition query_object (talker listener sentence_type : str) : sentence :=
  {| type_of := QuerySentence;
     attrs := <[py "data" := VStrs []]>
                (<[py "sentence_type" := VStr sentence_type]>
                   (<[py "listener" := VStr listener]>
                      (<[py "talker" := VStr talker]> ∅)));
     init_kwargs := ∅ |}.

Definition proprietary_object (manufacturer : str) (data : list str) : sentence :=
  {| type_of := ProprietarySentence;
     attrs := <[py "data" := VStrs data]> (<[py "manufacturer" := VStr manufacturer]> ∅);
     init_kwargs := ∅ |}.


(** The keyword arguments [parse] builds for a registered type. *)
Definition schema_kwargs (cls : sentence_class) (sentence : str) (data : list str)
    (gsv grs : bool) : gmap string (list field) :=
  let kw : gmap string (list field) :=
    if bool_decide (sentence = py "GSV") && gsv
    then <["fields"%string := take (length data - 1) (fields cls) ++ [GSV_field]]> ∅
    else ∅ in
  if bool_decide (sentence = py "GRS") && grs
  then <["fields"%string := fields cls ++ GRS_fields]> kw
  else kw.

(** ** Samples

    A runtime, sentence types and registries to run the definitions on.  The
    sample runtime knows no code point beyond ASCII (none is a blank or
    alphanumeric, upper-casing leaves them as they are) and its [repr] puts a
    string between quotes; no example below asks it about a character outside
    ASCII, or for the [repr] of a string that needs escaping. *)

Definition sample_runtime : runtime :=
  {| uni_isspace := fun _ => false;
     uni_isalnum := fun _ => false;
     uni_upper := fun c => [c];
     py_repr := fun s => py "'" ++ s ++ py "'" |}.

Definition GGA : sentence_class :=
  {| cls_name := py "GGA"; cls_base := Talker;
     fields :=
       [(py "Timestamp", py "timestamp");
        (py "Latitude", py "lat");
        (py "Latitude Direction", py "lat_dir");
        (py "Longitude", py "lon");
        (py "Longitude Direction", py "lon_dir");
        (py "GPS Quality Indicator", py "gps_qual");
        (py "Number of Satellites in use", py "num_sats");
        (py "Horizontal Dilution of Precision", py "horizontal_dil");
        (py "Antenna Alt above sea level (mean)", py "altitude");
        (py "Units of altitude (meters)", py "altitude_units");
        (py "Geoidal Separation", py "geo_sep");
        (py "Units of Geoidal Separation (meters)", py "geo_sep_units");
        (py "Age of Differential GPS Data (secs)", py "age_gps_data");
        (py "Differential Reference Station ID", py "ref_station_id")] |}.

Definition GSV : sentence_class :=
  {| cls_name := py "GSV"; cls_base := Talker;
     fields :=
       [(py "Number of messages of type in cycle", py "num_messages");
        (py "Message Number", py "msg_num");
        (py "Total number of SVs in view", py "num_sv_in_view");
        (py "SV PRN number 1", py "sv_prn_num_1");
        (py "Elevation in degrees 1", py "elevation_deg_1");
        (py "Azimuth, deg from true north 1", py "azimuth_1");
        (py "SNR 1", py "snr_1")] |}.

Definition GRS : sentence_class :=
  {| cls_name := py "GRS"; cls_base := Talker;
     fields :=
       [(py "Timestamp", py "timestamp");
        (py "Residuals mode", py "residuals_mode");
        (py "SV 0 Residual (m)", py "sv_res_01");
        (py "SV 1 Residual (m)", py "sv_res_02")] |}.

(** The registries as [nmea.py] itself leaves them: no type declared. *)
Definition empty_registry : registry :=
  {| talker_types := ∅; query_types := ∅; proprietary_types := ∅ |}.

Definition sample_registry : registry :=
  declare GGA (declare GSV (declare GRS empty_registry)).

(** ** Upper case on ASCII, and tactics *)

(** [s.upper()] for an ASCII string. *)
Abbreviation uc := (map ascii_upper).

(** Case analysis on the guards of a pattern run on an explicit input. *)
Ltac split_guards :=
  repeat match goal with
         | |- context [if ?b then _ else _] =>
             let E := fresh "E" in
             destruct b eqn:E; cbn -[N.eqb ord consumed at_end]; try done
         end.

Ltac ord_values :=
  change (ord "a") with 97 in *; change (ord "z") with 122 in *;
  change (ord "A") with 65 in *; change (ord "Z") with 90 in *;
  change (ord "0") with 48 in *; change (ord "9") with 57 in *;
  change (ord "F") with 70 in *; change (ord "f") with 102 in *;
  change (ord "_") with 95 in *; change (ord ",") with 44 in *;
  change (ord "*") with 42 in *.

(** Case analysis on every comparison of the goal, then arithmetic. *)
Ltac split_comparisons :=
  repeat match goal with
         | |- context [N.leb ?a ?b] => destruct (N.leb_spec a b)
         | |- context [N.ltb ?a ?b] => destruct (N.ltb_spec a b)
         | |- context [N.eqb ?a ?b] => destruct (N.eqb_spec a b)
         end;
  simpl in *; try done; try lia.

(** Case analysis on every class test of the goal. *)
Ltac split_booleans :=
  repeat first
    [ progress cbn [matches_classes andb]
    | match goal with
      | |- context [is_word ?r ?c] => destruct (is_word r c)
      | |- context [is_char_i ?a ?c] => destruct (is_char_i a c)
      | |- context [is_char ?a ?c] => destruct (is_char a c)
      end ];
  try done.

(** ** Registries built by declarations *)

(** The registries the metaclass can build: those of [nmea.py], and what a
    class statement adds to one. *)
Inductive declared : registry -> Prop :=
| declared_empty : declared empty_registry
| declared_declare cls reg : declared reg -> declared (declare cls reg).

(** The registry of the base a type derives from. *)
Definition types_of (base : category) (reg : registry) : gmap str sentence_class :=
  match base with
  | Talker => talker_types reg
  | Query => query_types reg
  | Proprietary => proprietary_types reg
  end.

#[global] Instance category_eq_dec : EqDecision category.
Proof. solve_decision. Defined.

(** How many times [sep] occurs in [s]. *)
Definition count_char (sep : N) (s : str) : nat :=
  length (filter (fun c => c = sep) s).

(** ** Vocabulary of the further statements *)

(** No type of the registries has a field named as an attribute its
    constructor sets, so that the constructors set plain attributes. *)
Definition registry_plain (reg : registry) : Prop :=
  (forall name cls, talker_types reg !! name = Some cls -> plain_schema cls) /\
  (forall name cls, proprietary_types reg !! name = Some cls ->
     name_to_idx cls !! py "manufacturer" = None /\ name_to_idx cls !! py "data" = None).

(** The sentence code [parse] looks up in the talker registry, for a line of
    the talker shape. *)
Definition sentence_code (rt : runtime) (line : str) : option str :=
  m ← re_match (sentence_re rt) line;
  id ← m !! "sentence_type"%string;
  tm ← re_match (talker_re rt) (upper rt id);
  tm !! "sentence"%string.

(** ** [__repr__] *)

(** [iter(d)] for the value [d] of [self.data]: the elements of a list, the
    characters of a string. *)
Definition iter_data (d : value) : result (list str) :=
  match d with
  | VStrs l => Ok l
  | VStr s => Ok (map (fun c => [c]) s)
  | _ => builtin_error TypeError "object is not iterable"
  end.

(** [len(self.fields)]: [fields] of the object if it has an attribute of
    that name, else of its type. *)
Definition len_fields (self : sentence) : result nat :=
  match attrs self !! py "fields" with
  | None => Ok (length (fields (type_of self)))
  | Some (VStr s) => Ok (length s)
  | Some (VStrs l) => Ok (length l)
  | Some _ => builtin_error TypeError "object has no len()"
  end.

(** [self.fields[i][1]]: the name of the field at [i].  Of a string that
    stands for [fields], an element is one character and has no index 1; of a
    list of strings, an element is a string, whose index 1 is its second
    character. *)
Definition field_name (self : sentence) (i : nat) : result str :=
  match attrs self !! py "fields" with
  | None =>
      match fields (type_of self) !! i with
      | Some f => Ok f.2
      | None => builtin_error IndexError "tuple index out of range"
      end
  | Some (VStr s) => builtin_error IndexError "string index out of range"
  | Some (VStrs l) =>
      match l !! i with
      | Some x =>
          match x !! 1%nat with
          | Some c => Ok [c]
          | None => builtin_error IndexError "string index out of range"
          end
      | None => builtin_error IndexError "list index out of range"
      end
  | Some _ => builtin_error TypeError "object is not subscriptable"
  end.

Section Repr.

Context (rt : runtime) {V : Type}.

(** [getattr(self, name)] for the name of a field: the attributes of the
    object and of its type and, failing them, [__getattr__], which is
    [getattr__] of [nmea_utils], not part of this module.  [V] is the type of
    the values it gives. *)
Context (py_getattr : sentence -> str -> result V).

(** [repr(value)] of such a value. *)
Context (repr_value : V -> result str).

(** The loop of [__repr__] from the index [i] on: [r] collects the fields
    with their values, [d] the data beyond the fields. *)
Fixpoint repr_loop (self : sentence) (i : nat) (data : list str) (r d : list str)
    : result (list str * list str) :=
  match data with
  | [] => Ok (r, d)
  | v :: data' =>
      n <- len_fields self;;
      if bool_decide (n <= i)%nat then repr_loop self (S i) data' r (d ++ [v])
      else
        name <- field_name self i;;
        match py_getattr self name with
        | Raise e =>
            (* except AttributeError: continue *)
            if issubclass (exn_type e) AttributeError
            then repr_loop self (S i) data' r d
            else Raise e
        | Ok value =>
            text <- repr_value value;;
            (* '%s=%r' % (name, value) *)
            repr_loop self (S i) data' (r ++ [name ++ py "=" ++ text]) d
        end
  end.

(** [NMEASentence.__repr__] *)
Definition repr (self : sentence) : result str :=
  data <- getattr self (py "data");;
  data <- iter_data data;;
  rd <- repr_loop self 0 data [] [];;
  let '(r, d) := rd in
  (* '<%s(%s)%s>' % (type(self).__name__, ', '.join(r), d and ' data=%r' % d or '') *)
  Ok (py "<" ++ cls_name (type_of self) ++ py "(" ++ join (py ", ") r ++ py ")"
      ++ match d with
         | [] => []
         | _ => py " data=" ++ py_str rt (VStrs d)
         end
      ++ py ">").

End Repr.

(** The entry of a field in the text, when its value was found. *)
Definition entry (txt : str -> option str) (f : field) : option str :=
  t ← txt f.2; Some (f.2 ++ py "=" ++ t).

(** The text [render] adds for its [newline] argument. *)
Definition newline_text (newline : newline_arg) : str :=
  match newline with
  | NoNewline => []
  | Newline => [13; 10]
  | NewlineStr s => s
  end.

(** ** An identifier written in upper case *)

(** [up] is [id] written in upper case: the capital in the place of every
    ASCII lower-case letter, every other character as it is.  This says what
    upper case is without [ascii_upper] or [upper]. *)
Fixpoint written_in_upper_case (id up : str) : bool :=
  match id, up with
  | [], [] => true
  | a :: id', b :: up' =>
      (if between (ord "a") (ord "z") a then b + 32 =? a else b =? a)
      && written_in_upper_case id' up'
  | _, _ => false
  end.

(** * Properties *)

(** ** The repetition *)

Lemma span_app p s : (span p s).1 ++ (span p s).2 = s.
Proof.
  induction s as [|c s IH]; simpl; [done|].
  destruct (p c); [|done]. destruct (span p s) as [a b]; simpl in *. by rewrite IH.
Qed.

Lemma span_forallb p s : forallb p (span p s).1 = true.
Proof.
  induction s as [|c s IH]; simpl; [done|].
  destruct (p c) eqn:E; [|done]. destruct (span p s) as [a b]; simpl in *. by rewrite E.
Qed.

Lemma span_rest p s : match (span p s).2 with c :: _ => p c = false | [] => True end.
Proof.
  induction s as [|c s IH]; simpl; [done|].
  destruct (p c) eqn:E; [|done]. destruct (span p s) as [a b]; simpl in *. done.
Qed.

Lemma span_prefix p a b :
  forallb p a = true -> span p (a ++ b) = (a ++ (span p b).1, (span p b).2).
Proof.
  intros Ha. induction a as [|c a IH]; simpl in *.
  - by destruct (span p b).
  - apply andb_true_iff in Ha as [-> Ha]. by rewrite IH.
Qed.

Lemma span_stop p a b :
  forallb p a = true -> match b with c :: _ => p c = false | [] => True end ->
  span p (a ++ b) = (a, b).
Proof.
  intros Ha Hb. rewrite span_prefix by done.
  destruct b as [|c b]; simpl; [by rewrite app_nil_r|]. by rewrite Hb, app_nil_r.
Qed.

(** A successful repetition read some prefix in the class. *)
Lemma star_some_inv {A} p s (k : str -> option A) a :
  star p s k = Some a ->
  exists pre s', s = pre ++ s' /\ forallb p pre = true /\ k s' = Some a.
Proof.
  induction s as [|c s IH]; simpl; intros H.
  - by exists [], [].
  - destruct (p c) eqn:E; [|by exists [], (c :: s)].
    destruct (star p s k) eqn:E'.
    + injection H as ->. destruct (IH eq_refl) as (pre & s' & -> & Hp & Hk).
      exists (c :: pre), s'. simpl. by rewrite E.
    + by exists [], (c :: s).
Qed.

(** The longest run is tried first. *)
Lemma star_first {A} p s (k : str -> option A) a :
  k (span p s).2 = Some a -> star p s k = Some a.
Proof.
  induction s as [|c s IH]; simpl; [done|].
  destruct (p c) eqn:E; [|done].
  destruct (span p s) as [x y]; simpl in *. intros H. by rewrite (IH H).
Qed.

(** When no run is followed by a match, there is none. *)
Lemma star_none {A} p s (k : str -> option A) :
  (forall pre s', s = pre ++ s' -> forallb p pre = true -> k s' = None) ->
  star p s k = None.
Proof.
  induction s as [|c s IH]; simpl; intros H.
  - by apply (H [] []).
  - destruct (p c) eqn:E; [|by apply (H [] (c :: s))].
    rewrite IH; [by apply (H [] (c :: s))|].
    intros pre s' -> Hp. apply (H (c :: pre) s'); [done|]. simpl. by rewrite E.
Qed.

(** When what follows fails after every character of the class, the
    repetition reads the longest run and nothing else. *)
Lemma star_commit {A} p s (k : str -> option A) :
  (forall c s', p c = true -> k (c :: s') = None) ->
  star p s k = k (span p s).2.
Proof.
  intros H. induction s as [|c s IH]; simpl; [done|].
  destruct (p c) eqn:E; [|done].
  rewrite IH. destruct (span p s) as [x y]; simpl.
  destruct (k y); [done|]. by apply H.
Qed.

Lemma star_ext {A} p s (k1 k2 : str -> option A) :
  (forall s', k1 s' = k2 s') -> star p s k1 = star p s k2.
Proof.
  intros H. induction s as [|c s IH]; simpl; [done|]. by rewrite IH, H.
Qed.

Lemma consumed_app (a b : str) : consumed (a ++ b) b = a.
Proof.
  unfold consumed. rewrite length_app.
  replace (length a + length b - length b)%nat with (length a) by lia.
  by rewrite take_app_length.
Qed.

Lemma consumed_nil (a : str) : consumed a [] = a.
Proof. rewrite <- (app_nil_r a) at 1. apply consumed_app. Qed.

(** ** Character classes *)

Section Grammar.

Context (rt : runtime).

Lemma is_cr_lf_space c : is_cr_lf c = true -> is_space rt c = true.
Proof.
  unfold is_cr_lf, is_space, is_ascii, ascii_isspace, between.
  intros H. apply orb_true_iff in H as [H|H]; apply N.eqb_eq in H; by subst.
Qed.

Lemma star_not_space : is_space rt (ord "*") = false.
Proof. reflexivity. Qed.

Lemma forallb_space_no_star s :
  forallb (is_space rt) s = true -> forallb not_star s = true.
Proof.
  induction s as [|c s IH]; simpl; [done|].
  intros [Hc Hs]%andb_true_iff. rewrite (IH Hs), andb_true_r.
  unfold not_star, is_char. destruct (N.eqb_spec c (ord "*")) as [->|]; [|done].
  by rewrite star_not_space in Hc.
Qed.

(** ** The trailing blanks *)

Lemma exec_trailing s g :
  exec (trailing rt) s g finish = if forallb (is_space rt) s then Some g else None.
Proof.
  unfold trailing. cbn [exec].
  destruct (forallb (is_space rt) s) eqn:E.
  - apply star_first.
    replace (span (is_space rt) s) with (s, @nil N).
    + reflexivity.
    + symmetry. rewrite <- (app_nil_r s) at 1. by apply span_stop.
  - apply star_none. intros pre s' -> Hpre.
    apply star_none. intros pre' s'' -> Hpre'.
    destruct (at_end s'') eqn:Hend; [|done]. exfalso.
    rewrite !forallb_app, Hpre in E. simpl in E.
    assert (forallb (is_space rt) pre' = true) as Hp.
    { apply forallb_forall. intros x Hx. apply is_cr_lf_space.
      by eapply forallb_forall in Hpre'. }
    rewrite Hp in E. simpl in E.
    destruct s'' as [|c [|]]; simpl in *; try done.
    apply N.eqb_eq in Hend as ->. done.
Qed.

(** ** The checksum suffix *)

Lemma exec_suffix s g :
  exec (Cat checksum_suffix (trailing rt)) s g finish
  = (cs ← scan_suffix rt s; Some (add_checksum cs g)).
Proof.
  unfold checksum_suffix. cbn [exec times].
  destruct s as [|c t]; [by rewrite exec_trailing|].
  unfold scan_suffix.
  destruct (is_char "*" c) eqn:Ec.
  - assert (exec (trailing rt) (c :: t) g finish = None) as Hno.
    { rewrite exec_trailing. simpl. unfold is_char in Ec. apply N.eqb_eq in Ec as ->.
      by rewrite star_not_space. }
    destruct t as [|h1 [|h2 t']]; [by rewrite Hno|by destruct (is_hex_i h1); rewrite Hno|].
    destruct (is_hex_i h1); [|by rewrite Hno].
    destruct (is_hex_i h2); [|by rewrite Hno].
    rewrite exec_trailing.
    assert (consumed (h1 :: h2 :: t') t' = [h1; h2]) as -> by apply (consumed_app [h1; h2]).
    destruct (forallb (is_space rt) t'); [done|]. by rewrite Hno.
  - rewrite exec_trailing. by destruct (forallb (is_space rt) (c :: t)).
Qed.


(** ** The data and what follows it *)

Lemma scan_suffix_shorter r pre s' :
  scan_suffix rt (span not_star r).2 = None ->
  r = pre ++ s' -> forallb not_star pre = true ->
  scan_suffix rt s' = None.
Proof.
  intros Hnone -> Hpre. rewrite span_prefix in Hnone by done. simpl in Hnone.
  pose proof (span_app not_star s') as Happ.
  pose proof (span_forallb not_star s') as Hx.
  pose proof (span_rest not_star s') as Ht.
  destruct (span not_star s') as [x t]; simpl in *. subst s'.
  destruct x as [|c x]; [done|]. simpl in *.
  apply andb_true_iff in Hx as [Hc Hx].
  unfold not_star in Hc. apply negb_true_iff in Hc. rewrite Hc.
  destruct (is_space rt c); [|done]. simpl.
  destruct (forallb (is_space rt) (x ++ t)) eqn:E; [|done]. exfalso.
  rewrite forallb_app in E. apply andb_true_iff in E as [_ E].
  destruct t as [|c0 t]; [done|]. simpl in E.
  unfold not_star in Ht. apply negb_false_iff in Ht.
  unfold is_char in Ht. apply N.eqb_eq in Ht as ->.
  by rewrite star_not_space in E.
Qed.

Lemma data_then_suffix id r g :
  star not_star r (fun s' =>
    exec (Cat checksum_suffix (trailing rt)) s'
      (<["nmea_str"%string := consumed (id ++ r) s']>
         (<["data"%string := consumed r s']> g)) finish)
  = ('(d, cs) ← scan_rest rt r;
     Some (add_checksum cs (<["nmea_str"%string := id ++ d]> (<["data"%string := d]> g)))).
Proof.
  unfold scan_rest.
  pose proof (span_app not_star r) as Happ.
  destruct (span not_star r) as [d t] eqn:Espan; simpl in Happ.
  destruct (scan_suffix rt t) as [cs|] eqn:Et; cbn [mbind option_bind].
  - apply star_first. rewrite Espan. cbn [snd]. rewrite exec_suffix, Et.
    cbn [mbind option_bind].
    subst r. by rewrite app_assoc, !consumed_app.
  - apply star_none. intros pre s' Hr Hpre. rewrite exec_suffix.
    rewrite (scan_suffix_shorter r pre s'); [done| |done..].
    by rewrite Espan.
Qed.

(** ** The type identifier *)

Lemma scan_proprietary_app s id r : scan_proprietary rt s = Some (id, r) -> s = id ++ r.
Proof.
  unfold scan_proprietary. destruct s as [|c1 [|c2 [|c3 [|c4 s]]]]; try done.
  destruct (_ && _); [|done]. by intros [= <- <-].
Qed.

Lemma scan_query_app s id r : scan_query rt s = Some (id, r) -> s = id ++ r.
Proof.
  unfold scan_query.
  destruct s as [|c1 [|c2 [|c3 [|c4 [|c5 [|c6 [|c7 [|c8 [|c9 s]]]]]]]]]; try done.
  destruct (_ && _); [|done]. by intros [= <- <-].
Qed.

Lemma scan_talker_app s id r : scan_talker rt s = Some (id, r) -> s = id ++ r.
Proof.
  unfold scan_talker. destruct s as [|c1 [|c2 [|c3 [|c4 [|c5 [|c6 s]]]]]]; try done.
  destruct (_ && _); [|done]. by intros [= <- <-].
Qed.

Lemma exec_proprietary_id {A} n s g (k : str -> groups -> option A) :
  exec (Group n (proprietary_id rt)) s g k
  = match scan_proprietary rt s with
    | Some (id, r) => k r (<[n := id]> g)
    | None => None
    end.
Proof.
  unfold proprietary_id, scan_proprietary, w. cbn [exec times].
  destruct s as [|c1 [|c2 [|c3 [|c4 r]]]]; try done;
    repeat (match goal with |- context [if ?b then _ else _] => destruct b end;
            simpl; try done).
  by rewrite <- (consumed_app [c1; c2; c3; c4] r).
Qed.

Lemma exec_query_id {A} n s g (k : str -> groups -> option A) :
  exec (Group n (query_id rt)) s g k
  = match scan_query rt s with
    | Some (id, r) => k r (<[n := id]> g)
    | None => None
    end.
Proof.
  unfold query_id, scan_query, w. cbn [exec times].
  destruct s as [|c1 [|c2 [|c3 [|c4 [|c5 [|c6 [|c7 [|c8 [|c9 r]]]]]]]]]; try done;
    repeat (match goal with |- context [if ?b then _ else _] => destruct b end;
            simpl; try done).
  by rewrite <- (consumed_app [c1; c2; c3; c4; c5; c6; c7; c8; c9] r).
Qed.

Lemma exec_talker_id {A} n s g (k : str -> groups -> option A) :
  exec (Group n (talker_id rt)) s g k
  = match scan_talker rt s with
    | Some (id, r) => k r (<[n := id]> g)
    | None => None
    end.
Proof.
  unfold talker_id, scan_talker, w. cbn [exec times].
  destruct s as [|c1 [|c2 [|c3 [|c4 [|c5 [|c6 r]]]]]]; try done;
    repeat (match goal with |- context [if ?b then _ else _] => destruct b end;
            simpl; try done).
  by rewrite <- (consumed_app [c1; c2; c3; c4; c5; c6] r).
Qed.

(** ** The message *)

Lemma exec_alternative n scan s :
  (forall id r, scan s = Some (id, r) -> s = id ++ r) ->
  match scan s with
  | Some (id, r) =>
      exec (Group "data" rest_of_message) r
        (<["sentence_type"%string := consumed s r]> (<[n := id]> ∅))
        (fun s' g' =>
           exec (Cat checksum_suffix (trailing rt)) s'
             (<["nmea_str"%string := consumed s s']> g') finish)
  | None => None
  end = scan_with rt n scan s.
Proof.
  intros Happ. unfold scan_with. destruct (scan s) as [[id r]|] eqn:E; [|done].
  cbn [mbind option_bind]. rewrite (Happ id r eq_refl). rewrite consumed_app.
  exact (data_then_suffix id r _).
Qed.

Lemma exec_message s :
  exec (Cat (message rt) (Cat checksum_suffix (trailing rt))) s ∅ finish
  = scan_body rt s.
Proof.
  unfold scan_body.
  pose (k := fun (s' : str) (g' : groups) =>
    exec (Group "data" rest_of_message) s'
      (<["sentence_type"%string := consumed s s']> g')
      (fun s'' g'' =>
         exec (Cat checksum_suffix (trailing rt)) s''
           (<["nmea_str"%string := consumed s s'']> g'') finish)).
  change (match exec (Group "3" (proprietary_id rt)) s ∅ k with
          | Some a => Some a
          | None =>
              match exec (Group "4" (query_id rt)) s ∅ k with
              | Some a => Some a
              | None => exec (Group "5" (talker_id rt)) s ∅ k
              end
          end = scan_body rt s).
  rewrite exec_proprietary_id, exec_query_id, exec_talker_id. unfold k, scan_body.
  rewrite (exec_alternative "3" (scan_proprietary rt) s) by apply scan_proprietary_app.
  rewrite (exec_alternative "4" (scan_query rt) s) by apply scan_query_app.
  rewrite (exec_alternative "5" (scan_talker rt) s) by apply scan_talker_app.
  done.
Qed.

Lemma scan_body_dollar c s : is_char "$" c = true -> scan_body rt (c :: s) = None.
Proof.
  unfold is_char. intros ->%N.eqb_eq.
  unfold scan_body, scan_with, scan_proprietary, scan_query, scan_talker.
  destruct s as [|c2 [|c3 [|c4 [|c5 [|c6 [|c7 [|c8 [|c9 r]]]]]]]]; done.
Qed.

(** [sentence_re] reads the leading blanks, then the line as [scan_line]. *)
Lemma re_match_sentence_re line :
  re_match (sentence_re rt) line = star (is_space rt) line (scan_line rt).
Proof.
  pose (body := Cat (message rt) (Cat checksum_suffix (trailing rt))).
  change (star (is_space rt) line
            (fun s' => exec (Cat (Opt (Chr (is_char "$"))) body) s' ∅ finish)
          = star (is_space rt) line (scan_line rt)).
  apply star_ext. intros s.
  change (match
            match s with
            | c :: s' => if is_char "$" c then exec body s' ∅ finish else None
            | [] => None
            end
          with
          | Some a => Some a
          | None => exec body s ∅ finish
          end = scan_line rt s).
  unfold body. destruct s as [|c s]; rewrite !exec_message; [done|].
  unfold scan_line. destruct (is_char "$" c) eqn:E; [|done].
  rewrite (scan_body_dollar c s E). by destruct (scan_body rt s).
Qed.

End Grammar.

(** ** The groups of a match *)

Section Groups.

Context (rt : runtime).

Lemma scan_body_inv s m :
  scan_body rt s = Some m ->
  exists n scan id r d cs,
    (n, scan) ∈ alternatives rt /\ scan s = Some (id, r) /\
    scan_rest rt r = Some (d, cs) /\ m = match_groups n id d cs.
Proof.
  unfold scan_body, alternatives.
  assert (forall n scan, scan_with rt n scan s = Some m ->
            exists id r d cs, scan s = Some (id, r) /\
              scan_rest rt r = Some (d, cs) /\ m = match_groups n id d cs) as H.
  { intros n scan. unfold scan_with.
    destruct (scan s) as [[id r]|]; [|done]. cbn [mbind option_bind].
    destruct (scan_rest rt r) as [[d cs]|] eqn:Er; [|done]. cbn [mbind option_bind].
    intros [= <-]. by exists id, r, d, cs. }
  destruct (scan_with rt "3" _ s) eqn:E3.
  { intros [= ->]. destruct (H _ _ E3) as (id & r & d & cs & ?).
    exists "3"%string, (scan_proprietary rt), id, r, d, cs.
    split; [apply list_elem_of_here|done]. }
  destruct (scan_with rt "4" _ s) eqn:E4.
  { intros [= ->]. destruct (H _ _ E4) as (id & r & d & cs & ?).
    exists "4"%string, (scan_query rt), id, r, d, cs.
    split; [apply list_elem_of_further, list_elem_of_here|done]. }
  intros E5. destruct (H _ _ E5) as (id & r & d & cs & ?).
  exists "5"%string, (scan_talker rt), id, r, d, cs.
  split; [do 2 apply list_elem_of_further; apply list_elem_of_here|done].
Qed.

Lemma match_groups_lookup n scan id d cs :
  (n, scan) ∈ alternatives rt ->
  let m := match_groups n id d cs in
  m !! "nmea_str"%string = Some (id ++ d) /\ m !! "data"%string = Some d /\
  m !! "sentence_type"%string = Some id /\ m !! "checksum"%string = cs.
Proof.
  unfold alternatives. intros Hn.
  repeat (apply elem_of_cons in Hn as [[= -> _]|Hn]; [by destruct cs|]).
  by apply elem_of_nil in Hn.
Qed.

Lemma scan_rest_checksum r d cs :
  scan_rest rt r = Some (d, cs) ->
  match cs with
  | Some h => exists h1 h2, h = [h1; h2] /\ is_hex_i h1 = true /\ is_hex_i h2 = true
  | None => True
  end.
Proof.
  unfold scan_rest. destruct (span not_star r) as [d' t].
  destruct t as [|c t]; simpl; [by intros [= <- <-]|].
  destruct (is_char "*" c).
  - destruct t as [|h1 [|h2 t']]; try done.
    destruct (is_hex_i h1) eqn:E1; [|done]. destruct (is_hex_i h2) eqn:E2; [|done].
    simpl. destruct (forallb _ t'); [|done]. intros [= <- <-]. by exists h1, h2.
  - destruct (_ && _); [|done]. by intros [= <- <-].
Qed.

(** What a match of [sentence_re] holds: the groups [sentence_type], [data]
    and [nmea_str] are always there, [nmea_str] is the two others put
    together, and [checksum] is two hexadecimal digits when it is there. *)
Lemma sentence_re_groups line m :
  re_match (sentence_re rt) line = Some m ->
  exists id d,
    m !! "sentence_type"%string = Some id /\ m !! "data"%string = Some d /\
    m !! "nmea_str"%string = Some (id ++ d) /\
    match m !! "checksum"%string with
    | Some h => exists h1 h2, h = [h1; h2] /\ is_hex_i h1 = true /\ is_hex_i h2 = true
    | None => True
    end.
Proof.
  rewrite re_match_sentence_re. intros H.
  apply star_some_inv in H as (ws & s & _ & _ & H).
  assert (exists b, scan_body rt b = Some m) as [b Hb].
  { unfold scan_line in H. destruct s as [|c s]; [done|].
    destruct (is_char "$" c); eauto. }
  apply scan_body_inv in Hb as (n & scan & id & r & d & cs & Hn & _ & Hr & ->).
  destruct (match_groups_lookup n scan id d cs Hn) as (H1 & H2 & H3 & H4).
  exists id, d. rewrite H1, H2, H3, H4. repeat split; try done.
  by eapply scan_rest_checksum.
Qed.

End Groups.

(** ** The three identifier patterns of the dispatcher *)

Section Identifiers.

Context (rt : runtime).

(** [talker_re]: five word characters and a comma; [$] lets a final
    newline pass. *)
Lemma talker_re_inv s tm :
  re_match (talker_re rt) s = Some tm ->
  exists c1 c2 c3 c4 c5 z,
    s = [c1; c2; c3; c4; c5; ord ","] ++ z /\ at_end z = true /\
    forallb (is_word rt) [c1; c2; c3; c4; c5] = true /\
    tm !! "talker"%string = Some [c1; c2] /\
    tm !! "sentence"%string = Some [c3; c4; c5].
Proof.
  unfold re_match, talker_re, w. cbn [exec times].
  destruct s as [|c1 [|c2 [|c3 [|c4 [|c5 [|c6 z]]]]]]; try done;
    cbn -[N.eqb ord consumed at_end]; split_guards.
  unfold is_char in *.
  repeat match goal with H : N.eqb _ _ = true |- _ => apply N.eqb_eq in H as -> end.
  intros Hm. apply (inj Some) in Hm. subst. exists c1, c2, c3, c4, c5, z. cbn -[N.eqb ord consumed at_end].
  repeat match goal with H : is_word rt _ = true |- _ => rewrite H; clear H end.
  repeat split; try done.
  - rewrite lookup_insert_ne by done. rewrite lookup_insert_eq. f_equal.
    apply (consumed_app [c1; c2]).
  - rewrite lookup_insert_eq. f_equal. apply (consumed_app [c3; c4; c5]).
Qed.

Lemma talker_re_intro c1 c2 c3 c4 c5 :
  forallb (is_word rt) [c1; c2; c3; c4; c5] = true ->
  re_match (talker_re rt) [c1; c2; c3; c4; c5; ord ","]
  = Some (<["sentence"%string := [c3; c4; c5]]> (<["talker"%string := [c1; c2]]> ∅)).
Proof.
  cbn [forallb]. rewrite !andb_true_iff. intros (H1 & H2 & H3 & H4 & H5 & _).
  unfold re_match, talker_re, w. cbn -[N.eqb ord consumed at_end]. by rewrite H1, H2, H3, H4, H5.
Qed.

Lemma query_re_inv s qm :
  re_match (query_re rt) s = Some qm ->
  exists c1 c2 c3 c4 c5 c6 c7 z,
    s = [c1; c2; c3; c4; ord "Q"; ord ","; c5; c6; c7] ++ z /\ at_end z = true /\
    forallb (is_word rt) [c1; c2; c3; c4; c5; c6; c7] = true /\
    qm !! "talker"%string = Some [c1; c2] /\
    qm !! "listener"%string = Some [c3; c4] /\
    qm !! "sentence"%string = Some [c5; c6; c7].
Proof.
  unfold re_match, query_re, w. cbn [exec times].
  destruct s as [|c1 [|c2 [|c3 [|c4 [|q [|k [|c5 [|c6 [|c7 z]]]]]]]]]; try done;
    cbn -[N.eqb ord consumed at_end]; split_guards.
  unfold is_char in *.
  repeat match goal with H : N.eqb _ _ = true |- _ => apply N.eqb_eq in H as -> end.
  intros Hm. apply (inj Some) in Hm. subst. exists c1, c2, c3, c4, c5, c6, c7, z. cbn -[N.eqb ord consumed at_end].
  repeat match goal with H : is_word rt _ = true |- _ => rewrite H; clear H end.
  repeat split; try done.
  - rewrite !lookup_insert_ne by done. rewrite lookup_insert_eq. f_equal.
    apply (consumed_app [c1; c2]).
  - rewrite lookup_insert_ne by done. rewrite lookup_insert_eq. f_equal.
    apply (consumed_app [c3; c4]).
  - rewrite lookup_insert_eq. f_equal. apply (consumed_app [c5; c6; c7]).
Qed.

Lemma proprietary_re_inv s pm :
  re_match (proprietary_re rt) s = Some pm ->
  exists c1 c2 c3 z,
    s = [ord "P"; c1; c2; c3] ++ z /\ at_end z = true /\
    forallb (is_word rt) [c1; c2; c3] = true /\
    pm !! "manufacturer"%string = Some [c1; c2; c3].
Proof.
  unfold re_match, proprietary_re, w. cbn [exec times].
  destruct s as [|p [|c1 [|c2 [|c3 z]]]]; try done;
    cbn -[N.eqb ord consumed at_end]; split_guards.
  unfold is_char in *.
  repeat match goal with H : N.eqb _ _ = true |- _ => apply N.eqb_eq in H as -> end.
  intros Hm. apply (inj Some) in Hm. subst. exists c1, c2, c3, z. cbn -[N.eqb ord consumed at_end].
  repeat match goal with H : is_word rt _ = true |- _ => rewrite H; clear H end.
  repeat split; try done.
  rewrite lookup_insert_eq. f_equal. apply (consumed_app [c1; c2; c3]).
Qed.

Lemma at_end_length z : at_end z = true -> (length z <= 1)%nat.
Proof. destruct z as [|? [|]]; simpl; (done || lia). Qed.

(** The three patterns accept strings of different lengths, so at most one
    of them matches. *)
Lemma talker_re_length s tm :
  re_match (talker_re rt) s = Some tm -> (6 <= length s <= 7)%nat.
Proof.
  intros (c1 & c2 & c3 & c4 & c5 & z & -> & Hz%at_end_length & _)%talker_re_inv.
  rewrite length_app. simpl. lia.
Qed.

Lemma query_re_length s qm :
  re_match (query_re rt) s = Some qm -> (9 <= length s <= 10)%nat.
Proof.
  intros (c1 & c2 & c3 & c4 & c5 & c6 & c7 & z & -> & Hz%at_end_length & _)%query_re_inv.
  rewrite length_app. simpl. lia.
Qed.

Lemma proprietary_re_length s pm :
  re_match (proprietary_re rt) s = Some pm -> (4 <= length s <= 5)%nat.
Proof.
  intros (c1 & c2 & c3 & z & -> & Hz%at_end_length & _)%proprietary_re_inv.
  rewrite length_app. simpl. lia.
Qed.

End Identifiers.

(** ** The checksum *)

Lemma fold_left_lxor a s : fold_left N.lxor s a = N.lxor a (xor_reduction s).
Proof.
  revert a. induction s as [|c s IH]; intros a; simpl.
  - by rewrite N.lxor_0_r.
  - by rewrite IH, N.lxor_assoc.
Qed.

Lemma xor_reduction_testbit s i :
  N.testbit (xor_reduction s) i = Nat.odd (count_bit i s).
Proof.
  unfold count_bit. induction s as [|c s IH]; simpl; [done|].
  rewrite N.lxor_spec, IH, filter_cons.
  destruct (decide (N.testbit c i = true)) as [->|Hc].
  - simpl length. rewrite Nat.odd_succ, <- Nat.negb_odd. by destruct (Nat.odd _).
  - apply not_true_is_false in Hc. rewrite Hc. by destruct (Nat.odd _).
Qed.

Lemma lxor_8bit a b : a < 0x100 -> b < 0x100 -> N.lxor a b < 0x100.
Proof.
  intros Ha Hb. destruct (N.eq_dec (N.lxor a b) 0) as [->|Hne]; [done|].
  change 0x100 with (2 ^ 8) in *. apply N.log2_lt_pow2; [lia|].
  pose proof (N.log2_lxor a b) as Hmax.
  assert (forall x, x < 2 ^ 8 -> N.log2 x < 8) as Hlog.
  { intros x Hx. destruct (N.eq_dec x 0) as [->|]; [done|].
    apply N.log2_lt_pow2; lia. }
  specialize (Hlog a Ha) as Hla. specialize (Hlog b Hb) as Hlb. lia.
Qed.

(** On a string of 8-bit characters the checksum is an 8-bit number, which
    ['%02X'] prints as two digits. *)
Lemma checksum_8bit s :
  forallb (fun c => c <? 0x100) s = true -> checksum s < 0x100.
Proof.
  unfold checksum. rewrite fold_left_lxor, N.lxor_0_l.
  induction s as [|c s IH]; simpl; [done|].
  intros [Hc Hs]%andb_true_iff. apply N.ltb_lt in Hc. apply lxor_8bit; auto.
Qed.

(** C2.  [checksum] is the exclusive-or reduction of the character codes of
    its argument: it agrees with the reduction written as the specification
    words it; bit by bit, a bit of the result is set exactly when an odd
    number of characters have it set; and on the sample sentence of the
    specification it is 0x6D. *)
Theorem checksum_xor_reduction :
  (forall s : str, checksum s = xor_reduction s) /\
  (forall (s : str) (i : N), N.testbit (checksum s) i = Nat.odd (count_bit i s)) /\
  checksum (py "GPGGA,184353.07,1929.045,S,02410.506,E,1,04,2.6,100.00,M,-33.9,M,,0000")
  = 0x6D.
Proof.
  assert (forall s : str, checksum s = xor_reduction s) as H.
  { intros s. unfold checksum. by rewrite fold_left_lxor, N.lxor_0_l. }
  split; [done|]. split; [|reflexivity].
  intros s i. rewrite H. apply xor_reduction_testbit.
Qed.

(** ** Results *)

Lemma bind_Ok {A B} (x : result A) (f : A -> result B) b :
  bind x f = Ok b -> exists a, x = Ok a /\ f a = Ok b.
Proof. destruct x as [a|e]; simpl; [eauto|done]. Qed.

Lemma bind_Raise {A B} (x : result A) (f : A -> result B) e :
  bind x f = Raise e -> x = Raise e \/ exists a, x = Ok a /\ f a = Raise e.
Proof. destruct x as [a|e']; simpl; [eauto|]. intros [= ->]. by left. Qed.

Lemma never_Ok {A} c (a : A) : never c (Ok a).
Proof. by intros e. Qed.

Lemma never_bind {A B} c (x : result A) (f : A -> result B) :
  never c x -> (forall a, never c (f a)) -> never c (bind x f).
Proof.
  intros Hx Hf e [H|(a & _ & H)]%bind_Raise; [by apply Hx|by eapply Hf].
Qed.

Lemma never_builtin {A} c c' msg : c' <> c -> never c (@builtin_error A c' msg).
Proof. intros H e [= <-]. done. Qed.

Section Dispatcher.

Context (rt : runtime).

Lemma never_getattr c self name : AttributeError <> c -> never c (getattr self name).
Proof.
  intros H e. unfold getattr. destruct (_ !! _); [done|]. by intros [= <-].
Qed.

Lemma never_setitem c d i x :
  IndexError <> c -> TypeError <> c -> never c (setitem d i x).
Proof.
  intros H1 H2. unfold setitem. destruct d; try by apply never_builtin.
  case_bool_decide; [apply never_Ok|by apply never_builtin].
Qed.

Lemma never_setattr c self name v :
  attribute_errors c -> never c (setattr rt self name v).
Proof.
  intros (H1 & H2 & H3). unfold setattr. destruct (_ !! _); [|apply never_Ok].
  apply never_bind; [by apply never_getattr|]. intros d.
  apply never_bind; [by apply never_setitem|]. intros d'. apply never_Ok.
Qed.

Lemma never_TalkerSentence_init c cls t s d kw :
  attribute_errors c -> never c (TalkerSentence_init rt cls t s d kw).
Proof.
  intros H. unfold TalkerSentence_init.
  repeat (apply never_bind; [by apply never_setattr|]; intros ?).
  by apply never_setattr.
Qed.

Lemma never_QuerySentence_init c cls t l s :
  attribute_errors c -> never c (QuerySentence_init rt cls t l s).
Proof.
  intros H. unfold QuerySentence_init.
  repeat (apply never_bind; [by apply never_setattr|]; intros ?).
  by apply never_setattr.
Qed.

Lemma never_ProprietarySentence_init c cls m d :
  attribute_errors c -> never c (ProprietarySentence_init rt cls m d).
Proof.
  intros H. unfold ProprietarySentence_init.
  repeat (apply never_bind; [by apply never_setattr|]; intros ?).
  by apply never_setattr.
Qed.

Lemma never_group c m name : AttributeError <> c -> never c (group m name).
Proof. intros H. unfold group. destruct (_ !! _); [apply never_Ok|by apply never_builtin]. Qed.

Lemma never_fields_of c cls : AttributeError <> c -> never c (fields_of cls).
Proof. intros H. destruct cls; [apply never_Ok|by apply never_builtin]. Qed.

Lemma never_parse_talker c reg line st d gsv grs tm :
  attribute_errors c -> SentenceTypeError <> c ->
  never c (parse_talker rt reg line st d gsv grs tm).
Proof.
  intros H Hs. pose proof H as (H1 & H2 & H3). unfold parse_talker.
  apply never_bind; [by apply never_group|]; intros t.
  apply never_bind; [by apply never_group|]; intros s.
  apply never_bind.
  { destruct (_ && _); [|apply never_Ok].
    apply never_bind; [by apply never_fields_of|]. intros; apply never_Ok. }
  intros kw. apply never_bind.
  { destruct (_ && _); [|apply never_Ok].
    apply never_bind; [by apply never_fields_of|]. intros; apply never_Ok. }
  intros kw'. destruct (_ !! _).
  - by apply never_TalkerSentence_init.
  - intros e [= <-]. done.
Qed.

Lemma never_parse_by_shape_no_talker c reg line st ds d gsv grs :
  attribute_errors c -> ParseError <> c ->
  re_match (talker_re rt) st = None ->
  never c (parse_by_shape rt reg line st ds d gsv grs).
Proof.
  intros H Hp Ht. pose proof H as (H1 & H2 & H3). unfold parse_by_shape. rewrite Ht.
  assert (never c
    match re_match (proprietary_re rt) st with
    | Some proprietary_match =>
        manufacturer <- group proprietary_match "manufacturer";;
        let cls := default ProprietarySentence (proprietary_types reg !! manufacturer) in
        ProprietarySentence_init rt cls manufacturer d
    | None =>
        raise_parse_error ParseError
          (py "could not parse sentence type: " ++ py_repr rt st) (VStr line)
    end) as Hprop.
  { destruct (re_match (proprietary_re rt) st).
    - apply never_bind; [by apply never_group|]. intros m.
      by apply never_ProprietarySentence_init.
    - intros e [= <-]. done. }
  destruct (re_match (query_re rt) st); [|done].
  destruct ds; [|done].
  repeat (apply never_bind; [by apply never_group|]; intros ?).
  by apply never_QuerySentence_init.
Qed.

Lemma never_parse_by_shape c reg line st ds d gsv grs :
  attribute_errors c -> SentenceTypeError <> c -> ParseError <> c ->
  never c (parse_by_shape rt reg line st ds d gsv grs).
Proof.
  intros H Hs Hp. destruct (re_match (talker_re rt) st) eqn:Ht.
  - unfold parse_by_shape. rewrite Ht. by apply never_parse_talker.
  - by apply never_parse_by_shape_no_talker.
Qed.

Lemma never_check_checksum c m nmea data check :
  ValueError <> c -> ChecksumError <> c -> never c (check_checksum m nmea data check).
Proof.
  intros Hv Hc. unfold check_checksum.
  assert (never c (if check
                   then raise_parse_error (A:=unit) ChecksumError
                          (py "strict checking requested but checksum missing") (VStrs data)
                   else Ok tt)) as Hmissing.
  { destruct check; [|apply never_Ok]. by intros e [= <-]. }
  destruct (m !! "checksum"%string) as [[|h hs]|]; try done.
  destruct (int16 _); [|by apply never_builtin].
  destruct (_ && _); [|apply never_Ok]. by intros e [= <-].
Qed.

(** [parse] after a match of [sentence_re], with the groups read. *)
Lemma parse_matched reg line check gsv grs m id d :
  re_match (sentence_re rt) line = Some m ->
  m !! "sentence_type"%string = Some id -> m !! "data"%string = Some d ->
  parse rt reg line check gsv grs
  = (_ <- check_checksum m (id ++ d) (split (ord ",") d) check;;
     parse_by_shape rt reg line (upper rt id) d (split (ord ",") d) gsv grs).
Proof.
  intros Hm Hid Hd. unfold parse. rewrite Hm.
  destruct (sentence_re_groups rt line m Hm) as (id' & d' & Hid' & Hd' & Hn & _).
  rewrite Hid in Hid'. rewrite Hd in Hd'. injection Hid' as <-. injection Hd' as <-.
  unfold group. by rewrite Hn, Hd, Hid.
Qed.

Lemma int16_hex_pair h1 h2 :
  is_hex_i h1 = true -> is_hex_i h2 = true -> exists n, int16 [h1; h2] = Some n.
Proof.
  assert (forall h, is_hex_i h = true -> exists v, hex_value h = Some v) as H.
  { intros h. unfold is_hex_i, hex_value, between.
    repeat (destruct (_ && _); [by eauto|]). done. }
  intros (v1 & E1)%H (v2 & E2)%H. unfold int16, int16_aux. rewrite E1, E2. eauto.
Qed.

(** The checksum test of a match, case by case. *)
Lemma check_checksum_cases line m nmea data check :
  re_match (sentence_re rt) line = Some m ->
  match m !! "checksum"%string with
  | Some h =>
      exists cs1, int16 h = Some cs1 /\
        if negb (cs1 =? checksum nmea) && check
        then raises (check_checksum m nmea data check) ChecksumError
        else check_checksum m nmea data check = Ok tt
  | None =>
      if check then raises (check_checksum m nmea data check) ChecksumError
      else check_checksum m nmea data check = Ok tt
  end.
Proof.
  intros Hm. destruct (sentence_re_groups rt line m Hm) as (_ & _ & _ & _ & _ & Hcs).
  unfold check_checksum. destruct (m !! "checksum"%string) as [h|].
  - destruct Hcs as (h1 & h2 & -> & Hh1 & Hh2).
    destruct (int16_hex_pair h1 h2 Hh1 Hh2) as (cs1 & E). exists cs1. split; [done|].
    rewrite E. destruct (_ && _); [|done]. by eexists.
  - destruct check; [|done]. by eexists.
Qed.

Lemma check_checksum_passes line m id d data check :
  re_match (sentence_re rt) line = Some m ->
  m !! "sentence_type"%string = Some id -> m !! "data"%string = Some d ->
  checksum_passes m check ->
  check_checksum m (id ++ d) data check = Ok tt.
Proof.
  intros Hm Hid Hd Hpass.
  destruct (sentence_re_groups rt line m Hm) as (id' & d' & Hid' & Hd' & Hn & _).
  rewrite Hid in Hid'. rewrite Hd in Hd'. injection Hid' as <-. injection Hd' as <-.
  pose proof (check_checksum_cases line m (id ++ d) data check Hm) as H.
  destruct Hpass as [->|(h & nmea & Hh & Hnmea & Hint)].
  - destruct (m !! "checksum"%string); [|done].
    destruct H as (cs1 & _ & H). by rewrite andb_false_r in H.
  - rewrite Hh in H. destruct H as (cs1 & E & H).
    rewrite Hn in Hnmea. injection Hnmea as <-.
    rewrite Hint in E. injection E as <-. by rewrite N.eqb_refl in H.
Qed.

End Dispatcher.

(** C3.  The strict checksum semantics of [parse].  For every line
    [sentence_re] matches: with [check] and a suffix whose value differs from
    the checksum of the message (the type identifier and the data), [parse]
    raises ChecksumError; with [check] and no suffix, [parse] raises
    ChecksumError; without [check], [parse] raises no ChecksumError, whatever
    the suffix. *)
Theorem parse_checksum_strictness rt reg line check gsv grs m :
  re_match (sentence_re rt) line = Some m ->
  (forall h nmea_str,
     m !! "checksum"%string = Some h -> m !! "nmea_str"%string = Some nmea_str ->
     check = true -> int16 h <> Some (checksum nmea_str) ->
     raises (parse rt reg line check gsv grs) ChecksumError) /\
  (m !! "checksum"%string = None -> check = true ->
     raises (parse rt reg line check gsv grs) ChecksumError) /\
  (check = false -> never ChecksumError (parse rt reg line check gsv grs)).
Proof.
  intros Hm.
  destruct (sentence_re_groups rt line m Hm) as (id & d & Hid & Hd & Hn & _).
  rewrite (parse_matched rt reg line check gsv grs m id d Hm Hid Hd).
  pose proof (check_checksum_cases rt line m (id ++ d) (split (ord ",") d) check Hm) as H.
  repeat split.
  - intros h nmea Hh Hnmea -> Hne. rewrite Hh in H. destruct H as (cs1 & E & H).
    rewrite Hn in Hnmea. injection Hnmea as <-.
    destruct (N.eqb_spec cs1 (checksum (id ++ d))) as [->|_]; [done|].
    simpl in H. destruct H as (e & -> & He). by exists e.
  - intros Hnone ->. rewrite Hnone in H. destruct H as (e & -> & He). by exists e.
  - intros ->. apply never_bind.
    + destruct (m !! "checksum"%string).
      * destruct H as (cs1 & _ & H). rewrite andb_false_r in H. rewrite H. apply never_Ok.
      * rewrite H. apply never_Ok.
    + intros _. by apply never_parse_by_shape.
Qed.

Lemma parse_checksum_strictness_witness :
  raises (parse sample_runtime sample_registry
            (py "$GPGGA,184353.07,1929.045,S,02410.506,E,1,04,2.6,100.00,M,-33.9,M,,0000*00")
            true false false) ChecksumError /\
  raises (parse sample_runtime sample_registry
            (py "$GPGGA,184353.07,1929.045,S,02410.506,E,1,04,2.6,100.00,M,-33.9,M,,0000")
            true false false) ChecksumError /\
  never ChecksumError
    (parse sample_runtime sample_registry
       (py "$GPGGA,184353.07,1929.045,S,02410.506,E,1,04,2.6,100.00,M,-33.9,M,,0000*00")
       false false false).
Proof.
  pose (d := py "184353.07,1929.045,S,02410.506,E,1,04,2.6,100.00,M,-33.9,M,,0000").
  split; [|split].
  - apply (proj1 (parse_checksum_strictness sample_runtime sample_registry
             (py "$GPGGA,184353.07,1929.045,S,02410.506,E,1,04,2.6,100.00,M,-33.9,M,,0000*00")
             true false false (match_groups "5" (py "GPGGA,") d (Some (py "00")))
             ltac:(vm_compute; reflexivity)) (py "00") (py "GPGGA," ++ d)).
    + vm_compute. reflexivity.
    + vm_compute. reflexivity.
    + reflexivity.
    + vm_compute. discriminate.
  - apply (proj1 (proj2 (parse_checksum_strictness sample_runtime sample_registry
             (py "$GPGGA,184353.07,1929.045,S,02410.506,E,1,04,2.6,100.00,M,-33.9,M,,0000")
             true false false (match_groups "5" (py "GPGGA,") d None)
             ltac:(vm_compute; reflexivity)))).
    + vm_compute. reflexivity.
    + reflexivity.
  - apply (proj2 (proj2 (parse_checksum_strictness sample_runtime sample_registry
             (py "$GPGGA,184353.07,1929.045,S,02410.506,E,1,04,2.6,100.00,M,-33.9,M,,0000*00")
             false false false (match_groups "5" (py "GPGGA,") d (Some (py "00")))
             ltac:(vm_compute; reflexivity)))).
    reflexivity.
Defined.

(** ** Construction *)

Section Construction.

Context (rt : runtime).

Lemma setattr_plain self name v :
  name_to_idx (type_of self) !! name = None ->
  setattr rt self name v
  = Ok {| type_of := type_of self; attrs := <[name := v]> (attrs self);
          init_kwargs := init_kwargs self |}.
Proof. intros H. unfold setattr. by rewrite H. Qed.

Lemma TalkerSentence_init_plain cls t s d kw :
  plain_schema cls ->
  TalkerSentence_init rt cls t s d kw = Ok (talker_object cls t s d kw).
Proof.
  intros (H1 & H2 & H3). unfold TalkerSentence_init.
  rewrite setattr_plain by done. cbn [bind].
  rewrite setattr_plain by done. cbn [bind].
  by rewrite setattr_plain by done.
Qed.

(** A field name that shadows one of the constructor's attributes makes the
    constructor fail: there is no [data] yet to write the field to. *)
Lemma setattr_no_data self name v self' :
  attrs self !! py "data" = None ->
  setattr rt self name v = Ok self' ->
  name_to_idx (type_of self) !! name = None /\
  self' = {| type_of := type_of self; attrs := <[name := v]> (attrs self);
             init_kwargs := init_kwargs self |}.
Proof.
  intros Hd. unfold setattr. destruct (_ !! name).
  - unfold getattr. by rewrite Hd.
  - by intros [= <-].
Qed.

Lemma TalkerSentence_init_Ok cls t s d kw self :
  TalkerSentence_init rt cls t s d kw = Ok self ->
  plain_schema cls /\ self = talker_object cls t s d kw.
Proof.
  unfold TalkerSentence_init.
  intros (s1 & H1 & (s2 & H2 & H3)%bind_Ok)%bind_Ok.
  apply setattr_no_data in H1 as [N1 ->]; [|done].
  apply setattr_no_data in H2 as [N2 ->]; [|done].
  apply setattr_no_data in H3 as [N3 ->]; [|done].
  done.
Qed.

Lemma QuerySentence_init_generic t l s :
  QuerySentence_init rt QuerySentence t l s = Ok (query_object t l s).
Proof. reflexivity. Qed.

Lemma ProprietarySentence_init_generic m d :
  ProprietarySentence_init rt ProprietarySentence m d = Ok (proprietary_object m d).
Proof. reflexivity. Qed.

Lemma split_length sep s : (1 <= length (split sep s))%nat.
Proof.
  induction s as [|c s IH]; simpl; [lia|].
  destruct (c =? sep); simpl; [lia|]. destruct (split sep s); simpl in *; lia.
Qed.

Lemma slice_to_split {A} sep s (t : list A) :
  slice_to (Z.of_nat (length (split sep s)) - 1) t
  = take (length (split sep s) - 1) t.
Proof.
  pose proof (split_length sep s). unfold slice_to.
  destruct (Z.ltb_spec (Z.of_nat (length (split sep s)) - 1) 0); [lia|].
  f_equal. lia.
Qed.

End Construction.

(** ** The talker branch *)

Section Talker.

Context (rt : runtime).

Lemma parse_talker_registered reg line st d gsv grs tm talker sentence cls :
  tm !! "talker"%string = Some talker -> tm !! "sentence"%string = Some sentence ->
  talker_types reg !! sentence = Some cls ->
  parse_talker rt reg line st (split (ord ",") d) gsv grs tm
  = TalkerSentence_init rt cls talker sentence (split (ord ",") d)
      (schema_kwargs cls sentence (split (ord ",") d) gsv grs).
Proof.
  intros Ht Hs Hcls. unfold parse_talker, group, schema_kwargs.
  rewrite Ht. cbn [bind]. rewrite Hs. cbn [bind]. rewrite Hcls. cbn [bind fields_of].
  rewrite slice_to_split.
  destruct (bool_decide (sentence = py "GSV") && gsv);
    destruct (bool_decide (sentence = py "GRS") && grs); done.
Qed.

Lemma parse_talker_unregistered reg line st data gsv grs tm talker sentence :
  tm !! "talker"%string = Some talker -> tm !! "sentence"%string = Some sentence ->
  talker_types reg !! sentence = None ->
  parse_talker rt reg line st data gsv grs tm
  = if (bool_decide (sentence = py "GSV") && gsv)
       || (bool_decide (sentence = py "GRS") && grs)
    then builtin_error AttributeError "'NoneType' object has no attribute 'fields'"
    else raise_parse_error SentenceTypeError
           (py "Unknown sentence type " ++ st) (VStr line).
Proof.
  intros Ht Hs Hcls. unfold parse_talker, group.
  rewrite Ht. cbn [bind]. rewrite Hs. cbn [bind]. rewrite Hcls. cbn [bind fields_of].
  destruct (bool_decide (sentence = py "GSV") && gsv);
    destruct (bool_decide (sentence = py "GRS") && grs); done.
Qed.

End Talker.

(** X1.  Unregistered talker codes.  For every line of the talker shape whose
    code is not in the talker registry and that passes the checksum test,
    [parse] raises SentenceTypeError with the line, unless the code is GSV
    and [GSV_signal_id] is set or the code is GRS and [GRS_ids] is set: then
    it reads [fields] of the missing type and raises AttributeError. *)
Theorem parse_unregistered_talker rt reg line check gsv grs m id d tm sentence :
  re_match (sentence_re rt) line = Some m ->
  m !! "sentence_type"%string = Some id -> m !! "data"%string = Some d ->
  checksum_passes m check ->
  re_match (talker_re rt) (upper rt id) = Some tm ->
  tm !! "sentence"%string = Some sentence ->
  talker_types reg !! sentence = None ->
  if (bool_decide (sentence = py "GSV") && gsv)
     || (bool_decide (sentence = py "GRS") && grs)
  then raises (parse rt reg line check gsv grs) AttributeError
  else exists msg,
         parse rt reg line check gsv grs
         = Raise {| exn_type := SentenceTypeError; exn_message := msg;
                    exn_data := VStr line |}.
Proof.
  intros Hm Hid Hd Hpass Htm Hs Hreg.
  rewrite (parse_matched rt reg line check gsv grs m id d Hm Hid Hd).
  rewrite (check_checksum_passes rt line m id d _ check Hm Hid Hd Hpass). cbn [bind].
  unfold parse_by_shape. rewrite Htm.
  destruct (talker_re_inv rt _ _ Htm) as (c1 & c2 & c3 & c4 & c5 & z & _ & _ & _ & Ht & Hs').
  rewrite (parse_talker_unregistered rt reg line _ _ gsv grs tm _ _ Ht Hs Hreg).
  destruct (_ || _); by eexists.
Qed.

Lemma parse_unregistered_talker_witness :
  exists msg,
    parse sample_runtime sample_registry (py "$GPXXX,1,2,3*53") true true true
    = Raise {| exn_type := SentenceTypeError; exn_message := msg;
               exn_data := VStr (py "$GPXXX,1,2,3*53") |}.
Proof.
  apply (parse_unregistered_talker sample_runtime sample_registry
           (py "$GPXXX,1,2,3*53") true true true
           (match_groups "5" (py "GPXXX,") (py "1,2,3") (Some (py "53")))
           (py "GPXXX,") (py "1,2,3")
           (<["sentence"%string := py "XXX"]> (<["talker"%string := py "GP"]> ∅))
           (py "XXX")).
  - vm_compute. reflexivity.
  - vm_compute. reflexivity.
  - vm_compute. reflexivity.
  - right. exists (py "53"), (py "GPXXX,1,2,3"). repeat split; vm_compute; reflexivity.
  - vm_compute. reflexivity.
  - vm_compute. reflexivity.
  - vm_compute. reflexivity.
Defined.

(** C4.  With no type registered under GSV, as in the registries [nmea.py]
    itself leaves, [parse] of a GSV line with [GSV_signal_id] set does not
    raise SentenceTypeError: it raises AttributeError, on [cls.fields] of a
    [cls] that is [None].  So does a GRS line with [GRS_ids] set.  With the
    flags not set, the same lines raise SentenceTypeError with the line. *)
Theorem parse_unregistered_GSV_GRS rt :
  raises (parse rt empty_registry (py "$GPGSV,1") false true false) AttributeError /\
  raises (parse rt empty_registry (py "$GPGRS,1") false false true) AttributeError /\
  raises (parse rt empty_registry (py "$GPGSV,1") false false false) SentenceTypeError /\
  raises (parse rt empty_registry (py "$GPGRS,1") false false false) SentenceTypeError.
Proof.
  repeat split; eexists; (split; [vm_compute; reflexivity|reflexivity]).
Qed.

(** C7.  Neither the proprietary nor the query category raises
    SentenceTypeError.  For a line [sentence_re] matches and that passes the
    checksum test (every line does when [check] is false): if its type
    identifier has the proprietary shape and its manufacturer code is not
    registered, [parse] returns an object of the generic ProprietarySentence
    with the manufacturer code and the split data; if it has the query shape
    and the data is not empty, [parse] raises an exception whose class is
    ParseError itself, with the line.  And whatever [check], a line of either
    shape raises no SentenceTypeError. *)
Theorem parse_proprietary_and_query rt reg line check gsv grs m id d :
  re_match (sentence_re rt) line = Some m ->
  m !! "sentence_type"%string = Some id -> m !! "data"%string = Some d ->
  (forall pm manufacturer,
     checksum_passes m check ->
     re_match (proprietary_re rt) (upper rt id) = Some pm ->
     pm !! "manufacturer"%string = Some manufacturer ->
     proprietary_types reg !! manufacturer = None ->
     parse rt reg line check gsv grs
     = Ok (proprietary_object manufacturer (split (ord ",") d))) /\
  (forall qm,
     checksum_passes m check ->
     re_match (query_re rt) (upper rt id) = Some qm -> d <> [] ->
     exists msg,
       parse rt reg line check gsv grs
       = Raise {| exn_type := ParseError; exn_message := msg; exn_data := VStr line |}) /\
  (is_Some (re_match (proprietary_re rt) (upper rt id))
   \/ is_Some (re_match (query_re rt) (upper rt id)) ->
   never SentenceTypeError (parse rt reg line check gsv grs)).
Proof.
  intros Hm Hid Hd.
  rewrite (parse_matched rt reg line check gsv grs m id d Hm Hid Hd).
  repeat split.
  - intros pm manufacturer Hpass Hpm Hman Hreg.
    rewrite (check_checksum_passes rt line m id d _ check Hm Hid Hd Hpass). cbn [bind].
    unfold parse_by_shape.
    pose proof (proprietary_re_length rt _ _ Hpm) as Hlen.
    destruct (re_match (talker_re rt) (upper rt id)) eqn:Et.
    { apply talker_re_length in Et. lia. }
    destruct (re_match (query_re rt) (upper rt id)) eqn:Eq.
    { apply query_re_length in Eq. lia. }
    rewrite Hpm. unfold group. rewrite Hman. cbn [bind]. rewrite Hreg. done.
  - intros qm Hpass Hqm Hne.
    rewrite (check_checksum_passes rt line m id d _ check Hm Hid Hd Hpass). cbn [bind].
    unfold parse_by_shape.
    pose proof (query_re_length rt _ _ Hqm) as Hlen.
    destruct (re_match (talker_re rt) (upper rt id)) eqn:Et.
    { apply talker_re_length in Et. lia. }
    rewrite Hqm. destruct d as [|c d]; [done|].
    destruct (re_match (proprietary_re rt) (upper rt id)) eqn:Ep.
    { apply proprietary_re_length in Ep. lia. }
    by eexists.
  - intros Hshape. apply never_bind; [by apply never_check_checksum|]. intros _.
    apply never_parse_by_shape_no_talker; [done..|].
    destruct (re_match (talker_re rt) (upper rt id)) eqn:Et; [|done].
    apply talker_re_length in Et.
    destruct Hshape as [[pm Hpm]|[qm Hqm]].
    + apply proprietary_re_length in Hpm. lia.
    + apply query_re_length in Hqm. lia.
Qed.

Lemma parse_proprietary_and_query_witness :
  parse sample_runtime sample_registry (py "$PGRME,15.0,M,45.0,M,25.0,M*1C") true false false
  = Ok (proprietary_object (py "GRM") (split (ord ",") (py "E,15.0,M,45.0,M,25.0,M"))) /\
  (exists msg,
     parse sample_runtime sample_registry (py "$CCGPQ,GGA,1") false false false
     = Raise {| exn_type := ParseError; exn_message := msg;
                exn_data := VStr (py "$CCGPQ,GGA,1") |}) /\
  never SentenceTypeError
    (parse sample_runtime sample_registry (py "$CCGPQ,GGA,1") true false false).
Proof.
  split; [|split].
  - refine (proj1 (parse_proprietary_and_query sample_runtime sample_registry
             (py "$PGRME,15.0,M,45.0,M,25.0,M*1C") true false false
             (match_groups "3" (py "PGRM") (py "E,15.0,M,45.0,M,25.0,M") (Some (py "1C")))
             (py "PGRM") (py "E,15.0,M,45.0,M,25.0,M") _ _ _)
             (<["manufacturer"%string := py "GRM"]> ∅) (py "GRM") _ _ _ _);
      try (vm_compute; reflexivity).
    right. exists (py "1C"), (py "PGRME,15.0,M,45.0,M,25.0,M").
    repeat split; vm_compute; reflexivity.
  - refine (proj1 (proj2 (parse_proprietary_and_query sample_runtime sample_registry
             (py "$CCGPQ,GGA,1") false false false
             (match_groups "4" (py "CCGPQ,GGA") (py ",1") None)
             (py "CCGPQ,GGA") (py ",1") _ _ _))
             (<["sentence"%string := py "GGA"]>
                (<["listener"%string := py "GP"]> (<["talker"%string := py "CC"]> ∅)))
             _ _ _);
      try (vm_compute; reflexivity).
    + by left.
    + done.
  - refine (proj2 (proj2 (parse_proprietary_and_query sample_runtime sample_registry
             (py "$CCGPQ,GGA,1") true false false
             (match_groups "4" (py "CCGPQ,GGA") (py ",1") None)
             (py "CCGPQ,GGA") (py ",1") _ _ _)) _);
      try (vm_compute; reflexivity).
    right. eexists. vm_compute. reflexivity.
Defined.

(** C5.  [parse] of the query line "$CCGPQ,GGA" returns a QuerySentence with
    talker CC, listener GP and sentence code GGA.  Its text is not
    "$CCGPQ,GGA*" and a checksum: [identifier] ends in a comma, so the text
    is "$CCGPQ,GGA,*07", the checksum being that of "CCGPQ,GGA," -- a line
    [parse] itself rejects, its data being the comma and not empty. *)
Theorem query_sentence_text rt reg :
  parse rt reg (py "$CCGPQ,GGA") false false false
  = Ok (query_object (py "CC") (py "GP") (py "GGA")) /\
  type_of (query_object (py "CC") (py "GP") (py "GGA")) = QuerySentence /\
  to_str rt (query_object (py "CC") (py "GP") (py "GGA")) = Ok (py "$CCGPQ,GGA,*07") /\
  py "$CCGPQ,GGA*" ++ format_02X (checksum (py "CCGPQ,GGA")) = py "$CCGPQ,GGA*2B" /\
  raises (parse rt reg (py "$CCGPQ,GGA,*07") false false false) ParseError.
Proof.
  repeat split; try (vm_compute; reflexivity).
  eexists. split; [vm_compute; reflexivity|reflexivity].
Qed.

(** ** The anatomy of a matched line *)

Section Anatomy.

Context (rt : runtime).

Lemma scan_rest_inv r d cs :
  scan_rest rt r = Some (d, cs) ->
  forallb not_star d = true /\
  match cs with
  | None => r = d
  | Some h =>
      exists h1 h2 ws,
        h = [h1; h2] /\ r = d ++ ord "*" :: h1 :: h2 :: ws /\
        is_hex_i h1 = true /\ is_hex_i h2 = true /\ forallb (is_space rt) ws = true
  end.
Proof.
  unfold scan_rest.
  pose proof (span_app not_star r) as Happ.
  pose proof (span_forallb not_star r) as Hd.
  pose proof (span_rest not_star r) as Ht.
  destruct (span not_star r) as [d' t]. cbn [fst snd] in *.
  destruct t as [|c t]; cbn [scan_suffix mbind option_bind].
  - intros [= <- <-]. by rewrite app_nil_r in Happ.
  - unfold not_star in Ht. apply negb_false_iff in Ht. rewrite Ht.
    unfold is_char in Ht. apply N.eqb_eq in Ht as ->.
    destruct t as [|h1 [|h2 ws]]; try done.
    destruct (is_hex_i h1) eqn:E1; [|done]. destruct (is_hex_i h2) eqn:E2; [|done].
    destruct (forallb (is_space rt) ws) eqn:E3; [|done].
    cbn [andb mbind option_bind]. intros [= <- <-]. split; [done|].
    by exists h1, h2, ws.
Qed.

(** A type identifier holds no star. *)
Lemma is_word_not_star c : is_word rt c = true -> not_star c = true.
Proof.
  unfold not_star, is_char. destruct (N.eqb_spec c (ord "*")) as [->|]; [|done].
  by vm_compute.
Qed.

Lemma is_space_not_star c : is_space rt c = true -> not_star c = true.
Proof.
  unfold not_star, is_char. destruct (N.eqb_spec c (ord "*")) as [->|]; [|done].
  by vm_compute.
Qed.

Lemma is_char_i_not_star a c :
  is_char_i a (ord "*") = false -> is_char_i a c = true -> not_star c = true.
Proof.
  intros Ha. unfold not_star, is_char. destruct (N.eqb_spec c (ord "*")) as [->|]; [|done].
  by rewrite Ha.
Qed.

Lemma scan_id_not_star n scan s id r :
  (n, scan) ∈ alternatives rt -> scan s = Some (id, r) ->
  s = id ++ r /\ forallb not_star id = true.
Proof.
  unfold alternatives. intros Hn.
  assert (forall c, is_char "," c = true -> not_star c = true) as Hcomma.
  { intros c ->%N.eqb_eq. done. }
  pose proof is_word_not_star as Hw.
  pose proof (fun c => is_char_i_not_star "P" c eq_refl) as HP.
  pose proof (fun c => is_char_i_not_star "Q" c eq_refl) as HQ.
  repeat (apply elem_of_cons in Hn as [[= -> ->]|Hn]); [| | |by apply elem_of_nil in Hn].
  - unfold scan_proprietary. destruct s as [|c1 [|c2 [|c3 [|c4 s]]]]; try done.
    destruct (_ && _) eqn:E; [|done]. intros [= <- <-]. split; [done|].
    repeat match goal with
           | H : _ && _ = true |- _ => apply andb_true_iff in H as [? ?]
           end.
    cbn [forallb].
    rewrite (HP c1), !Hw by done. done.
  - unfold scan_query.
    destruct s as [|c1 [|c2 [|c3 [|c4 [|c5 [|c6 [|c7 [|c8 [|c9 s]]]]]]]]]; try done.
    destruct (_ && _) eqn:E; [|done]. intros [= <- <-]. split; [done|].
    repeat match goal with
           | H : _ && _ = true |- _ => apply andb_true_iff in H as [? ?]
           end.
    cbn [forallb].
    rewrite (HQ c5), (Hcomma c6), !Hw by done. done.
  - unfold scan_talker. destruct s as [|c1 [|c2 [|c3 [|c4 [|c5 [|c6 s]]]]]]; try done.
    destruct (_ && _) eqn:E; [|done]. intros [= <- <-]. split; [done|].
    repeat match goal with
           | H : _ && _ = true |- _ => apply andb_true_iff in H as [? ?]
           end.
    cbn [forallb].
    rewrite (Hcomma c6), !Hw by done. done.
Qed.

(** A matched line is blanks, an optional dollar, a type identifier by one
    of the three alternatives, and the rest. *)
Lemma sentence_re_anatomy line m :
  re_match (sentence_re rt) line = Some m ->
  exists ws dollar n scan id r d cs,
    line = ws ++ dollar ++ id ++ r /\
    forallb (is_space rt) ws = true /\ (dollar = [] \/ dollar = [ord "$"]) /\
    (n, scan) ∈ alternatives rt /\ scan (id ++ r) = Some (id, r) /\
    scan_body rt (id ++ r) = Some m /\
    scan_rest rt r = Some (d, cs) /\ m = match_groups n id d cs.
Proof.
  rewrite re_match_sentence_re. intros H.
  apply star_some_inv in H as (ws & s & -> & Hws & H).
  assert (exists dollar b, s = dollar ++ b /\ (dollar = [] \/ dollar = [ord "$"]) /\
            scan_body rt b = Some m) as (dollar & b & -> & Hdollar & Hb).
  { unfold scan_line in H. destruct s as [|c s]; [done|].
    destruct (is_char "$" c) eqn:E.
    - apply N.eqb_eq in E as ->. exists [ord "$"], s. eauto.
    - exists [], (c :: s). eauto. }
  pose proof Hb as Hb'.
  apply scan_body_inv in Hb as (n & scan & id & r & d & cs & Hn & Hscan & Hr & ->).
  destruct (scan_id_not_star n scan b id r Hn Hscan) as [-> _].
  by exists ws, dollar, n, scan, id, r, d, cs.
Qed.

Lemma only_star (a b a' b' : str) :
  a ++ ord "*" :: b = a' ++ ord "*" :: b' ->
  forallb not_star a = true -> forallb not_star b = true ->
  a = a' /\ b = b'.
Proof.
  revert a'. induction a as [|c a IH]; intros a' H Ha Hb.
  - destruct a' as [|c' a']; simpl in H.
    + by injection H as ->.
    + injection H as <- ->. rewrite forallb_app in Hb. simpl in Hb.
      by rewrite andb_false_r in Hb.
  - simpl in Ha. apply andb_true_iff in Ha as [Hc Ha].
    destruct a' as [|c' a']; simpl in H.
    + injection H as -> _. done.
    + injection H as <- H. by destruct (IH a' H Ha Hb) as [-> ->].
Qed.

End Anatomy.

(** C8.  The checksum suffix of the grammar is a star and two hexadecimal
    digits, a letter among them in either case: [sentence_re] is compiled
    with [re.IGNORECASE], so [[A-F0-9]] takes a to f as well.  In a line
    [sentence_re] matches, any star is followed by exactly two such digits
    and then blanks only, and the digits are the group [checksum]; a line with
    a star followed by anything else is not matched; and with no group
    [checksum] the line holds no star. *)
Theorem checksum_suffix_grammar rt line m :
  re_match (sentence_re rt) line = Some m ->
  (forall c, is_hex_i c = true <->
     ord "0" <= c <= ord "9" \/ ord "A" <= c <= ord "F" \/ ord "a" <= c <= ord "f") /\
  (forall pre t, line = pre ++ ord "*" :: t ->
     exists h1 h2 ws,
       t = h1 :: h2 :: ws /\ is_hex_i h1 = true /\ is_hex_i h2 = true /\
       forallb (is_space rt) ws = true /\ m !! "checksum"%string = Some [h1; h2]) /\
  (forall h, m !! "checksum"%string = Some h ->
     exists pre h1 h2 ws,
       h = [h1; h2] /\ line = pre ++ ord "*" :: h1 :: h2 :: ws /\
       is_hex_i h1 = true /\ is_hex_i h2 = true /\ forallb (is_space rt) ws = true) /\
  (m !! "checksum"%string = None -> forallb not_star line = true).
Proof.
  intros Hm. split.
  { intros c. unfold is_hex_i, between.
    rewrite !orb_true_iff, !andb_true_iff, !N.leb_le. tauto. }
  destruct (sentence_re_anatomy rt line m Hm)
    as (ws & dollar & n & scan & id & r & d & cs & -> & Hws & Hdollar & Hn & Hscan & _ & Hr & ->).
  destruct (match_groups_lookup rt n scan id d cs Hn) as (_ & _ & _ & Hcs).
  destruct (scan_id_not_star rt n scan _ id r Hn Hscan) as [_ Hid].
  destruct (scan_rest_inv rt r d cs Hr) as [Hd Hcs'].
  assert (forallb not_star (ws ++ dollar ++ id ++ d) = true) as Hpre.
  { rewrite !forallb_app, Hid, Hd, andb_true_r. apply andb_true_iff. split.
    - apply forallb_forall. intros c Hc. apply (is_space_not_star rt).
      by eapply forallb_forall in Hws.
    - by destruct Hdollar as [->| ->]. }
  rewrite Hcs. destruct cs as [h|].
  - destruct Hcs' as (h1 & h2 & ws' & -> & -> & Hh1 & Hh2 & Hws').
    assert (ws ++ dollar ++ id ++ d ++ ord "*" :: h1 :: h2 :: ws'
            = (ws ++ dollar ++ id ++ d) ++ ord "*" :: h1 :: h2 :: ws') as Hline.
    { by rewrite <- !app_assoc. }
    repeat split.
    + intros pre t Ht. rewrite Hline in Ht.
      assert (forallb not_star (h1 :: h2 :: ws') = true) as Htail.
      { cbn [forallb].
        assert (forall c, is_hex_i c = true -> not_star c = true) as Hhex.
        { intros c Hc. unfold not_star, is_char.
          destruct (N.eqb_spec c (ord "*")) as [->|]; done. }
        rewrite !Hhex by done. apply (forallb_space_no_star rt), Hws'. }
      apply only_star in Ht as [_ <-]; [|done..].
      by exists h1, h2, ws'.
    + intros h' [= <-]. exists (ws ++ dollar ++ id ++ d), h1, h2, ws'. by rewrite Hline.
    + done.
  - subst r. repeat split; try done.
    intros pre t Ht. exfalso.
    assert (forallb not_star (pre ++ ord "*" :: t) = true) as Hbad by by rewrite <- Ht.
    rewrite forallb_app in Hbad. simpl in Hbad. by rewrite andb_false_r in Hbad.
Qed.

Lemma checksum_suffix_grammar_witness :
  exists h1 h2 ws,
    py "6D  " = h1 :: h2 :: ws /\ is_hex_i h1 = true /\ is_hex_i h2 = true /\
    forallb (is_space sample_runtime) ws = true /\
    match_groups "5" (py "GPGGA,") (py "184353.07,1929.045,S") (Some (py "6D"))
      !! "checksum"%string = Some [h1; h2].
Proof.
  apply (proj1 (proj2 (checksum_suffix_grammar sample_runtime
           (py "$GPGGA,184353.07,1929.045,S*6D  ")
           (match_groups "5" (py "GPGGA,") (py "184353.07,1929.045,S") (Some (py "6D")))
           ltac:(vm_compute; reflexivity)))
         (py "$GPGGA,184353.07,1929.045,S") (py "6D  ")).
  vm_compute. reflexivity.
Defined.

(** Counterexample to C8 as the specification words it: a suffix in lower
    case is matched as a checksum, and checked like any other. *)
Lemma lower_case_checksum_suffix_matches :
  (exists m,
     re_match (sentence_re sample_runtime) (py "$GPGGA,184353.07*6d") = Some m /\
     m !! "checksum"%string = Some (py "6d")) /\
  (exists self,
     parse sample_runtime sample_registry
       (py "$GPGGA,184353.07,1929.045,S,02410.506,E,1,04,2.6,100.00,M,-33.9,M,,0000*6d")
       true false false = Ok self).
Proof.
  split.
  - eexists. split; vm_compute; reflexivity.
  - eexists. vm_compute. reflexivity.
Qed.

(** C9.  The frame of a field write.  For a name of the type's
    [name_to_idx] whose index is within the data, [__setattr__] succeeds and
    puts the stringified value at that index of [data]: every other position,
    the number of fields, every other attribute and the type are as before.
    For a name that is not in [name_to_idx] and is not [data], it succeeds and
    sets the attribute, and [data] and every other attribute are as before. *)
Theorem setattr_frame rt self name v :
  (forall i d,
     name_to_idx (type_of self) !! name = Some i ->
     attrs self !! py "data" = Some (VStrs d) -> (i < length d)%nat ->
     exists self' d',
       setattr rt self name v = Ok self' /\
       attrs self' !! py "data" = Some (VStrs d') /\
       d' !! i = Some (py_str rt v) /\
       (forall j, j <> i -> d' !! j = d !! j) /\
       length d' = length d /\
       (forall a, a <> py "data" -> attrs self' !! a = attrs self !! a) /\
       type_of self' = type_of self) /\
  (name_to_idx (type_of self) !! name = None -> name <> py "data" ->
     exists self',
       setattr rt self name v = Ok self' /\
       attrs self' !! name = Some v /\
       attrs self' !! py "data" = attrs self !! py "data" /\
       (forall a, a <> name -> attrs self' !! a = attrs self !! a) /\
       type_of self' = type_of self).
Proof.
  split.
  - intros i d Hi Hd Hlt. unfold setattr, getattr, setitem. rewrite Hi, Hd. cbn [bind].
    rewrite bool_decide_eq_true_2 by done. cbn [bind].
    eexists _, (<[i := py_str rt v]> d). split; [done|]. cbn [attrs type_of].
    repeat split.
    + by rewrite lookup_insert_eq.
    + by apply list_lookup_insert_eq.
    + intros j Hj. by apply list_lookup_insert_ne.
    + apply length_insert.
    + intros a Ha. by rewrite lookup_insert_ne.
  - intros Hnone Hname. rewrite setattr_plain by done.
    eexists. split; [done|]. cbn [attrs type_of]. repeat split.
    + by rewrite lookup_insert_eq.
    + by rewrite lookup_insert_ne.
    + intros a Ha. by rewrite lookup_insert_ne.
Qed.

Lemma setattr_frame_witness :
  (exists self' d',
     setattr sample_runtime
       (talker_object GGA (py "GP") (py "GGA") [py "184353.07"; py "1929.045"; py "S"] ∅)
       (py "lat") (VInt 1930) = Ok self' /\
     attrs self' !! py "data" = Some (VStrs d') /\
     d' !! 1%nat = Some (py "1930")) /\
  (exists self',
     setattr sample_runtime
       (talker_object GGA (py "GP") (py "GGA") [py "184353.07"; py "1929.045"; py "S"] ∅)
       (py "talker") (VStr (py "GN")) = Ok self' /\
     attrs self' !! py "talker" = Some (VStr (py "GN")) /\
     attrs self' !! py "data"
     = Some (VStrs [py "184353.07"; py "1929.045"; py "S"])).
Proof.
  pose (self := talker_object GGA (py "GP") (py "GGA")
                  [py "184353.07"; py "1929.045"; py "S"] ∅).
  split.
  - destruct (proj1 (setattr_frame sample_runtime self (py "lat") (VInt 1930))
                1%nat [py "184353.07"; py "1929.045"; py "S"])
      as (self' & d' & H1 & H2 & H3 & _).
    + vm_compute. reflexivity.
    + vm_compute. reflexivity.
    + simpl. lia.
    + exists self', d'. split; [exact H1|]. split; [exact H2|exact H3].
  - destruct (proj2 (setattr_frame sample_runtime self (py "talker") (VStr (py "GN"))))
      as (self' & H1 & H2 & H3 & _).
    + vm_compute. reflexivity.
    + vm_compute. discriminate.
    + exists self'. split; [exact H1|]. split; [exact H2|]. rewrite H3.
      vm_compute. reflexivity.
Defined.

(** Counterexamples to C9 as the specification words it.  A field whose
    index is beyond the data is not written: the assignment raises
    IndexError.  And [data] is itself a name outside the schema: setting it
    replaces the data. *)
Lemma setattr_beyond_data_or_of_data :
  (exists self,
     parse sample_runtime sample_registry (py "$GPGGA,184353.07") false false false
     = Ok self /\
     name_to_idx (type_of self) !! py "lat" = Some 1%nat /\
     attrs self !! py "data" = Some (VStrs [py "184353.07"]) /\
     raises (setattr sample_runtime self (py "lat") (VStr (py "1929.045"))) IndexError) /\
  (exists self self',
     parse sample_runtime sample_registry (py "$GPGGA,184353.07") false false false
     = Ok self /\
     name_to_idx (type_of self) !! py "data" = None /\
     setattr sample_runtime self (py "data") (VStrs []) = Ok self' /\
     attrs self !! py "data" = Some (VStrs [py "184353.07"]) /\
     attrs self' !! py "data" = Some (VStrs [])).
Proof.
  split.
  - eexists. split; [vm_compute; reflexivity|]. repeat split; try (vm_compute; reflexivity).
    eexists. split; [vm_compute; reflexivity|reflexivity].
  - eexists _, _. split; [vm_compute; reflexivity|]. repeat split; vm_compute; reflexivity.
Qed.

(** ** Strings *)

Lemma split_nonempty sep s : split sep s <> [].
Proof.
  destruct s as [|c s]; simpl; [done|]. destruct (c =? sep); [done|].
  by destruct (split sep s).
Qed.

(** Joining what was split gives the string back. *)
Lemma join_split sep s : join [sep] (split sep s) = s.
Proof.
  induction s as [|c s IH]; simpl; [done|].
  destruct (N.eqb_spec c sep) as [->|Hc].
  - pose proof (split_nonempty sep s). destruct (split sep s) as [|f fs]; [done|].
    simpl in *. by rewrite IH.
  - pose proof (split_nonempty sep s). destruct (split sep s) as [|f fs]; [done|].
    destruct fs as [|f' fs]; simpl in *; by rewrite <- IH.
Qed.

(** ** Upper case *)

Lemma ascii_upper_ascii c : is_ascii (ascii_upper c) = is_ascii c.
Proof. unfold ascii_upper, is_ascii, between. ord_values. split_comparisons. Qed.

Lemma ascii_upper_idemp c : ascii_upper (ascii_upper c) = ascii_upper c.
Proof. unfold ascii_upper, between. ord_values. split_comparisons. Qed.

Section Upper.

Context (rt : runtime).

Lemma upper_ascii s : forallb is_ascii s = true -> upper rt s = uc s.
Proof.
  induction s as [|c s IH]; simpl; [done|].
  intros [Hc Hs]%andb_true_iff. unfold upper in *. simpl.
  unfold upper_char at 1. by rewrite Hc, IH.
Qed.

Lemma uc_ascii s : forallb is_ascii (uc s) = forallb is_ascii s.
Proof. induction s as [|c s IH]; simpl; [done|]. by rewrite ascii_upper_ascii, IH. Qed.

Lemma uc_idemp s : uc (uc s) = uc s.
Proof. induction s as [|c s IH]; simpl; [done|]. by rewrite ascii_upper_idemp, IH. Qed.

(** The classes of the grammar do not tell a letter from its upper case. *)
Lemma is_word_upper c : is_word rt (ascii_upper c) = is_word rt c.
Proof.
  unfold is_word. rewrite ascii_upper_ascii. destruct (is_ascii c) eqn:E.
  - unfold ascii_upper, ascii_isalnum, between. ord_values. split_comparisons.
  - f_equal. revert E. unfold ascii_upper, is_ascii, between. ord_values.
    split_comparisons.
Qed.

Lemma is_char_i_upper a c : is_char_i a (ascii_upper c) = is_char_i a c.
Proof. unfold is_char_i. by rewrite ascii_upper_idemp, ascii_upper_ascii. Qed.

Lemma is_comma_upper c : is_char "," (ascii_upper c) = is_char "," c.
Proof. unfold is_char, ascii_upper, between. ord_values. split_comparisons. Qed.

Lemma not_star_upper c : not_star (ascii_upper c) = not_star c.
Proof. unfold not_star, is_char, ascii_upper, between. ord_values. split_comparisons. Qed.

Lemma word_not_space c : is_ascii c = true -> is_word rt c = true -> is_space rt c = false.
Proof.
  unfold is_word, is_space. intros ->.
  unfold ascii_isalnum, ascii_isspace, between. ord_values. split_comparisons.
Qed.

End Upper.

(** ** Two hexadecimal digits *)

Lemma format_02X_small n :
  n < 256 -> format_02X n = [hex_digit (n / 16); hex_digit (n mod 16)].
Proof.
  intros Hn. unfold format_02X, digits.
  destruct (N.ltb_spec n 16) as [Hlt|Hge].
  - assert (n / 16 = 0) as Hq by by apply N.div_small.
    assert (n mod 16 = n) as Hr by by apply N.mod_small.
    destruct (N.to_nat (N.size n)) eqn:E; simpl; rewrite Hq, Hr; done.
  - assert (1 <= n / 16 < 16) as Hq.
    { split; [apply N.div_le_lower_bound; lia|apply N.Div0.div_lt_upper_bound; lia]. }
    assert (N.to_nat (N.size n) >= 1)%nat as Hsize.
    { destruct n; [lia|]. simpl. lia. }
    destruct (N.to_nat (N.size n)) as [|k] eqn:E; [lia|]. cbn [digits_aux].
    destruct (N.eqb_spec (n / 16) 0) as [H0|_]; [lia|].
    assert (n / 16 / 16 = 0) as -> by (apply N.div_small; lia).
    assert ((n / 16) mod 16 = n / 16) as -> by (apply N.mod_small; lia).
    by destruct k.
Qed.

Lemma hex_digit_is_hex d : d < 16 -> is_hex_i (hex_digit d) = true.
Proof.
  intros Hd. unfold hex_digit, is_hex_i, between. ord_values.
  destruct (N.ltb_spec d 10); split_comparisons.
Qed.

Lemma format_02X_hex n :
  n < 256 ->
  exists h1 h2, format_02X n = [h1; h2] /\ is_hex_i h1 = true /\ is_hex_i h2 = true.
Proof.
  intros Hn. rewrite format_02X_small by done. eexists _, _. split; [done|].
  split; apply hex_digit_is_hex.
  - apply N.Div0.div_lt_upper_bound; lia.
  - apply N.mod_lt. lia.
Qed.

(** ** Identifiers as sequences of classes *)

Lemma matches_classes_length ps s :
  matches_classes ps s = true -> length s = length ps.
Proof.
  revert s. induction ps as [|p ps IH]; intros [|c s]; simpl; try done.
  intros [_ H]%andb_true_iff. by rewrite (IH s H).
Qed.

Lemma matches_classes_not_star ps s :
  Forall plain_class ps -> matches_classes ps s = true -> forallb not_star s = true.
Proof.
  intros Hps. revert s. induction Hps as [|p ps [_ Hp] _ IH]; intros [|c s]; simpl; try done.
  intros [Hc H]%andb_true_iff. rewrite (IH s H), andb_true_r.
  unfold not_star, is_char. destruct (N.eqb_spec c (ord "*")) as [->|]; [|done].
  by rewrite Hp in Hc.
Qed.

(** Upper-casing a prefix of the characters changes nothing. *)
Lemma matches_classes_upper ps a b :
  Forall plain_class ps ->
  matches_classes ps (map ascii_upper a ++ b) = matches_classes ps (a ++ b).
Proof.
  intros Hps. revert a. induction Hps as [|p ps [Hp _] _ IH]; intros [|c a]; simpl; try done.
  by rewrite Hp, IH.
Qed.

Lemma matches_classes_uc ps a :
  Forall plain_class ps -> matches_classes ps (map ascii_upper a) = matches_classes ps a.
Proof.
  intros Hps. pose proof (matches_classes_upper ps a [] Hps) as H.
  by rewrite !app_nil_r in H.
Qed.

Section Classes.

Context (rt : runtime).

Lemma plain_is_word : plain_class (is_word rt).
Proof. split; [apply is_word_upper|reflexivity]. Qed.

Lemma plain_is_char_i a : is_char_i a (ord "*") = false -> plain_class (is_char_i a).
Proof. split; [apply is_char_i_upper|done]. Qed.

Lemma plain_comma : plain_class (is_char ",").
Proof. split; [apply is_comma_upper|reflexivity]. Qed.

Lemma plain_proprietary : Forall plain_class (proprietary_classes rt).
Proof.
  unfold proprietary_classes.
  repeat (apply Forall_cons; split);
    auto using plain_is_word, plain_comma, Forall_nil_2; by apply plain_is_char_i.
Qed.

Lemma plain_query : Forall plain_class (query_classes rt).
Proof.
  unfold query_classes.
  repeat (apply Forall_cons; split);
    auto using plain_is_word, plain_comma, Forall_nil_2; by apply plain_is_char_i.
Qed.

Lemma plain_talker : Forall plain_class (talker_classes rt).
Proof.
  unfold talker_classes.
  repeat (apply Forall_cons; split);
    auto using plain_is_word, plain_comma, Forall_nil_2; by apply plain_is_char_i.
Qed.

Lemma scan_proprietary_classes s :
  scan_proprietary rt s
  = if matches_classes (proprietary_classes rt) (take 4 s)
    then Some (take 4 s, drop 4 s) else None.
Proof.
  unfold scan_proprietary, proprietary_classes.
  destruct s as [|c1 [|c2 [|c3 [|c4 s]]]]; cbn [take drop matches_classes];
    rewrite ?take_0, ?drop_0; split_booleans.
Qed.

Lemma scan_query_classes s :
  scan_query rt s
  = if matches_classes (query_classes rt) (take 9 s)
    then Some (take 9 s, drop 9 s) else None.
Proof.
  unfold scan_query, query_classes.
  destruct s as [|c1 [|c2 [|c3 [|c4 [|c5 [|c6 [|c7 [|c8 [|c9 s]]]]]]]]];
    cbn [take drop matches_classes]; rewrite ?take_0, ?drop_0; split_booleans.
Qed.

Lemma scan_talker_classes s :
  scan_talker rt s
  = if matches_classes (talker_classes rt) (take 6 s)
    then Some (take 6 s, drop 6 s) else None.
Proof.
  unfold scan_talker, talker_classes.
  destruct s as [|c1 [|c2 [|c3 [|c4 [|c5 [|c6 s]]]]]];
    cbn [take drop matches_classes]; rewrite ?take_0, ?drop_0; split_booleans.
Qed.

End Classes.

(** ** Moving a match to another line *)

Section Transfer.

Context (rt : runtime).

(** Characters before the data that hold no star go to the data. *)
Lemma scan_rest_prefix x r :
  forallb not_star x = true ->
  scan_rest rt (x ++ r) = ('(d, cs) ← scan_rest rt r; Some (x ++ d, cs)).
Proof.
  intros Hx. unfold scan_rest. rewrite span_prefix by done.
  destruct (span not_star r) as [d t]. cbn [fst snd].
  by destruct (scan_suffix rt t).
Qed.

Lemma scan_rest_checksum_suffix d h1 h2 :
  forallb not_star d = true -> is_hex_i h1 = true -> is_hex_i h2 = true ->
  scan_rest rt (d ++ ord "*" :: [h1; h2]) = Some (d, Some [h1; h2]).
Proof.
  intros Hd H1 H2. unfold scan_rest. rewrite span_stop by done.
  cbn. by rewrite H1, H2.
Qed.

(** The next three characters of a query identifier come from the data: a
    star, or the end of the line, ends the identifier. *)
Lemma query_after_talker id r d cs :
  length id = 6%nat ->
  scan_rest rt r = Some (d, cs) ->
  matches_classes (query_classes rt) (id ++ take 3 r)
  = matches_classes (query_classes rt) (id ++ take 3 d).
Proof.
  intros Hid Hr. destruct (scan_rest_inv rt r d cs Hr) as [Hd Hcs].
  destruct cs as [h|]; [|by subst].
  destruct Hcs as (h1 & h2 & ws & -> & -> & _).
  destruct (decide (3 <= length d)%nat) as [Hlen|Hlen].
  { by rewrite take_app_le by done. }
  assert (forall s, matches_classes (query_classes rt) s = true ->
                    length s = 9%nat /\ forallb not_star s = true) as Hq.
  { intros s Hs. split; [by apply matches_classes_length in Hs|].
    eapply matches_classes_not_star; [apply plain_query|done]. }
  destruct (matches_classes _ (id ++ take 3 (d ++ _))) eqn:E1;
    destruct (matches_classes _ (id ++ take 3 d)) eqn:E2; try done.
  - apply Hq in E1 as [_ E1]. exfalso.
    rewrite forallb_app in E1. apply andb_true_iff in E1 as [_ E1].
    rewrite take_app_ge in E1 by lia. rewrite forallb_app in E1.
    apply andb_true_iff in E1 as [_ E1].
    destruct (3 - length d)%nat as [|k] eqn:Ek; [lia|]. done.
  - apply Hq in E2 as [E2 _]. rewrite length_app, length_take in E2. lia.
Qed.

Lemma scan_with_classes n ps scan k s :
  (forall s, scan s = if matches_classes ps (take k s)
                      then Some (take k s, drop k s) else None) ->
  scan_with rt n scan s
  = if matches_classes ps (take k s)
    then '(d, cs) ← scan_rest rt (drop k s); Some (match_groups n (take k s) d cs)
    else None.
Proof.
  intros H. unfold scan_with. rewrite H. by destruct (matches_classes _ _).
Qed.

(** The alternatives before the one that matched did not. *)
Lemma scan_body_cases s m :
  scan_body rt s = Some m ->
  exists n ps k d cs,
    m = match_groups n (take k s) d cs /\
    matches_classes ps (take k s) = true /\ length (take k s) = k /\
    scan_rest rt (drop k s) = Some (d, cs) /\ length ps = k /\ winner rt n ps s.
Proof.
  unfold scan_body.
  assert (forall n ps scan k,
            (forall s, scan s = if matches_classes ps (take k s)
                                then Some (take k s, drop k s) else None) ->
            length ps = k ->
            scan_with rt n scan s = Some m ->
            exists d cs, m = match_groups n (take k s) d cs /\
              matches_classes ps (take k s) = true /\ length (take k s) = k /\
              scan_rest rt (drop k s) = Some (d, cs)) as H.
  { intros n ps scan k Hscan Hk. rewrite (scan_with_classes n ps scan k s Hscan).
    destruct (matches_classes ps (take k s)) eqn:E; [|done].
    destruct (scan_rest rt (drop k s)) as [[d cs]|]; [|done].
    cbn [mbind option_bind]. intros [= <-]. exists d, cs.
    apply matches_classes_length in E. repeat split; try done. by rewrite E. }
  destruct (scan_with rt "3" _ s) eqn:E3.
  { intros [= ->].
    destruct (H _ _ _ 4%nat (scan_proprietary_classes rt) eq_refl E3) as (d & cs & ?).
    exists "3"%string, (proprietary_classes rt), 4%nat, d, cs.
    destruct_and!. repeat split; try done. by left. }
  destruct (scan_with rt "4" _ s) eqn:E4.
  { intros [= ->].
    destruct (H _ _ _ 9%nat (scan_query_classes rt) eq_refl E4) as (d & cs & ?).
    exists "4"%string, (query_classes rt), 9%nat, d, cs.
    destruct_and!. repeat split; try done. right; by left. }
  intros E5.
  destruct (H _ _ _ 6%nat (scan_talker_classes rt) eq_refl E5) as (d & cs & ?).
  exists "5"%string, (talker_classes rt), 6%nat, d, cs.
  destruct_and!. repeat split; try done. right; by right.
Qed.

(** A matched body, with its identifier in upper case and another suffix
    after the same data, is matched by the same alternative. *)
Lemma scan_body_upper id r r' n ps d cs cs' :
  length id = length ps ->
  matches_classes ps id = true ->
  scan_rest rt r = Some (d, cs) -> scan_rest rt r' = Some (d, cs') ->
  winner rt n ps (id ++ r) ->
  scan_body rt (uc id ++ r') = Some (match_groups n (uc id) d cs').
Proof.
  intros Hlen Hid Hr Hr' Hn.
  assert (forallb not_star id = true) as Hstar.
  { eapply matches_classes_not_star; [|done].
    destruct Hn as [[_ ->]|[(_ & -> & _)|(_ & -> & _)]];
      auto using plain_proprietary, plain_query, plain_talker. }
  (* the proprietary alternative, on a longer identifier *)
  assert (forall s', (4 <= length id)%nat ->
            scan_with rt "3" (scan_proprietary rt) (id ++ r) = None ->
            scan_with rt "3" (scan_proprietary rt) (uc id ++ s') = None) as H3.
  { intros s' Hge.
    rewrite !(scan_with_classes _ _ _ 4%nat _ (scan_proprietary_classes rt)).
    rewrite !take_app_le, !drop_app_le by (rewrite ?length_map; lia).
    rewrite firstn_map, matches_classes_uc by apply plain_proprietary.
    destruct (matches_classes _ (take 4 id)); [|done].
    rewrite scan_rest_prefix, Hr; [done|].
    rewrite <- (take_drop 4 id), forallb_app in Hstar.
    by apply andb_true_iff in Hstar as [_ ?]. }
  unfold scan_body.
  destruct Hn as [[-> ->]|[(-> & -> & N3)|(-> & -> & N3 & N4)]].
  - rewrite (scan_with_classes _ _ _ 4%nat _ (scan_proprietary_classes rt)).
    rewrite take_app_length', drop_app_length' by by rewrite length_map.
    rewrite matches_classes_uc, Hid, Hr' by apply plain_proprietary. done.
  - rewrite (H3 r'); [|rewrite Hlen; simpl; lia|done].
    rewrite (scan_with_classes _ _ _ 9%nat _ (scan_query_classes rt)).
    rewrite take_app_length', drop_app_length' by by rewrite length_map.
    rewrite matches_classes_uc, Hid, Hr' by apply plain_query. done.
  - rewrite (H3 r'); [|rewrite Hlen; simpl; lia|done].
    assert (scan_with rt "4" (scan_query rt) (uc id ++ r') = None) as ->.
    { revert N4. rewrite !(scan_with_classes _ _ _ 9%nat _ (scan_query_classes rt)).
      assert (forall (a s : str), length a = 6%nat ->
                take 9 (a ++ s) = a ++ take 3 s /\ drop 9 (a ++ s) = drop 3 s) as Hcut.
      { intros a s Ha. rewrite take_app_ge, drop_app_ge by lia. by rewrite Ha. }
      destruct (Hcut id r Hlen) as [-> ->].
      destruct (Hcut (uc id) r') as [-> ->]; [by rewrite length_map|].
      rewrite matches_classes_upper by apply plain_query.
      rewrite (query_after_talker id r d cs Hlen Hr), (query_after_talker id r' d cs' Hlen Hr').
      destruct (matches_classes _ (id ++ take 3 d)) eqn:E; [|done].
      (* the three characters are in the data, so the rest is matched *)
      assert (length (take 3 d) = 3%nat) as H3d.
      { apply matches_classes_length in E. rewrite length_app, Hlen in E. simpl in E. lia. }
      destruct (scan_rest_inv rt r d cs Hr) as [Hd Hcs].
      assert (exists t, r = d ++ t) as [t ->].
      { destruct cs; [|exists []; by rewrite app_nil_r].
        destruct Hcs as (h1 & h2 & ws & _ & -> & _). eauto. }
      rewrite length_take in H3d.
      rewrite drop_app_le by lia.
      rewrite scan_rest_prefix.
      - rewrite <- (take_drop 3 d) in Hr at 1. rewrite <- app_assoc in Hr.
        rewrite scan_rest_prefix in Hr.
        + rewrite scan_rest_prefix in Hr.
          * destruct (scan_rest rt t) as [[d0 cs0]|]; done.
          * rewrite <- (take_drop 3 d), forallb_app in Hd.
            by apply andb_true_iff in Hd as [_ ?].
        + rewrite <- (take_drop 3 d), forallb_app in Hd.
          by apply andb_true_iff in Hd as [? _].
      - rewrite <- (take_drop 3 d), forallb_app in Hd.
        by apply andb_true_iff in Hd as [_ ?]. }
    rewrite (scan_with_classes _ _ _ 6%nat _ (scan_talker_classes rt)).
    rewrite take_app_length', drop_app_length' by by rewrite length_map.
    rewrite matches_classes_uc, Hid, Hr' by apply plain_talker. done.
Qed.

End Transfer.

(** ** The anatomy of a matched line, with the alternative that matched *)

Section Matched.

Context (rt : runtime).

Lemma winner_lookup n ps s id d cs :
  winner rt n ps s ->
  let m := match_groups n id d cs in
  m !! "nmea_str"%string = Some (id ++ d) /\ m !! "data"%string = Some d /\
  m !! "sentence_type"%string = Some id /\ m !! "checksum"%string = cs.
Proof.
  intros [[-> _]|[(-> & _)|(-> & _)]]; by destruct cs.
Qed.

Lemma sentence_re_matched line m :
  re_match (sentence_re rt) line = Some m ->
  exists ws dollar id r n ps d cs,
    line = ws ++ dollar ++ id ++ r /\
    forallb (is_space rt) ws = true /\ (dollar = [] \/ dollar = [ord "$"]) /\
    m = match_groups n id d cs /\
    matches_classes ps id = true /\ length id = length ps /\
    scan_rest rt r = Some (d, cs) /\ winner rt n ps (id ++ r).
Proof.
  rewrite re_match_sentence_re. intros H.
  apply star_some_inv in H as (ws & s & -> & Hws & H).
  assert (exists dollar b, s = dollar ++ b /\ (dollar = [] \/ dollar = [ord "$"]) /\
            scan_body rt b = Some m) as (dollar & b & -> & Hdollar & Hb).
  { unfold scan_line in H. destruct s as [|c s]; [done|].
    destruct (is_char "$" c) eqn:E.
    - apply N.eqb_eq in E as ->. exists [ord "$"], s. eauto.
    - exists [], (c :: s). eauto. }
  apply scan_body_cases in Hb as (n & ps & k & d & cs & -> & Hps & Hk & Hr & Hlen & Hw).
  exists ws, dollar, (take k b), (drop k b), n, ps, d, cs.
  rewrite take_drop. repeat split; try done. by rewrite Hk.
Qed.

(** An identifier starts with a word character. *)
Lemma winner_first_char n ps s id :
  winner rt n ps s -> matches_classes ps id = true ->
  exists c id', id = c :: id' /\ is_word rt c = true.
Proof.
  assert (forall c, is_char_i "P" c = true -> is_word rt c = true) as HP.
  { intros c. unfold is_char_i, is_word. intros [H ->]%andb_true_iff. revert H.
    unfold ascii_upper, ascii_isalnum, between. ord_values.
    change (ord "P") with 80. split_comparisons. }
  intros [[_ ->]|[(_ & -> & _)|(_ & -> & _)]]; destruct id as [|c id']; try done;
    cbn [matches_classes proprietary_classes query_classes talker_classes];
    intros [Hc _]%andb_true_iff; exists c, id'; auto.
Qed.

(** The match of a line whose identifier, in ASCII, is put in upper case,
    and whose data is followed by another suffix. *)
Lemma sentence_re_upper ws dollar id r r' n ps d cs cs' :
  forallb (is_space rt) ws = true -> (dollar = [] \/ dollar = [ord "$"]) ->
  matches_classes ps id = true -> length id = length ps ->
  forallb is_ascii id = true ->
  scan_rest rt r = Some (d, cs) -> scan_rest rt r' = Some (d, cs') ->
  winner rt n ps (id ++ r) ->
  re_match (sentence_re rt) (ws ++ dollar ++ uc id ++ r')
  = Some (match_groups n (uc id) d cs').
Proof.
  intros Hws Hdollar Hps Hlen Hascii Hr Hr' Hw.
  rewrite re_match_sentence_re. apply star_first.
  destruct (winner_first_char n ps _ id Hw Hps) as (c & id' & -> & Hc).
  assert (is_ascii c = true) as Hca.
  { simpl in Hascii. by apply andb_true_iff in Hascii as [? _]. }
  assert (is_word rt (ascii_upper c) = true) as Hc' by by rewrite is_word_upper.
  assert (is_space rt (ascii_upper c) = false) as Hsp.
  { apply word_not_space; [by rewrite ascii_upper_ascii|done]. }
  assert (is_char "$" (ascii_upper c) = false) as Hnd.
  { unfold is_char. destruct (N.eqb_spec (ascii_upper c) (ord "$")) as [E|]; [|done].
    by rewrite E in Hc'. }
  rewrite span_stop; [|done|by destruct Hdollar as [-> | ->]].
  cbn [snd]. rewrite <- (scan_body_upper rt (c :: id') r r' n ps d cs cs') by done.
  destruct Hdollar as [-> | ->]; cbn [app map scan_line]; [by rewrite Hnd|done].
Qed.

End Matched.

(** ** The line an exception carries *)

Lemma outcome_bind {A} (x : result A) (f g : A -> result sentence) :
  (forall a, outcome (f a) = outcome (g a)) ->
  outcome (bind x f) = outcome (bind x g).
Proof. intros H. destruct x; [apply H|done]. Qed.

Lemma parse_by_shape_line rt reg line line' st ds d gsv grs :
  outcome (parse_by_shape rt reg line' st ds d gsv grs)
  = outcome (parse_by_shape rt reg line st ds d gsv grs).
Proof.
  unfold parse_by_shape.
  destruct (re_match (talker_re rt) st).
  - unfold parse_talker. repeat (apply outcome_bind; intros ?).
    by destruct (talker_types reg !! _).
  - destruct (re_match (query_re rt) st); [destruct ds; [done|]|];
      by destruct (re_match (proprietary_re rt) st).
Qed.

(** ** Rendering *)

Section Rendering.

Context (rt : runtime).

Lemma render_talker_object cls talker sentence_type data kw :
  cls_base cls = Talker ->
  render rt (talker_object cls talker sentence_type data kw) true true NoNewline
  = Ok (py "$" ++ (talker ++ sentence_type ++ py ",") ++ join (py ",") data
        ++ py "*"
        ++ format_02X (checksum ((talker ++ sentence_type ++ py ",") ++ join (py ",") data))).
Proof.
  intros Hbase. unfold render, identifier, getattr, talker_object.
  cbn [type_of attrs]. rewrite Hbase.
  rewrite (lookup_insert_ne _ (py "data") (py "talker")) by done.
  rewrite (lookup_insert_ne _ (py "sentence_type") (py "talker")) by done.
  rewrite lookup_insert_eq. cbn [bind].
  rewrite (lookup_insert_ne _ (py "data") (py "sentence_type")) by done.
  rewrite lookup_insert_eq. cbn [bind].
  rewrite lookup_insert_eq. cbn [bind join_data py_str].
  by rewrite <- !app_assoc.
Qed.

Lemma setattr_type self name v self' :
  setattr rt self name v = Ok self' -> type_of self' = type_of self.
Proof.
  unfold setattr. destruct (_ !! name).
  - intros (d & _ & (d' & _ & [= <-])%bind_Ok)%bind_Ok. done.
  - by intros [= <-].
Qed.

Lemma ProprietarySentence_init_type cls manufacturer data self :
  ProprietarySentence_init rt cls manufacturer data = Ok self -> type_of self = cls.
Proof.
  unfold ProprietarySentence_init.
  intros (s1 & H1%setattr_type & H2%setattr_type)%bind_Ok. by rewrite H2, H1.
Qed.

(** Under a well-formed registry, a sentence of a type that derives from
    TalkerSentence comes from the talker branch, with a registered type. *)
Lemma parse_by_shape_talker reg line st ds d gsv grs self :
  registry_wf reg ->
  parse_by_shape rt reg line st ds (split (ord ",") d) gsv grs = Ok self ->
  cls_base (type_of self) = Talker ->
  exists tm talker sentence cls,
    re_match (talker_re rt) st = Some tm /\
    tm !! "talker"%string = Some talker /\ tm !! "sentence"%string = Some sentence /\
    talker_types reg !! sentence = Some cls /\ plain_schema cls /\
    self = talker_object cls talker sentence (split (ord ",") d)
             (schema_kwargs cls sentence (split (ord ",") d) gsv grs).
Proof.
  intros [Hwf_t Hwf_p] Hparse Hbase. unfold parse_by_shape in Hparse.
  destruct (re_match (talker_re rt) st) as [tm|] eqn:Etm.
  - destruct (talker_re_inv rt _ _ Etm)
      as (c1 & c2 & c3 & c4 & c5 & z & _ & _ & _ & Ht & Hs).
    destruct (talker_types reg !! [c3; c4; c5]) as [cls|] eqn:Ecls.
    + rewrite (parse_talker_registered rt reg line st d gsv grs tm _ _ cls Ht Hs Ecls)
        in Hparse.
      apply TalkerSentence_init_Ok in Hparse as [Hplain ->].
      by exists tm, [c1; c2], [c3; c4; c5], cls.
    + rewrite (parse_talker_unregistered rt reg line st _ gsv grs tm _ _ Ht Hs Ecls)
        in Hparse.
      by destruct (_ || _).
  - exfalso.
    assert (forall r : result sentence,
              r = Ok self ->
              r = match re_match (proprietary_re rt) st with
                  | Some proprietary_match =>
                      manufacturer <- group proprietary_match "manufacturer";;
                      let cls := default ProprietarySentence
                                   (proprietary_types reg !! manufacturer) in
                      ProprietarySentence_init rt cls manufacturer (split (ord ",") d)
                  | None =>
                      raise_parse_error ParseError
                        (py "could not parse sentence type: " ++ py_repr rt st) (VStr line)
                  end -> False) as Hprop.
    { intros r -> Hr. symmetry in Hr.
      destruct (re_match (proprietary_re rt) st); [|done].
      apply bind_Ok in Hr as (manufacturer & _ & Hinit).
      apply ProprietarySentence_init_type in Hinit. rewrite Hinit in Hbase.
      destruct (proprietary_types reg !! manufacturer) as [cls|] eqn:E; simpl in Hbase.
      - apply Hwf_p in E. congruence.
      - done. }
    destruct (re_match (query_re rt) st) as [qm|]; [|by eapply Hprop].
    destruct ds; [|by eapply Hprop].
    apply bind_Ok in Hparse as (t & _ & (l & _ & (s & _ & Hinit)%bind_Ok)%bind_Ok).
    rewrite QuerySentence_init_generic in Hinit. injection Hinit as <-. done.
Qed.

Lemma schema_kwargs_default cls sentence data :
  schema_kwargs cls sentence data false false = ∅.
Proof. unfold schema_kwargs. by rewrite !andb_false_r. Qed.

End Rendering.

(** C1.  The round trip.  For every line [parse] accepts as a sentence of a
    talker type, whose type identifier is ASCII and whose rendering has a
    checksum below 0x100 (so that it prints as two hexadecimal digits: see
    [checksum_8bit]; both hold when the line is ASCII), the untouched sentence renders to a text
    that [parse] accepts, and the sentence parsed from it renders to the same
    text.  The registry is one [declare] builds. *)
Theorem parse_render_round_trip rt reg line check gsv grs m id d self :
  registry_wf reg ->
  parse rt reg line check gsv grs = Ok self ->
  cls_base (type_of self) = Talker ->
  re_match (sentence_re rt) line = Some m ->
  m !! "sentence_type"%string = Some id -> m !! "data"%string = Some d ->
  forallb is_ascii id = true ->
  checksum (upper rt id ++ d) < 0x100 ->
  exists text self',
    render rt self true true NoNewline = Ok text /\
    text = py "$" ++ upper rt id ++ d ++ py "*" ++ format_02X (checksum (upper rt id ++ d)) /\
    parse rt reg text false false false = Ok self' /\
    render rt self' true true NoNewline = Ok text.
Proof.
  intros Hwf Hparse Hbase Hm Hid Hd Hascii Hsum.
  rewrite (parse_matched rt reg line check gsv grs m id d Hm Hid Hd) in Hparse.
  apply bind_Ok in Hparse as (_ & _ & Hshape).
  destruct (parse_by_shape_talker rt reg line _ d d gsv grs self Hwf Hshape Hbase)
    as (tm & talker & sentence & cls & Htm & Ht & Hs & Hcls & Hplain & ->).
  cbn [type_of talker_object] in Hbase.
  (* the line, and the identifier as the talker pattern reads it *)
  destruct (sentence_re_matched rt line m Hm)
    as (ws & dollar & id0 & r & n & ps & d0 & cs & -> & Hws & Hdollar & -> & Hps & Hlen & Hr & Hw).
  destruct (winner_lookup rt n ps _ id0 d0 cs Hw) as (_ & Hd0 & Hid0 & _).
  rewrite Hid0 in Hid. injection Hid as ->. rewrite Hd0 in Hd. injection Hd as ->.
  rewrite (upper_ascii rt id Hascii) in *.
  destruct (talker_re_inv rt _ _ Htm)
    as (c1 & c2 & c3 & c4 & c5 & z & Huc & Hz & _ & Ht' & Hs').
  rewrite Ht in Ht'. injection Ht' as ->. rewrite Hs in Hs'. injection Hs' as ->.
  assert (z = [] /\ n = "5"%string /\ ps = talker_classes rt) as (-> & -> & ->).
  { apply (f_equal length) in Huc. rewrite length_map, length_app, Hlen in Huc.
    apply at_end_length in Hz.
    destruct Hw as [[-> ->]|[(-> & -> & _)|(-> & -> & _)]]; simpl in Huc;
      destruct z as [|? [|]]; simpl in *; try lia; done. }
  rewrite app_nil_r in Huc.
  (* the text *)
  destruct (format_02X_hex _ Hsum) as (h1 & h2 & Hfmt & Hh1 & Hh2).
  assert (forall kw,
            render rt (talker_object cls [c1; c2] [c3; c4; c5] (split (ord ",") d) kw)
              true true NoNewline
            = Ok (py "$" ++ uc id ++ d ++ py "*" ++ format_02X (checksum (uc id ++ d))))
    as Hrender.
  { intros kw. rewrite render_talker_object by done.
    change (py ",") with [ord ","]. rewrite join_split.
    change ([c1; c2] ++ [c3; c4; c5] ++ [ord ","]) with [c1; c2; c3; c4; c5; ord ","].
    by rewrite <- Huc. }
  eexists _, (talker_object cls [c1; c2] [c3; c4; c5] (split (ord ",") d) ∅).
  split; [apply Hrender|]. split; [done|]. split; [|apply Hrender].
  (* the text is matched, by the talker alternative *)
  destruct (scan_rest_inv rt r d cs Hr) as [Hdstar _].
  pose proof (sentence_re_upper rt [] [ord "$"] id r (d ++ ord "*" :: [h1; h2])
                "5" (talker_classes rt) d cs (Some [h1; h2])
                eq_refl (or_intror eq_refl) Hps Hlen Hascii Hr
                (scan_rest_checksum_suffix rt d h1 h2 Hdstar Hh1 Hh2) Hw) as Hm'.
  rewrite Hfmt.
  change (py "$" ++ uc id ++ d ++ py "*" ++ [h1; h2])
    with ([] ++ [ord "$"] ++ uc id ++ d ++ ord "*" :: [h1; h2]).
  rewrite (parse_matched rt reg _ false false false _ (uc id) d Hm') by done.
  rewrite (check_checksum_passes rt _ _ (uc id) d _ false Hm') by (done || by left).
  cbn [bind].
  rewrite upper_ascii by by rewrite uc_ascii. rewrite uc_idemp.
  unfold parse_by_shape. rewrite Htm.
  rewrite (parse_talker_registered rt reg _ _ d false false tm _ _ cls Ht Hs Hcls).
  rewrite schema_kwargs_default. by apply TalkerSentence_init_plain.
Qed.

(** ** Registries *)

Lemma registry_wf_empty : registry_wf empty_registry.
Proof. split; intros name cls; simpl; by rewrite lookup_empty. Qed.

(** [declare] keeps a registry well formed. *)
Lemma registry_wf_declare cls reg : registry_wf reg -> registry_wf (declare cls reg).
Proof.
  intros [Ht Hp]. unfold declare. destruct (cls_base cls) eqn:E; split; cbn; try done.
  - intros name c. destruct (decide (cls_name cls = name)) as [->|Hne].
    + rewrite lookup_insert_eq. by intros [= <-].
    + rewrite lookup_insert_ne by done. apply Ht.
  - intros name c. destruct (decide (cls_name cls = name)) as [->|Hne].
    + rewrite lookup_insert_eq. by intros [= <-].
    + rewrite lookup_insert_ne by done. apply Hp.
Qed.

Lemma registry_wf_sample : registry_wf sample_registry.
Proof. repeat apply registry_wf_declare. apply registry_wf_empty. Qed.

Lemma parse_render_round_trip_witness :
  exists text self',
    render sample_runtime
      (talker_object GGA (py "GP") (py "GGA")
         (split (ord ",") (py "184353.07,1929.045,S,02410.506,E,1,04,2.6,100.00,M,-33.9,M,,0000"))
         ∅) true true NoNewline = Ok text /\
    text = py "$" ++ upper sample_runtime (py "gpGGA,")
           ++ py "184353.07,1929.045,S,02410.506,E,1,04,2.6,100.00,M,-33.9,M,,0000"
           ++ py "*"
           ++ format_02X
                (checksum
                   (upper sample_runtime (py "gpGGA,")
                    ++ py "184353.07,1929.045,S,02410.506,E,1,04,2.6,100.00,M,-33.9,M,,0000")) /\
    parse sample_runtime sample_registry text false false false = Ok self' /\
    render sample_runtime self' true true NoNewline = Ok text.
Proof.
  apply (parse_render_round_trip sample_runtime sample_registry
           (py " gpGGA,184353.07,1929.045,S,02410.506,E,1,04,2.6,100.00,M,-33.9,M,,0000")
           false false false
           (match_groups "5" (py "gpGGA,")
              (py "184353.07,1929.045,S,02410.506,E,1,04,2.6,100.00,M,-33.9,M,,0000") None)
           (py "gpGGA,")
           (py "184353.07,1929.045,S,02410.506,E,1,04,2.6,100.00,M,-33.9,M,,0000")).
  - apply registry_wf_sample.
  - vm_compute. reflexivity.
  - reflexivity.
  - vm_compute. reflexivity.
  - vm_compute. reflexivity.
  - vm_compute. reflexivity.
  - vm_compute. reflexivity.
  - vm_compute. reflexivity.
Defined.

(** Counterexample to C1 as the specification words it: a line with a
    character beyond Latin-1 in its data, here U+FFFD, the character a
    decoder leaves for a byte it could not decode.  The checksum of the
    rendering is 0xFF8A, which ['%02X'] prints as four digits, and the grammar
    takes two: [parse] accepts the line, the sentence renders, and [parse]
    rejects the rendering.  Whatever the runtime: *)
Lemma beyond_latin1_any_runtime rt :
  let line := py "$GPGGA,184353.07," ++ [0xFFFD] in
  let text := py "$GPGGA,184353.07," ++ [0xFFFD] ++ py "*FF8A" in
  exists self,
    parse rt sample_registry line false false false = Ok self /\
    cls_base (type_of self) = Talker /\
    render rt self true true NoNewline = Ok text /\
    raises (parse rt sample_registry text false false false) ParseError.
Proof.
  cbn zeta. unfold parse. rewrite !re_match_sentence_re.
  eexists. split; [vm_compute; reflexivity|]. split; [reflexivity|].
  split; [vm_compute; reflexivity|].
  eexists. split; [vm_compute; reflexivity|reflexivity].
Qed.

Lemma round_trip_fails_beyond_latin1 :
  exists self,
    parse sample_runtime sample_registry (py "$GPGGA,184353.07," ++ [0xFFFD])
      false false false = Ok self /\
    cls_base (type_of self) = Talker /\
    render sample_runtime self true true NoNewline
    = Ok (py "$GPGGA,184353.07," ++ [0xFFFD] ++ py "*FF8A") /\
    raises (parse sample_runtime sample_registry
              (py "$GPGGA,184353.07," ++ [0xFFFD] ++ py "*FF8A") false false false)
      ParseError.
Proof. exact (beyond_latin1_any_runtime sample_runtime). Qed.

(** ** The metaclass: [name_to_idx] and the registries *)

Lemma dict_of_snoc `{Countable K} {V} (l : list (K * V)) kv :
  dict_of (l ++ [kv]) = <[kv.1 := kv.2]> (dict_of l).
Proof. unfold dict_of. by rewrite foldl_app. Qed.

Lemma name_to_idx_snoc name base fs f :
  name_to_idx {| cls_name := name; cls_base := base; fields := fs ++ [f] |}
  = <[f.2 := length fs]>
      (name_to_idx {| cls_name := name; cls_base := base; fields := fs |}).
Proof.
  unfold name_to_idx, enumerate. cbn [fields].
  rewrite imap_app, map_app. cbn [imap map]. rewrite dict_of_snoc. cbn [fst snd].
  by rewrite Nat.add_0_r.
Qed.

(** X2.  [name_to_idx] maps every field name the type declares, and nothing
    else, to a position where [fields] declares it: the last one, when a
    name is declared more than once. *)
Theorem name_to_idx_last cls name :
  match name_to_idx cls !! name with
  | Some i =>
      (exists label, fields cls !! i = Some (label, name)) /\
      (forall j label, fields cls !! j = Some (label, name) -> (j <= i)%nat)
  | None => forall j f, fields cls !! j = Some f -> f.2 <> name
  end.
Proof.
  destruct cls as [cname base fs]. cbn [fields].
  induction fs as [|f fs IH] using rev_ind.
  - unfold name_to_idx, enumerate, dict_of. cbn. rewrite lookup_empty.
    intros j f. by rewrite lookup_nil.
  - rewrite name_to_idx_snoc. destruct (decide (f.2 = name)) as [<-|Hne].
    + rewrite lookup_insert_eq. split.
      * exists f.1. rewrite lookup_app_r by done. rewrite Nat.sub_diag.
        by destruct f.
      * intros j label Hj. apply lookup_lt_Some in Hj.
        rewrite length_app in Hj. simpl in Hj. lia.
    + rewrite lookup_insert_ne by done.
      destruct (name_to_idx _ !! name) as [i|].
      * destruct IH as [(label & Hi) Hlast]. split.
        -- exists label. by rewrite lookup_app_l by by eapply lookup_lt_Some.
        -- intros j label' Hj.
           destruct (decide (j < length fs)%nat) as [Hlt|Hge].
           ++ rewrite lookup_app_l in Hj by done. by eapply Hlast.
           ++ rewrite lookup_app_r in Hj by lia.
              destruct (j - length fs)%nat; [|done].
              simpl in Hj. injection Hj as ->. done.
      * intros j f' Hj.
        destruct (decide (j < length fs)%nat) as [Hlt|Hge].
        -- rewrite lookup_app_l in Hj by done. by eapply IH.
        -- rewrite lookup_app_r in Hj by lia.
           destruct (j - length fs)%nat; [|done].
           simpl in Hj. by injection Hj as <-.
Qed.

Lemma types_of_declare cls reg base name :
  types_of base (declare cls reg) !! name
  = if bool_decide (base = cls_base cls /\ name = cls_name cls) then Some cls
    else types_of base reg !! name.
Proof.
  unfold declare. case_bool_decide as Hb.
  - destruct Hb as [-> ->]. destruct (cls_base cls); cbn; by rewrite lookup_insert_eq.
  - destruct base, (cls_base cls) eqn:E; cbn; try done;
      (rewrite lookup_insert_ne; [done|]); intros <-; by apply Hb.
Qed.

(** X3.  Class statements compose as assignments to a dictionary.  The type
    declared last is the one found under its name; it replaces an earlier
    type of the same name and base; and two declarations that differ in the
    name or in the base can be made in either order. *)
Theorem declare_compose c1 c2 reg :
  types_of (cls_base c2) (declare c2 (declare c1 reg)) !! cls_name c2 = Some c2 /\
  (cls_base c1 = cls_base c2 -> cls_name c1 = cls_name c2 ->
   declare c2 (declare c1 reg) = declare c2 reg) /\
  (cls_base c1 <> cls_base c2 \/ cls_name c1 <> cls_name c2 ->
   declare c2 (declare c1 reg) = declare c1 (declare c2 reg)).
Proof.
  split; [|split].
  - rewrite types_of_declare. by rewrite bool_decide_eq_true_2.
  - intros Hb Hn. unfold declare. rewrite <- Hb, <- Hn.
    destruct (cls_base c1); cbn; by rewrite insert_insert_eq.
  - intros Hne. unfold declare.
    destruct (cls_base c1) eqn:E1, (cls_base c2) eqn:E2; cbn; try done;
      (destruct Hne as [Hne|Hne]; [done|]); f_equal; by apply insert_insert_ne.
Qed.

Lemma declare_compose_witness :
  declare GGA (declare GSV empty_registry) = declare GSV (declare GGA empty_registry).
Proof.
  apply (proj2 (proj2 (declare_compose GSV GGA empty_registry))).
  right. vm_compute. discriminate.
Defined.

(** X4.  In a registry the metaclass built, every type is registered under
    its own name, in the registry of its own base. *)
Theorem declared_registry_keys reg base name cls :
  declared reg -> types_of base reg !! name = Some cls ->
  cls_name cls = name /\ cls_base cls = base.
Proof.
  intros Hreg. induction Hreg as [|c reg Hreg IH].
  - destruct base; cbn; by rewrite lookup_empty.
  - rewrite types_of_declare. case_bool_decide as Hb; [|done].
    destruct Hb as [-> ->]. by intros [= <-].
Qed.

Lemma declared_sample : declared sample_registry.
Proof. repeat apply declared_declare. apply declared_empty. Qed.

Lemma declared_registry_keys_witness : cls_name GGA = py "GGA" /\ cls_base GGA = Talker.
Proof.
  apply (declared_registry_keys sample_registry Talker (py "GGA") GGA declared_sample).
  vm_compute. reflexivity.
Defined.

(** ** The checksum as an algebraic operation *)

Lemma checksum_reduction s : checksum s = xor_reduction s.
Proof. unfold checksum. by rewrite fold_left_lxor, N.lxor_0_l. Qed.

Lemma checksum_app a b : checksum (a ++ b) = N.lxor (checksum a) (checksum b).
Proof.
  rewrite !checksum_reduction. induction a as [|c a IH]; simpl.
  - by rewrite N.lxor_0_l.
  - by rewrite IH, N.lxor_assoc.
Qed.

Lemma checksum_cons c s : checksum (c :: s) = N.lxor c (checksum s).
Proof. by rewrite !checksum_reduction. Qed.

(** X5.  The checksum of a concatenation is the exclusive or of the
    checksums; so the checksum does not depend on the order of the
    characters, and a string written twice has the checksum 0. *)
Theorem checksum_concat :
  (forall a b, checksum (a ++ b) = N.lxor (checksum a) (checksum b)) /\
  (forall a b, a ≡ₚ b -> checksum a = checksum b) /\
  (forall s, checksum (s ++ s) = 0).
Proof.
  split; [apply checksum_app|]. split.
  - intros a b Hp. induction Hp as [|c a b _ IH|c c' a|a b c' _ IH1 _ IH2].
    + done.
    + by rewrite !checksum_cons, IH.
    + rewrite !checksum_cons, <- !N.lxor_assoc. f_equal. apply N.lxor_comm.
    + by rewrite IH1.
  - intros s. rewrite checksum_app. apply N.lxor_nilpotent.
Qed.

Lemma checksum_concat_witness : checksum (py "GPGGA,12") = checksum (py "GPGGA,21").
Proof.
  apply (proj1 (proj2 checksum_concat)).
  change (py "GPGGA,12") with (py "GPGGA," ++ [ord "1"; ord "2"]).
  change (py "GPGGA,21") with (py "GPGGA," ++ [ord "2"; ord "1"]).
  apply Permutation_app_head, perm_swap.
Defined.

(** X6.  The checksum tells any two strings apart that differ in one
    character. *)
Theorem checksum_single_substitution a b c c' :
  checksum (a ++ c :: b) = checksum (a ++ c' :: b) <-> c = c'.
Proof.
  split; [|by intros ->].
  rewrite !checksum_app, !checksum_cons. intros H.
  apply (f_equal (N.lxor (checksum a))) in H.
  rewrite <- !N.lxor_assoc, !N.lxor_nilpotent, !N.lxor_0_l in H.
  apply (f_equal (fun x => N.lxor x (checksum b))) in H.
  by rewrite !N.lxor_assoc, !N.lxor_nilpotent, !N.lxor_0_r in H.
Qed.

(** ** The two hexadecimal digits *)

(** The number a sequence of digits writes in base 16, after [x]. *)
Lemma hex_value_digit d : d < 16 -> hex_value (hex_digit d) = Some d.
Proof.
  intros Hd. unfold hex_value, hex_digit. ord_values.
  destruct (N.ltb_spec d 10).
  - replace ((48 <=? 48 + d) && (48 + d <=? 57)) with true.
    + f_equal. lia.
    + symmetry. apply andb_true_iff. split; apply N.leb_le; lia.
  - replace ((48 <=? 65 + (d - 10)) && (65 + (d - 10) <=? 57)) with false.
    + replace ((65 <=? 65 + (d - 10)) && (65 + (d - 10) <=? 70)) with true.
      * f_equal. lia.
      * symmetry. apply andb_true_iff. split; apply N.leb_le; lia.
    + symmetry. apply andb_false_iff. right. apply N.leb_gt. lia.
Qed.

Lemma hex_value_bound c d : hex_value c = Some d -> d < 16.
Proof.
  unfold hex_value. ord_values.
  repeat match goal with
         | |- context [(?a <=? ?b) && (?c <=? ?d)] =>
             destruct (N.leb_spec a b); destruct (N.leb_spec c d); cbn [andb]
         end; intros [= <-]; lia.
Qed.

Lemma int16_aux_digits ds x :
  Forall (fun d => d < 16) ds ->
  int16_aux x (map hex_digit ds) = Some (fold_left (fun a d => 16 * a + d) ds x).
Proof.
  intros Hds. revert x. induction Hds as [|d ds Hd _ IH]; intros x; simpl; [done|].
  by rewrite hex_value_digit, IH.
Qed.

Lemma digits_aux_value fuel n acc :
  n < 2 ^ N.of_nat fuel ->
  exists ds,
    digits_aux 16 fuel n acc = ds ++ acc /\ Forall (fun d => d < 16) ds /\
    (forall x, fold_left (fun a d => 16 * a + d) ds x = x * 16 ^ N.of_nat (length ds) + n) /\
    (fuel <> 0%nat -> ds <> []).
Proof.
  revert n acc. induction fuel as [|fuel IH]; intros n acc Hn.
  - exists []. simpl in *. repeat split; try done. intros x. lia.
  - cbn [digits_aux]. destruct (N.eqb_spec (n / 16) 0) as [Hq|Hq].
    + exists [n mod 16]. repeat split; try done.
      * apply Forall_singleton. by apply N.mod_lt.
      * intros x. cbn. pose proof (N.div_mod n 16). lia.
    + destruct (IH (n / 16) (n mod 16 :: acc)) as (ds & Hds & Hlt & Hval & _).
      { apply N.Div0.div_lt_upper_bound.
        rewrite Nat2N.inj_succ, N.pow_succ_r' in Hn. lia. }
      exists (ds ++ [n mod 16]). repeat split.
      * by rewrite Hds, <- app_assoc.
      * apply Forall_app. split; [done|]. apply Forall_singleton. by apply N.mod_lt.
      * intros x. rewrite fold_left_app, Hval. cbn [fold_left].
        rewrite length_app, Nat.add_1_r, Nat2N.inj_succ, N.pow_succ_r'.
        pose proof (N.div_mod n 16). lia.
      * by destruct ds.
Qed.

Lemma digits_value n :
  exists ds,
    digits 16 n = ds /\ Forall (fun d => d < 16) ds /\ ds <> [] /\
    fold_left (fun a d => 16 * a + d) ds 0 = n.
Proof.
  unfold digits.
  destruct (digits_aux_value (S (N.to_nat (N.size n))) n []) as (ds & Hds & Hlt & Hval & Hne).
  { rewrite Nat2N.inj_succ, N2Nat.id, N.pow_succ_r'.
    pose proof (N.size_gt n). lia. }
  exists ds. rewrite Hds, app_nil_r. split; [done|]. split; [done|].
  split; [by apply Hne|]. rewrite Hval. lia.
Qed.

Lemma int16_aux_zeros k s : int16_aux 0 (replicate k (ord "0") ++ s) = int16_aux 0 s.
Proof. induction k as [|k IH]; [done|]. cbn. exact IH. Qed.

Lemma hex_digit_upper d :
  d < 16 ->
  between (ord "0") (ord "9") (hex_digit d) || between (ord "A") (ord "F") (hex_digit d)
  = true.
Proof.
  intros Hd. unfold hex_digit, between. ord_values.
  destruct (N.ltb_spec d 10); apply orb_true_iff; [left|right];
    apply andb_true_iff; split; apply N.leb_le; lia.
Qed.

Lemma int16_format_02X n : int16 (format_02X n) = Some n.
Proof.
  unfold format_02X. destruct (digits_value n) as (ds & -> & Hlt & Hne & Hval).
  cbn zeta. unfold int16.
  destruct (replicate _ _ ++ _) eqn:E.
  { apply app_eq_nil in E as [_ E]. by destruct ds. }
  rewrite <- E, int16_aux_zeros, int16_aux_digits by done. by rewrite Hval.
Qed.

(** X7.  ['%02X'] and [int(..., 16)] are inverse to each other.  What
    ['%02X'] prints of a number is digits and the letters A to F only, at
    least two of them, and exactly two just when the number is below 0x100;
    [int(..., 16)] reads the number back. *)
Theorem checksum_hex_round_trip n :
  int16 (format_02X n) = Some n /\
  forallb (fun c => between (ord "0") (ord "9") c || between (ord "A") (ord "F") c)
    (format_02X n) = true /\
  (2 <= length (format_02X n))%nat /\
  (length (format_02X n) = 2%nat <-> n < 0x100).
Proof.
  pose proof (int16_format_02X n) as Hint.
  split; [done|]. split; [|split].
  - unfold format_02X. destruct (digits_value n) as (ds & -> & Hlt & _ & _). cbn zeta.
    rewrite forallb_app. apply andb_true_iff. split.
    + induction (2 - _)%nat as [|k IH]; [done|]. simpl. by rewrite IH.
    + induction Hlt as [|d ds Hd _ IH]; [done|]. simpl.
      by rewrite hex_digit_upper, IH.
  - unfold format_02X. cbn zeta. rewrite length_app, length_replicate. lia.
  - split.
    + intros Hlen. destruct (format_02X n) as [|h1 [|h2 [|? ?]]]; try done.
      unfold int16 in Hint. cbn in Hint.
      destruct (hex_value h1) as [d1|] eqn:E1; [|done].
      destruct (hex_value h2) as [d2|] eqn:E2; [|done].
      apply hex_value_bound in E1, E2. injection Hint as <-. lia.
    + intros Hn. by rewrite format_02X_small.
Qed.

(** ** Splitting and joining the data *)

Lemma split_no_sep sep f : sep ∉ f -> split sep f = [f].
Proof.
  induction f as [|c f IH]; intros Hf; simpl; [done|].
  apply not_elem_of_cons in Hf as [Hc Hf].
  destruct (N.eqb_spec c sep) as [->|_]; [done|]. by rewrite IH.
Qed.

Lemma split_app_sep sep f r : sep ∉ f -> split sep (f ++ sep :: r) = f :: split sep r.
Proof.
  induction f as [|c f IH]; intros Hf; simpl.
  - by rewrite N.eqb_refl.
  - apply not_elem_of_cons in Hf as [Hc Hf].
    destruct (N.eqb_spec c sep) as [->|_]; [done|]. by rewrite IH.
Qed.

Lemma split_join sep l :
  l <> [] -> Forall (fun f => sep ∉ f) l -> split sep (join [sep] l) = l.
Proof.
  intros Hne Hl. induction Hl as [|f l Hf Hl IH]; [done|].
  destruct l as [|g l].
  - simpl. by apply split_no_sep.
  - change (join [sep] (f :: g :: l)) with (f ++ sep :: join [sep] (g :: l)).
    rewrite split_app_sep by done. f_equal. by apply IH.
Qed.

Lemma split_fields sep s : Forall (fun f => sep ∉ f) (split sep s).
Proof.
  induction s as [|c s IH]; simpl.
  - apply Forall_singleton. apply not_elem_of_nil.
  - destruct (N.eqb_spec c sep) as [->|Hc].
    + apply Forall_cons. split; [apply not_elem_of_nil|done].
    + destruct (split sep s) as [|f fs].
      * apply Forall_singleton, not_elem_of_cons. split; [done|apply not_elem_of_nil].
      * apply Forall_cons in IH as [Hf Hfs]. apply Forall_cons. split; [|done].
        apply not_elem_of_cons. by split.
Qed.

Lemma length_split sep s : length (split sep s) = S (count_char sep s).
Proof.
  unfold count_char. induction s as [|c s IH]; simpl; [done|].
  rewrite filter_cons. destruct (N.eqb_spec c sep) as [->|Hc].
  - rewrite decide_True by done. simpl. by rewrite IH.
  - rewrite decide_False by done. destruct (split sep s); simpl in *; lia.
Qed.

(** X8.  [data_str.split(',')] and [','.join(data)] are inverse to each
    other where they can be.  Joining what was split gives the string back;
    the fields hold no comma and are one more than the commas of the string;
    and splitting what was joined gives the fields back when there is at
    least one field and no field holds a comma. *)
Theorem split_join_round_trip sep :
  (forall s, join [sep] (split sep s) = s) /\
  (forall s, Forall (fun f => sep ∉ f) (split sep s)) /\
  (forall s, length (split sep s) = S (count_char sep s)) /\
  (forall l, l <> [] -> Forall (fun f => sep ∉ f) l -> split sep (join [sep] l) = l).
Proof.
  split; [apply join_split|]. split; [apply split_fields|].
  split; [apply length_split|apply split_join].
Qed.

Lemma split_join_round_trip_witness :
  split (ord ",") (join [ord ","] [py "184353.07"; py ""; py "S"])
  = [py "184353.07"; py ""; py "S"].
Proof.
  apply (proj2 (proj2 (proj2 (split_join_round_trip (ord ","))))).
  - done.
  - repeat (apply Forall_cons; split); try apply Forall_nil_2;
      vm_compute; intros H; repeat (apply elem_of_cons in H as [H|H]; [done|]);
      by apply elem_of_nil in H.
Defined.

(** ** What [parse] raises *)

Section Errors.

Context (rt : runtime).

Lemma scan_body_short s : (length s < 4)%nat -> scan_body rt s = None.
Proof.
  intros Hlen. destruct s as [|c1 [|c2 [|c3 [|c4 s]]]]; simpl in Hlen; try lia; reflexivity.
Qed.

Lemma scan_line_short s : (length s < 4)%nat -> scan_line rt s = None.
Proof.
  intros Hlen. destruct s as [|c s]; [done|]. unfold scan_line.
  destruct (is_char "$" c); apply scan_body_short; simpl in *; lia.
Qed.

(** The identifier of a match begins with a word character. *)
Lemma scan_body_first c s : is_word rt c = false -> scan_body rt (c :: s) = None.
Proof.
  intros Hc. destruct (scan_body rt (c :: s)) as [m|] eqn:E; [|done].
  destruct (scan_body_cases rt _ _ E) as (n & ps & k & d & cs & _ & Hps & Hk & _ & _ & Hw).
  destruct (winner_first_char rt n ps _ _ Hw Hps) as (c' & id' & Hid & Hc').
  destruct k; [done|]. simpl in Hid. injection Hid as <- _. congruence.
Qed.

Lemma ascii_isspace_space c :
  ascii_isspace c = true ->
  is_space rt c = true /\ is_word rt c = false /\ is_char "$" c = false.
Proof.
  intros Hc.
  assert (is_ascii c = true) as Ha.
  { revert Hc. unfold ascii_isspace, between, is_ascii. split_comparisons. }
  assert (is_space rt c = true) as Hs by (unfold is_space; by rewrite Ha).
  split; [done|]. split.
  - destruct (is_word rt c) eqn:E; [|done]. by rewrite (word_not_space rt c Ha E) in Hs.
  - revert Hc. unfold ascii_isspace, between, is_char.
    change (ord "$") with 36. split_comparisons.
Qed.

Lemma scan_line_blank s : forallb ascii_isspace s = true -> scan_line rt s = None.
Proof.
  destruct s as [|c s]; [done|]. simpl. intros [Hc _]%andb_true_iff.
  destruct (ascii_isspace_space c Hc) as (_ & Hw & ->). by apply scan_body_first.
Qed.

Lemma parse_unmatched reg line check gsv grs :
  re_match (sentence_re rt) line = None ->
  parse rt reg line check gsv grs
  = Raise {| exn_type := ParseError; exn_message := py "could not parse data";
             exn_data := VStr line |}.
Proof. intros H. unfold parse. by rewrite H. Qed.

Lemma ProprietarySentence_init_plain cls manufacturer data :
  name_to_idx cls !! py "manufacturer" = None -> name_to_idx cls !! py "data" = None ->
  exists self, ProprietarySentence_init rt cls manufacturer data = Ok self.
Proof.
  intros H1 H2. unfold ProprietarySentence_init.
  rewrite setattr_plain by done. cbn [bind]. rewrite setattr_plain by done. eauto.
Qed.

Lemma check_checksum_raise line m nmea data check e :
  re_match (sentence_re rt) line = Some m ->
  check_checksum m nmea data check = Raise e ->
  exn_type e = ChecksumError /\ exn_data e = VStrs data /\ check = true.
Proof.
  intros Hm. destruct (sentence_re_groups rt line m Hm) as (_ & _ & _ & _ & _ & Hcs).
  unfold check_checksum. destruct (m !! "checksum"%string) as [h|].
  - destruct Hcs as (h1 & h2 & -> & Hh1 & Hh2).
    destruct (int16_hex_pair h1 h2 Hh1 Hh2) as (n & ->).
    destruct (negb _); [|done]. destruct check; [|done]. by intros [= <-].
  - destruct check; [|done]. by intros [= <-].
Qed.

End Errors.

(** X9.  A line of fewer than four characters, and a line of blanks only,
    is no sentence: [parse] raises ParseError, with the message
    'could not parse data' and the line. *)
Theorem parse_short_or_blank rt reg line check gsv grs :
  (length line < 4)%nat \/ forallb ascii_isspace line = true ->
  parse rt reg line check gsv grs
  = Raise {| exn_type := ParseError; exn_message := py "could not parse data";
             exn_data := VStr line |}.
Proof.
  intros H. apply parse_unmatched. rewrite re_match_sentence_re.
  apply star_none. intros pre s' -> Hpre. destruct H as [H|H].
  - apply scan_line_short. rewrite length_app in H. lia.
  - apply scan_line_blank. rewrite forallb_app in H. by apply andb_true_iff in H as [_ H].
Qed.

Lemma parse_short_or_blank_witness :
  parse sample_runtime sample_registry [] true false false
  = Raise {| exn_type := ParseError; exn_message := py "could not parse data";
             exn_data := VStr [] |}.
Proof. apply parse_short_or_blank. left. simpl. lia. Defined.

(** X10.  With registries whose types have no field named as a constructor
    attribute, and the GSV and GRS types registered when their flags are set,
    every exception [parse] raises is a ParseError: ParseError itself or
    SentenceTypeError, with the line, or ChecksumError, with the list of the
    data fields and only when [check] is set. *)
Theorem parse_exceptions rt reg line check gsv grs e :
  registry_plain reg ->
  (gsv = true -> is_Some (talker_types reg !! py "GSV")) ->
  (grs = true -> is_Some (talker_types reg !! py "GRS")) ->
  parse rt reg line check gsv grs = Raise e ->
  issubclass (exn_type e) ParseError = true /\
  ((exn_type e = ParseError /\ exn_data e = VStr line) \/
   (exn_type e = SentenceTypeError /\ exn_data e = VStr line) \/
   (exn_type e = ChecksumError /\ check = true /\
    exists d, exn_data e = VStrs (split (ord ",") d))).
Proof.
  intros [Hplain_t Hplain_p] Hgsv Hgrs Hparse.
  assert ((exn_type e = ParseError /\ exn_data e = VStr line) \/
          (exn_type e = SentenceTypeError /\ exn_data e = VStr line) \/
          (exn_type e = ChecksumError /\ check = true /\
           exists d, exn_data e = VStrs (split (ord ",") d))) as H.
  { destruct (re_match (sentence_re rt) line) as [m|] eqn:Hm.
    2:{ rewrite parse_unmatched in Hparse by done. injection Hparse as <-. by left. }
    destruct (sentence_re_groups rt line m Hm) as (id & d & Hid & Hd & _).
    rewrite (parse_matched rt reg line check gsv grs m id d Hm Hid Hd) in Hparse.
    apply bind_Raise in Hparse as [Hcheck|(_ & _ & Hshape)].
    { apply (check_checksum_raise rt line) in Hcheck as (? & ? & ?); [|done].
      right. right. eauto. }
    unfold parse_by_shape in Hshape.
    destruct (re_match (talker_re rt) (upper rt id)) as [tm|] eqn:Etm.
    - destruct (talker_re_inv rt _ _ Etm)
        as (c1 & c2 & c3 & c4 & c5 & z & _ & _ & _ & Ht & Hs).
      destruct (talker_types reg !! [c3; c4; c5]) as [cls|] eqn:Ecls.
      + rewrite (parse_talker_registered rt reg line _ d gsv grs tm _ _ cls Ht Hs Ecls)
          in Hshape.
        by rewrite TalkerSentence_init_plain in Hshape by by eapply Hplain_t.
      + rewrite (parse_talker_unregistered rt reg line _ _ gsv grs tm _ _ Ht Hs Ecls)
          in Hshape.
        destruct (bool_decide ([c3; c4; c5] = py "GSV") && gsv) eqn:E1.
        { apply andb_true_iff in E1 as [E1%bool_decide_eq_true ->].
          rewrite E1 in Ecls. destruct (Hgsv eq_refl) as [? ?]. congruence. }
        destruct (bool_decide ([c3; c4; c5] = py "GRS") && grs) eqn:E2.
        { apply andb_true_iff in E2 as [E2%bool_decide_eq_true ->].
          rewrite E2 in Ecls. destruct (Hgrs eq_refl) as [? ?]. congruence. }
        injection Hshape as <-. right. by left.
    - assert (match re_match (proprietary_re rt) (upper rt id) with
              | Some proprietary_match =>
                  manufacturer <- group proprietary_match "manufacturer";;
                  let cls := default ProprietarySentence
                               (proprietary_types reg !! manufacturer) in
                  ProprietarySentence_init rt cls manufacturer (split (ord ",") d)
              | None =>
                  raise_parse_error ParseError
                    (py "could not parse sentence type: " ++ py_repr rt (upper rt id))
                    (VStr line)
              end = Raise e ->
              exn_type e = ParseError /\ exn_data e = VStr line) as Hprop.
      { destruct (re_match (proprietary_re rt) (upper rt id)) as [pm|] eqn:Epm.
        - destruct (proprietary_re_inv rt _ _ Epm) as (p1 & p2 & p3 & z & _ & _ & _ & Hman).
          unfold group. rewrite Hman. cbn [bind]. intros Hinit. exfalso.
          destruct (proprietary_types reg !! [p1; p2; p3]) as [cls|] eqn:Ecls; cbn in Hinit.
          + destruct (Hplain_p _ _ Ecls) as [H1 H2].
            destruct (ProprietarySentence_init_plain rt cls [p1; p2; p3]
                        (split (ord ",") d) H1 H2) as (self & Hself).
            congruence.
          + by rewrite ProprietarySentence_init_generic in Hinit.
        - by intros [= <-]. }
      destruct (re_match (query_re rt) (upper rt id)) as [qm|] eqn:Eqm;
        [|left; by apply Hprop].
      destruct d as [|c d]; [|left; by apply Hprop].
      destruct (query_re_inv rt _ _ Eqm)
        as (q1 & q2 & q3 & q4 & q5 & q6 & q7 & z & _ & _ & _ & Ht & Hl & Hs).
      unfold group in Hshape. rewrite Ht, Hl, Hs in Hshape. cbn [bind] in Hshape.
      by rewrite QuerySentence_init_generic in Hshape. }
  split; [|done].
  destruct H as [[-> _]|[[-> _]|[-> _]]]; reflexivity.
Qed.

Lemma registry_plain_sample : registry_plain sample_registry.
Proof.
  split; intros name cls; unfold sample_registry, declare; cbn.
  - intros H.
    destruct (decide (name = py "GGA")) as [->|N1].
    { rewrite lookup_insert_eq in H. injection H as <-.
      repeat split; vm_compute; reflexivity. }
    rewrite lookup_insert_ne in H by done.
    destruct (decide (name = py "GSV")) as [->|N2].
    { rewrite lookup_insert_eq in H. injection H as <-.
      repeat split; vm_compute; reflexivity. }
    rewrite lookup_insert_ne in H by done.
    destruct (decide (name = py "GRS")) as [->|N3].
    { rewrite lookup_insert_eq in H. injection H as <-.
      repeat split; vm_compute; reflexivity. }
    rewrite lookup_insert_ne in H by done. by rewrite lookup_empty in H.
  - by rewrite lookup_empty.
Qed.

Lemma parse_exceptions_witness :
  issubclass SentenceTypeError ParseError = true /\
  ((SentenceTypeError = ParseError /\ VStr (py "$GPXXX,1") = VStr (py "$GPXXX,1")) \/
   (SentenceTypeError = SentenceTypeError /\ VStr (py "$GPXXX,1") = VStr (py "$GPXXX,1")) \/
   (SentenceTypeError = ChecksumError /\ false = true /\
    exists d, VStr (py "$GPXXX,1") = VStrs (split (ord ",") d))).
Proof.
  apply (parse_exceptions sample_runtime sample_registry (py "$GPXXX,1") false true true
           {| exn_type := SentenceTypeError;
              exn_message := py "Unknown sentence type GPXXX,";
              exn_data := VStr (py "$GPXXX,1") |}).
  - apply registry_plain_sample.
  - intros _. eexists. vm_compute. reflexivity.
  - intros _. eexists. vm_compute. reflexivity.
  - vm_compute. reflexivity.
Defined.

(** X11.  [check] only adds the checksum test: with [check] set, [parse]
    raises ChecksumError or does exactly what it does without. *)
Theorem parse_check_refines rt reg line gsv grs :
  parse rt reg line true gsv grs = parse rt reg line false gsv grs \/
  raises (parse rt reg line true gsv grs) ChecksumError.
Proof.
  destruct (re_match (sentence_re rt) line) as [m|] eqn:Hm.
  2:{ left. by rewrite !parse_unmatched. }
  destruct (sentence_re_groups rt line m Hm) as (id & d & Hid & Hd & _).
  rewrite !(parse_matched rt reg line _ gsv grs m id d Hm Hid Hd).
  rewrite (check_checksum_passes rt line m id d _ false Hm Hid Hd) by by left.
  destruct (check_checksum m (id ++ d) (split (ord ",") d) true) as [[]|e] eqn:E.
  - by left.
  - right. apply (check_checksum_raise rt line) in E as (? & _); [|done]. by exists e.
Qed.

(** X12.  [GSV_signal_id] is read for a GSV sentence only, and [GRS_ids] for
    a GRS sentence only: on any other line, [parse] does the same whatever
    the flag. *)
Theorem parse_flags_frame rt reg line check gsv grs :
  (sentence_code rt line <> Some (py "GSV") ->
   parse rt reg line check gsv grs = parse rt reg line check false grs) /\
  (sentence_code rt line <> Some (py "GRS") ->
   parse rt reg line check gsv grs = parse rt reg line check gsv false).
Proof.
  unfold sentence_code.
  destruct (re_match (sentence_re rt) line) as [m|] eqn:Hm.
  2:{ by rewrite !parse_unmatched. }
  destruct (sentence_re_groups rt line m Hm) as (id & d & Hid & Hd & _).
  rewrite !(parse_matched rt reg line check _ _ m id d Hm Hid Hd).
  cbn [mbind option_bind]. rewrite Hid. cbn [mbind option_bind].
  unfold parse_by_shape.
  destruct (re_match (talker_re rt) (upper rt id)) as [tm|] eqn:Etm; [|done].
  cbn [mbind option_bind].
  destruct (talker_re_inv rt _ _ Etm)
    as (c1 & c2 & c3 & c4 & c5 & z & _ & _ & _ & Ht & Hs).
  rewrite Hs. unfold parse_talker, group. rewrite Ht, Hs. cbn [bind].
  split; intros Hne.
  - rewrite (bool_decide_eq_false_2 ([c3; c4; c5] = py "GSV")) by congruence. done.
  - rewrite (bool_decide_eq_false_2 ([c3; c4; c5] = py "GRS")) by congruence.
    by rewrite !andb_false_l.
Qed.

Lemma parse_flags_frame_witness :
  parse sample_runtime sample_registry (py "$GPGGA,184353.07,1929.045,S") false true true
  = parse sample_runtime sample_registry (py "$GPGGA,184353.07,1929.045,S") false false true.
Proof.
  apply (proj1 (parse_flags_frame sample_runtime sample_registry
                  (py "$GPGGA,184353.07,1929.045,S") false true true)).
  vm_compute. discriminate.
Defined.

(** ** The shapes of a type identifier *)

Section Shapes.

Context (rt : runtime).

Lemma query_re_intro c1 c2 c3 c4 c5 c6 c7 :
  forallb (is_word rt) [c1; c2; c3; c4; c5; c6; c7] = true ->
  re_match (query_re rt) [c1; c2; c3; c4; ord "Q"; ord ","; c5; c6; c7]
  = Some (<["sentence"%string := [c5; c6; c7]]>
            (<["listener"%string := [c3; c4]]> (<["talker"%string := [c1; c2]]> ∅))).
Proof.
  cbn [forallb]. rewrite !andb_true_iff. intros (H1 & H2 & H3 & H4 & H5 & H6 & H7 & _).
  unfold re_match, query_re, w. cbn -[N.eqb ord consumed at_end].
  by rewrite H1, H2, H3, H4, H5, H6, H7.
Qed.

Lemma proprietary_re_intro c1 c2 c3 :
  forallb (is_word rt) [c1; c2; c3] = true ->
  re_match (proprietary_re rt) [ord "P"; c1; c2; c3]
  = Some (<["manufacturer"%string := [c1; c2; c3]]> ∅).
Proof.
  cbn [forallb]. rewrite !andb_true_iff. intros (H1 & H2 & H3 & _).
  unfold re_match, proprietary_re, w. cbn -[N.eqb ord consumed at_end].
  by rewrite H1, H2, H3.
Qed.

(** A letter read without regard to case is the letter, once in upper
    case. *)
Lemma is_char_i_uc a c : is_char_i a c = true -> ascii_upper c = ord a.
Proof. unfold is_char_i. intros [H _]%andb_true_iff. by apply N.eqb_eq in H. Qed.

Lemma is_comma_uc c : is_char "," c = true -> ascii_upper c = ord ",".
Proof. unfold is_char. intros ->%N.eqb_eq. reflexivity. Qed.

Lemma is_word_uc c : is_word rt c = true -> is_word rt (ascii_upper c) = true.
Proof. by rewrite is_word_upper. Qed.

Lemma talker_classes_uc id :
  matches_classes (talker_classes rt) id = true ->
  exists c1 c2 c3 c4 c5,
    uc id = [c1; c2; c3; c4; c5; ord ","] /\
    forallb (is_word rt) [c1; c2; c3; c4; c5] = true.
Proof.
  intros Hps. pose proof (matches_classes_length _ _ Hps) as Hlen. revert Hps.
  destruct id as [|a1 [|a2 [|a3 [|a4 [|a5 [|a6 [|? ?]]]]]]]; try (cbn in Hlen; lia).
  cbn [matches_classes talker_classes]. rewrite !andb_true_iff.
  intros (H1 & H2 & H3 & H4 & H5 & H6 & _).
  exists (ascii_upper a1), (ascii_upper a2), (ascii_upper a3), (ascii_upper a4),
    (ascii_upper a5).
  cbn [map forallb]. rewrite (is_comma_uc a6 H6), !is_word_uc by done. done.
Qed.

Lemma query_classes_uc id :
  matches_classes (query_classes rt) id = true ->
  exists c1 c2 c3 c4 c5 c6 c7,
    uc id = [c1; c2; c3; c4; ord "Q"; ord ","; c5; c6; c7] /\
    forallb (is_word rt) [c1; c2; c3; c4; c5; c6; c7] = true.
Proof.
  intros Hps. pose proof (matches_classes_length _ _ Hps) as Hlen. revert Hps.
  destruct id as [|a1 [|a2 [|a3 [|a4 [|a5 [|a6 [|a7 [|a8 [|a9 [|? ?]]]]]]]]]];
    try (cbn in Hlen; lia).
  cbn [matches_classes query_classes]. rewrite !andb_true_iff.
  intros (H1 & H2 & H3 & H4 & H5 & H6 & H7 & H8 & H9 & _).
  exists (ascii_upper a1), (ascii_upper a2), (ascii_upper a3), (ascii_upper a4),
    (ascii_upper a7), (ascii_upper a8), (ascii_upper a9).
  cbn [map forallb].
  rewrite (is_comma_uc a6 H6), (is_char_i_uc "Q" a5 H5), !is_word_uc by done. done.
Qed.

Lemma proprietary_classes_uc id :
  matches_classes (proprietary_classes rt) id = true ->
  exists c1 c2 c3,
    uc id = [ord "P"; c1; c2; c3] /\ forallb (is_word rt) [c1; c2; c3] = true.
Proof.
  intros Hps. pose proof (matches_classes_length _ _ Hps) as Hlen. revert Hps.
  destruct id as [|a1 [|a2 [|a3 [|a4 [|? ?]]]]]; try (cbn in Hlen; lia).
  cbn [matches_classes proprietary_classes]. rewrite !andb_true_iff.
  intros (H1 & H2 & H3 & H4 & _).
  exists (ascii_upper a2), (ascii_upper a3), (ascii_upper a4).
  cbn [map forallb]. rewrite (is_char_i_uc "P" a1 H1), !is_word_uc by done. done.
Qed.

(** The alternative of the grammar that matched, and the pattern of the
    dispatcher that matches the identifier in upper case. *)
Lemma winner_shape n ps s id :
  winner rt n ps s -> matches_classes ps id = true ->
  (ps = talker_classes rt /\ length id = 6%nat /\
   exists c1 c2 c3 c4 c5,
     uc id = [c1; c2; c3; c4; c5; ord ","] /\
     re_match (talker_re rt) (uc id)
     = Some (<["sentence"%string := [c3; c4; c5]]> (<["talker"%string := [c1; c2]]> ∅))) \/
  (ps = query_classes rt /\ length id = 9%nat /\
   exists c1 c2 c3 c4 c5 c6 c7,
     uc id = [c1; c2; c3; c4; ord "Q"; ord ","; c5; c6; c7] /\
     re_match (query_re rt) (uc id)
     = Some (<["sentence"%string := [c5; c6; c7]]>
               (<["listener"%string := [c3; c4]]> (<["talker"%string := [c1; c2]]> ∅)))) \/
  (ps = proprietary_classes rt /\ length id = 4%nat /\
   exists c1 c2 c3,
     uc id = [ord "P"; c1; c2; c3] /\
     re_match (proprietary_re rt) (uc id)
     = Some (<["manufacturer"%string := [c1; c2; c3]]> ∅)).
Proof.
  intros Hw Hps. pose proof (matches_classes_length _ _ Hps) as Hlen.
  destruct Hw as [[_ ->]|[(_ & -> & _)|(_ & -> & _)]].
  - right. right. split; [done|]. split; [done|].
    destruct (proprietary_classes_uc id Hps) as (c1 & c2 & c3 & -> & Hw).
    exists c1, c2, c3. split; [done|]. by apply proprietary_re_intro.
  - right. left. split; [done|]. split; [done|].
    destruct (query_classes_uc id Hps) as (c1 & c2 & c3 & c4 & c5 & c6 & c7 & -> & Hw).
    exists c1, c2, c3, c4, c5, c6, c7. split; [done|]. by apply query_re_intro.
  - left. split; [done|]. split; [done|].
    destruct (talker_classes_uc id Hps) as (c1 & c2 & c3 & c4 & c5 & -> & Hw).
    exists c1, c2, c3, c4, c5. split; [done|]. by apply talker_re_intro.
Qed.

Lemma shapes_by_length s :
  match re_match (talker_re rt) s, re_match (query_re rt) s,
        re_match (proprietary_re rt) s with
  | Some _, None, None | None, Some _, None | None, None, Some _ | None, None, None => True
  | _, _, _ => False
  end.
Proof.
  destruct (re_match (talker_re rt) s) eqn:Et;
    destruct (re_match (query_re rt) s) eqn:Eq;
    destruct (re_match (proprietary_re rt) s) eqn:Ep; try done;
    try apply talker_re_length in Et; try apply query_re_length in Eq;
    try apply proprietary_re_length in Ep; lia.
Qed.

End Shapes.

(** X13.  The three identifier patterns of the dispatcher exclude one
    another: no string matches two of [talker_re], [query_re] and
    [proprietary_re], so the order [parse] tries them in decides nothing. *)
Theorem identifier_shapes_exclusive rt s :
  match re_match (talker_re rt) s, re_match (query_re rt) s,
        re_match (proprietary_re rt) s with
  | Some _, None, None | None, Some _, None | None, None, Some _ | None, None, None => True
  | _, _, _ => False
  end.
Proof.
  destruct (re_match (talker_re rt) s) eqn:Et;
    destruct (re_match (query_re rt) s) eqn:Eq;
    destruct (re_match (proprietary_re rt) s) eqn:Ep; try done;
    try apply talker_re_length in Et; try apply query_re_length in Eq;
    try apply proprietary_re_length in Ep; lia.
Qed.

(** X14.  The grammar and the dispatcher agree on ASCII identifiers.  The
    identifier of a line [sentence_re] matches has 6, 9 or 4 characters and,
    in upper case, matches [talker_re], [query_re] or [proprietary_re]
    accordingly.  So the ParseError 'could not parse sentence type' at the
    end of [parse] is left to one case: a query with data. *)
Theorem matched_identifier_shape rt reg line check gsv grs m id d :
  re_match (sentence_re rt) line = Some m ->
  m !! "sentence_type"%string = Some id -> m !! "data"%string = Some d ->
  forallb is_ascii id = true ->
  ((length id = 6%nat /\ is_Some (re_match (talker_re rt) (upper rt id))) \/
   (length id = 9%nat /\ is_Some (re_match (query_re rt) (upper rt id))) \/
   (length id = 4%nat /\ is_Some (re_match (proprietary_re rt) (upper rt id)))) /\
  (raises (parse rt reg line check gsv grs) ParseError ->
   is_Some (re_match (query_re rt) (upper rt id)) /\ d <> []).
Proof.
  intros Hm Hid Hd Hascii.
  destruct (sentence_re_matched rt line m Hm)
    as (ws & dollar & id0 & r & n & ps & d0 & cs & -> & Hws & Hdollar & -> & Hps & Hlen & Hr & Hw).
  destruct (winner_lookup rt n ps _ id0 d0 cs Hw) as (_ & Hd0 & Hid0 & _).
  rewrite Hid0 in Hid. injection Hid as ->. rewrite Hd0 in Hd. injection Hd as ->.
  rewrite (upper_ascii rt id Hascii).
  pose proof (winner_shape rt n ps _ id Hw Hps) as Hshape.
  split.
  { destruct Hshape as [(_ & Hl & ? & ? & ? & ? & ? & _ & H)
                       |[(_ & Hl & ? & ? & ? & ? & ? & ? & ? & _ & H)
                        |(_ & Hl & ? & ? & ? & _ & H)]];
      [left|right; left|right; right]; (split; [done|]); rewrite H; eauto. }
  intros (e & Hparse & He).
  rewrite (parse_matched rt reg _ check gsv grs _ id d Hm Hid0 Hd0) in Hparse.
  rewrite (upper_ascii rt id Hascii) in Hparse.
  apply bind_Raise in Hparse as [Hcheck|(_ & _ & Hparse)].
  { apply (check_checksum_raise rt _ _ _ _ _ _ Hm) in Hcheck as (? & _). congruence. }
  unfold parse_by_shape in Hparse.
  destruct Hshape as [(_ & _ & c1 & c2 & c3 & c4 & c5 & _ & Ht)
                     |[(_ & _ & c1 & c2 & c3 & c4 & c5 & c6 & c7 & _ & Hq)
                      |(_ & _ & c1 & c2 & c3 & _ & Hp)]].
  - rewrite Ht in Hparse. exfalso.
    eapply (never_parse_talker rt ParseError); [| |exact Hparse|exact He]; done.
  - pose proof (shapes_by_length rt (uc id)) as Hex.
    destruct (query_re_inv rt _ _ Hq)
      as (q1 & q2 & q3 & q4 & q5 & q6 & q7 & z & _ & _ & _ & Hqt & Hql & Hqs).
    rewrite Hq in *.
    destruct (re_match (talker_re rt) (uc id)), (re_match (proprietary_re rt) (uc id));
      try done.
    split; [done|]. intros ->. unfold group in Hparse.
    rewrite Hqt, Hql, Hqs in Hparse. cbn [bind] in Hparse.
    by rewrite QuerySentence_init_generic in Hparse.
  - pose proof (shapes_by_length rt (uc id)) as Hex.
    destruct (proprietary_re_inv rt _ _ Hp) as (p1 & p2 & p3 & z & _ & _ & _ & Hman).
    rewrite Hp in *.
    destruct (re_match (talker_re rt) (uc id)), (re_match (query_re rt) (uc id));
      try done.
    exfalso. unfold group in Hparse. rewrite Hman in Hparse. cbn [bind] in Hparse.
    eapply (never_ProprietarySentence_init rt ParseError); [|exact Hparse|exact He]; done.
Qed.

Lemma matched_identifier_shape_witness :
  is_Some (re_match (query_re sample_runtime) (upper sample_runtime (py "ccgpq,gga")))
  /\ py ",1" <> [].
Proof.
  apply (matched_identifier_shape sample_runtime sample_registry (py "$ccgpq,gga,1")
           false false false
           (match_groups "4" (py "ccgpq,gga") (py ",1") None) (py "ccgpq,gga") (py ",1")).
  - vm_compute. reflexivity.
  - vm_compute. reflexivity.
  - vm_compute. reflexivity.
  - vm_compute. reflexivity.
  - eexists. split; [vm_compute; reflexivity|reflexivity].
Defined.

(** ** Queries, proprietary sentences and the data *)

Section Objects.

Context (rt : runtime).

Lemma render_query_object talker listener sentence_type :
  render rt (query_object talker listener sentence_type) true true NoNewline
  = Ok (py "$" ++ (talker ++ listener ++ py "Q," ++ sentence_type ++ py ",")
        ++ py "*"
        ++ format_02X (checksum (talker ++ listener ++ py "Q," ++ sentence_type ++ py ","))).
Proof.
  unfold render, identifier, getattr, query_object. cbn [type_of attrs QuerySentence cls_base].
  rewrite (lookup_insert_ne _ (py "data") (py "talker")) by done.
  rewrite (lookup_insert_ne _ (py "sentence_type") (py "talker")) by done.
  rewrite (lookup_insert_ne _ (py "listener") (py "talker")) by done.
  rewrite lookup_insert_eq. cbn [bind].
  rewrite (lookup_insert_ne _ (py "data") (py "listener")) by done.
  rewrite (lookup_insert_ne _ (py "sentence_type") (py "listener")) by done.
  rewrite lookup_insert_eq. cbn [bind].
  rewrite (lookup_insert_ne _ (py "data") (py "sentence_type")) by done.
  rewrite lookup_insert_eq. cbn [bind].
  rewrite lookup_insert_eq. cbn [bind join_data py_str join].
  by rewrite !app_nil_r.
Qed.

Lemma render_proprietary_object manufacturer data :
  render rt (proprietary_object manufacturer data) true true NoNewline
  = Ok (py "$" ++ (py "P" ++ manufacturer) ++ join (py ",") data
        ++ py "*" ++ format_02X (checksum ((py "P" ++ manufacturer) ++ join (py ",") data))).
Proof.
  unfold render, identifier, getattr, proprietary_object.
  cbn [type_of attrs ProprietarySentence cls_base].
  rewrite (lookup_insert_ne _ (py "data") (py "manufacturer")) by done.
  rewrite lookup_insert_eq. cbn [bind].
  rewrite lookup_insert_eq. cbn [bind join_data py_str].
  by rewrite <- !app_assoc.
Qed.

Lemma ProprietarySentence_init_Ok cls manufacturer data self :
  ProprietarySentence_init rt cls manufacturer data = Ok self ->
  self = {| type_of := cls;
            attrs := <[py "data" := VStrs data]>
                       (<[py "manufacturer" := VStr manufacturer]> ∅);
            init_kwargs := ∅ |}.
Proof.
  unfold ProprietarySentence_init.
  intros (s1 & H1 & H2)%bind_Ok.
  apply setattr_no_data in H1 as [_ ->]; [|done].
  apply setattr_no_data in H2 as [_ ->]; [|done].
  done.
Qed.

End Objects.

(** X15.  Every line of the query shape with no data, that passes the
    checksum test, parses to an object of QuerySentence itself, whatever the
    registries hold, with the talker, the listener and the sentence code of
    the upper-cased identifier and an empty list of data.  Its text ends the
    identifier with a comma. *)
Theorem parse_query rt reg line check gsv grs m id qm :
  re_match (sentence_re rt) line = Some m ->
  m !! "sentence_type"%string = Some id -> m !! "data"%string = Some [] ->
  checksum_passes m check ->
  re_match (query_re rt) (upper rt id) = Some qm ->
  exists talker listener sentence,
    qm !! "talker"%string = Some talker /\ qm !! "listener"%string = Some listener /\
    qm !! "sentence"%string = Some sentence /\
    parse rt reg line check gsv grs = Ok (query_object talker listener sentence) /\
    attrs (query_object talker listener sentence) !! py "data" = Some (VStrs []) /\
    to_str rt (query_object talker listener sentence)
    = Ok (py "$" ++ talker ++ listener ++ py "Q," ++ sentence ++ py ",*"
          ++ format_02X (checksum (talker ++ listener ++ py "Q," ++ sentence ++ py ","))).
Proof.
  intros Hm Hid Hd Hpass Hqm.
  destruct (query_re_inv rt _ _ Hqm)
    as (q1 & q2 & q3 & q4 & q5 & q6 & q7 & z & _ & _ & _ & Ht & Hl & Hs).
  exists [q1; q2], [q3; q4], [q5; q6; q7]. split; [done|]. split; [done|]. split; [done|].
  split; [|split; [done|]].
  - rewrite (parse_matched rt reg line check gsv grs m id [] Hm Hid Hd).
    rewrite (check_checksum_passes rt line m id [] _ check Hm Hid Hd Hpass). cbn [bind].
    unfold parse_by_shape.
    pose proof (shapes_by_length rt (upper rt id)) as Hex. rewrite Hqm in *.
    destruct (re_match (talker_re rt) (upper rt id)); [by destruct (re_match _ _)|].
    unfold group. rewrite Ht, Hl, Hs. cbn [bind]. apply QuerySentence_init_generic.
  - unfold to_str. rewrite render_query_object. by rewrite <- !app_assoc.
Qed.

Lemma parse_query_witness :
  exists talker listener sentence,
    (<["sentence"%string := py "GGA"]>
       (<["listener"%string := py "GP"]> (<["talker"%string := py "CC"]> ∅)) : groups)
      !! "talker"%string = Some talker /\
    (<["sentence"%string := py "GGA"]>
       (<["listener"%string := py "GP"]> (<["talker"%string := py "CC"]> ∅)) : groups)
      !! "listener"%string = Some listener /\
    (<["sentence"%string := py "GGA"]>
       (<["listener"%string := py "GP"]> (<["talker"%string := py "CC"]> ∅)) : groups)
      !! "sentence"%string = Some sentence /\
    parse sample_runtime sample_registry (py "ccgpq,gga*2B") true false false
    = Ok (query_object talker listener sentence) /\
    attrs (query_object talker listener sentence) !! py "data" = Some (VStrs []) /\
    to_str sample_runtime (query_object talker listener sentence)
    = Ok (py "$" ++ talker ++ listener ++ py "Q," ++ sentence ++ py ",*"
          ++ format_02X (checksum (talker ++ listener ++ py "Q," ++ sentence ++ py ","))).
Proof.
  apply (parse_query sample_runtime sample_registry (py "ccgpq,gga*2B") true false false
           (match_groups "4" (py "ccgpq,gga") [] (Some (py "2B"))) (py "ccgpq,gga")).
  - vm_compute. reflexivity.
  - vm_compute. reflexivity.
  - vm_compute. reflexivity.
  - right. exists (py "2B"), (py "ccgpq,gga"). repeat split; vm_compute; reflexivity.
  - vm_compute. reflexivity.
Defined.

(** ** The anatomy of a matched line, and the data of a sentence *)

Section Lines.

Context (rt : runtime).

Lemma forallb_drop {A} (p : A -> bool) k s :
  forallb p s = true -> forallb p (drop k s) = true.
Proof.
  intros H. rewrite <- (take_drop k s), forallb_app in H.
  by apply andb_true_iff in H as [_ H].
Qed.

Lemma winner_plain n ps s : winner rt n ps s -> Forall plain_class ps.
Proof.
  intros [[_ ->]|[(_ & -> & _)|(_ & -> & _)]];
    [apply plain_proprietary|apply plain_query|apply plain_talker].
Qed.

Lemma winner_length n ps s :
  winner rt n ps s -> (length ps = 4 \/ length ps = 9 \/ length ps = 6)%nat.
Proof. intros [[_ ->]|[(_ & -> & _)|(_ & -> & _)]]; cbn; auto. Qed.

(** An identifier that begins with P is read by the first alternative. *)
Lemma winner_leading_P n ps id r d cs c id' :
  winner rt n ps (id ++ r) -> matches_classes ps id = true ->
  scan_rest rt r = Some (d, cs) ->
  id = c :: id' -> is_char_i "P" c = true ->
  ps = proprietary_classes rt.
Proof.
  intros Hw Hps Hr -> Hc.
  pose proof (winner_plain _ _ _ Hw) as Hplain.
  pose proof (matches_classes_not_star _ _ Hplain Hps) as Hstar.
  pose proof (matches_classes_length _ _ Hps) as Hlen.
  assert (exists a2 a3 a4 rest,
            id' = a2 :: a3 :: a4 :: rest /\
            is_word rt a2 = true /\ is_word rt a3 = true /\ is_word rt a4 = true)
    as (a2 & a3 & a4 & rest & -> & H2 & H3 & H4).
  { destruct id' as [|a2 [|a3 [|a4 rest]]];
      try (destruct Hw as [[_ ->]|[(_ & -> & _)|(_ & -> & _)]]; cbn in Hlen; lia).
    exists a2, a3, a4, rest. split; [done|]. revert Hps.
    destruct Hw as [[_ ->]|[(_ & -> & _)|(_ & -> & _)]];
      cbn [matches_classes proprietary_classes query_classes talker_classes];
      rewrite !andb_true_iff; by intros (_ & ? & ? & ? & _). }
  assert (scan_with rt "3" (scan_proprietary rt) ((c :: a2 :: a3 :: a4 :: rest) ++ r)
          <> None) as Hsome.
  { rewrite (scan_with_classes rt "3" _ _ 4 _ (scan_proprietary_classes rt)).
    change (take 4 ((c :: a2 :: a3 :: a4 :: rest) ++ r)) with [c; a2; a3; a4].
    change (drop 4 ((c :: a2 :: a3 :: a4 :: rest) ++ r)) with (rest ++ r).
    cbn [matches_classes proprietary_classes]. rewrite Hc, H2, H3, H4. cbn [andb].
    rewrite scan_rest_prefix, Hr; [done|].
    by apply (forallb_drop not_star 4) in Hstar. }
  destruct Hw as [[_ ->]|[(_ & _ & Hnone)|(_ & _ & Hnone & _)]]; done.
Qed.

Lemma parse_by_shape_flags reg line st ds d gsv grs :
  re_match (talker_re rt) st = None ->
  parse_by_shape rt reg line st ds d gsv grs
  = parse_by_shape rt reg line st ds d false false.
Proof. intros H. unfold parse_by_shape. by rewrite H. Qed.

Lemma outcome_Ok r self : outcome r = inl self -> r = Ok self.
Proof. destruct r; [by intros [= ->]|done]. Qed.

End Lines.

(** X16.  A line whose identifier begins with P or p is a proprietary
    sentence, whatever follows: the identifier is the P and three characters,
    the manufacturer code, and [parse] constructs the type registered for the
    code, ProprietarySentence itself if there is none, never a talker type. *)
Theorem leading_P_is_proprietary rt reg line check gsv grs m id d c id' :
  re_match (sentence_re rt) line = Some m ->
  m !! "sentence_type"%string = Some id -> m !! "data"%string = Some d ->
  id = c :: id' -> is_char_i "P" c = true ->
  forallb is_ascii id = true -> checksum_passes m check ->
  length id' = 3%nat /\
  parse rt reg line check gsv grs
  = ProprietarySentence_init rt
      (default ProprietarySentence (proprietary_types reg !! uc id'))
      (uc id') (split (ord ",") d).
Proof.
  intros Hm Hid Hd Hcons Hc Hascii Hpass.
  destruct (sentence_re_matched rt line m Hm)
    as (ws & dollar & id0 & r & n & ps & d0 & cs & -> & Hws & Hdollar & -> & Hps & Hlen & Hr & Hw).
  destruct (winner_lookup rt n ps _ id0 d0 cs Hw) as (_ & Hd0 & Hid0 & _).
  rewrite Hid0 in Hid. injection Hid as ->. rewrite Hd0 in Hd. injection Hd as ->.
  pose proof (winner_leading_P rt n ps id r d cs c id' Hw Hps Hr Hcons Hc) as ->.
  destruct (winner_shape rt n _ _ id Hw Hps)
    as [(Hbad & _)|[(Hbad & _)|(_ & Hl & c1 & c2 & c3 & Huc & Hp)]];
    [apply (f_equal length) in Hbad; done..|].
  subst id. cbn [length] in Hl. split; [lia|].
  rewrite (parse_matched rt reg _ check gsv grs _ _ d Hm Hid0 Hd0).
  rewrite (check_checksum_passes rt _ _ _ d _ check Hm Hid0 Hd0 Hpass). cbn [bind].
  rewrite (upper_ascii rt _ Hascii). unfold parse_by_shape.
  pose proof (shapes_by_length rt (uc (c :: id'))) as Hex. rewrite Hp in *.
  destruct (re_match (talker_re rt) _), (re_match (query_re rt) _); try done.
  unfold group. rewrite lookup_insert_eq. cbn [bind].
  cbn [map] in Huc. injection Huc as _ ->. done.
Qed.

Lemma leading_P_is_proprietary_witness :
  length (py "GGG") = 3%nat /\
  parse sample_runtime sample_registry (py "$PGGGA,1,2") false false false
  = ProprietarySentence_init sample_runtime
      (default ProprietarySentence (proprietary_types sample_registry !! uc (py "GGG")))
      (uc (py "GGG")) (split (ord ",") (py "A,1,2")).
Proof.
  apply (leading_P_is_proprietary sample_runtime sample_registry (py "$PGGGA,1,2")
           false false false (match_groups "3" (py "PGGG") (py "A,1,2") None)
           (py "PGGG") (py "A,1,2") (ord "P") (py "GGG")).
  - vm_compute. reflexivity.
  - vm_compute. reflexivity.
  - vm_compute. reflexivity.
  - reflexivity.
  - vm_compute. reflexivity.
  - vm_compute. reflexivity.
  - by left.
Defined.

(** X17.  The anatomy of a line [sentence_re] matches: blanks, an optional
    dollar, an identifier of 4, 9 or 6 characters, the data, and either
    nothing more or a star, two hexadecimal digits and blanks.  The groups
    are the identifier, the data and the two together; neither holds a star.
    With no checksum the data runs to the end of the line, whatever blanks or
    line end are there. *)
Theorem matched_line_anatomy rt line m :
  re_match (sentence_re rt) line = Some m ->
  exists ws dollar id d tail,
    line = ws ++ dollar ++ id ++ d ++ tail /\
    forallb (is_space rt) ws = true /\ (dollar = [] \/ dollar = [ord "$"]) /\
    m !! "sentence_type"%string = Some id /\ m !! "data"%string = Some d /\
    m !! "nmea_str"%string = Some (id ++ d) /\
    (length id = 4 \/ length id = 9 \/ length id = 6)%nat /\
    forallb not_star (id ++ d) = true /\
    match m !! "checksum"%string with
    | None => tail = []
    | Some h =>
        exists ws', tail = ord "*" :: h ++ ws' /\ length h = 2%nat /\
                    forallb is_hex_i h = true /\ forallb (is_space rt) ws' = true
    end.
Proof.
  intros Hm.
  destruct (sentence_re_matched rt line m Hm)
    as (ws & dollar & id & r & n & ps & d & cs & -> & Hws & Hdollar & -> & Hps & Hlen & Hr & Hw).
  destruct (winner_lookup rt n ps _ id d cs Hw) as (Hn & Hd & Hid & Hcs).
  destruct (scan_rest_inv rt r d cs Hr) as [Hstar Hr'].
  pose proof (matches_classes_not_star _ _ (winner_plain rt _ _ _ Hw) Hps) as Hidstar.
  pose proof (winner_length rt _ _ _ Hw) as Hl. rewrite <- Hlen in Hl.
  assert (forallb not_star (id ++ d) = true) as Hboth.
  { by rewrite forallb_app, Hidstar, Hstar. }
  destruct cs as [h|].
  - destruct Hr' as (h1 & h2 & ws' & -> & -> & Hh1 & Hh2 & Hws').
    exists ws, dollar, id, d, (ord "*" :: [h1; h2] ++ ws').
    repeat split; try done. rewrite Hcs. exists ws'. repeat split; try done.
    cbn [forallb]. by rewrite Hh1, Hh2.
  - subst r. exists ws, dollar, id, d, []. rewrite app_nil_r.
    repeat split; try done. by rewrite Hcs.
Qed.

Lemma matched_line_anatomy_witness :
  exists ws dollar id d tail,
    py "$GPGGA,1,2" ++ [13; 10] = ws ++ dollar ++ id ++ d ++ tail /\
    forallb (is_space sample_runtime) ws = true /\ (dollar = [] \/ dollar = [ord "$"]) /\
    match_groups "5" (py "GPGGA,") (py "1,2" ++ [13; 10]) None !! "sentence_type"%string
    = Some id /\
    match_groups "5" (py "GPGGA,") (py "1,2" ++ [13; 10]) None !! "data"%string = Some d /\
    match_groups "5" (py "GPGGA,") (py "1,2" ++ [13; 10]) None !! "nmea_str"%string
    = Some (id ++ d) /\
    (length id = 4 \/ length id = 9 \/ length id = 6)%nat /\
    forallb not_star (id ++ d) = true /\
    match match_groups "5" (py "GPGGA,") (py "1,2" ++ [13; 10]) None !! "checksum"%string with
    | None => tail = []
    | Some h =>
        exists ws', tail = ord "*" :: h ++ ws' /\ length h = 2%nat /\
                    forallb is_hex_i h = true /\ forallb (is_space sample_runtime) ws' = true
    end.
Proof.
  apply (matched_line_anatomy sample_runtime (py "$GPGGA,1,2" ++ [13; 10])
           (match_groups "5" (py "GPGGA,") (py "1,2" ++ [13; 10]) None)).
  vm_compute. reflexivity.
Defined.

(** X18.  The data of a sentence [parse] returns is the list of the fields
    of the data group, split at the commas: one more than the commas, so at
    least one, possibly empty.  The exception is a query, which has no data
    and whose list is empty. *)
Theorem parsed_data_fields rt reg line check gsv grs self :
  parse rt reg line check gsv grs = Ok self ->
  exists m d fs,
    re_match (sentence_re rt) line = Some m /\ m !! "data"%string = Some d /\
    attrs self !! py "data" = Some (VStrs fs) /\
    ((fs = [] /\ d = [] /\ type_of self = QuerySentence) \/
     (fs = split (ord ",") d /\ length fs = S (count_char (ord ",") d))).
Proof.
  intros Hparse.
  destruct (re_match (sentence_re rt) line) as [m|] eqn:Hm.
  2:{ by rewrite parse_unmatched in Hparse. }
  destruct (sentence_re_groups rt line m Hm) as (id & d & Hid & Hd & _).
  rewrite (parse_matched rt reg line check gsv grs m id d Hm Hid Hd) in Hparse.
  apply bind_Ok in Hparse as (_ & _ & Hshape).
  exists m, d. unfold parse_by_shape in Hshape.
  destruct (re_match (talker_re rt) (upper rt id)) as [tm|] eqn:Etm.
  - destruct (talker_re_inv rt _ _ Etm)
      as (c1 & c2 & c3 & c4 & c5 & z & _ & _ & _ & Ht & Hs).
    destruct (talker_types reg !! [c3; c4; c5]) as [cls|] eqn:Ecls.
    + rewrite (parse_talker_registered rt reg line _ d gsv grs tm _ _ cls Ht Hs Ecls)
        in Hshape.
      apply TalkerSentence_init_Ok in Hshape as [_ ->].
      exists (split (ord ",") d). split; [done|]. split; [done|].
      split; [apply lookup_insert_eq|]. right. split; [done|apply length_split].
    + rewrite (parse_talker_unregistered rt reg line _ _ gsv grs tm _ _ Ht Hs Ecls)
        in Hshape.
      by destruct (_ || _).
  - assert (match re_match (proprietary_re rt) (upper rt id) with
            | Some proprietary_match =>
                manufacturer <- group proprietary_match "manufacturer";;
                let cls := default ProprietarySentence
                             (proprietary_types reg !! manufacturer) in
                ProprietarySentence_init rt cls manufacturer (split (ord ",") d)
            | None =>
                raise_parse_error ParseError
                  (py "could not parse sentence type: " ++ py_repr rt (upper rt id))
                  (VStr line)
            end = Ok self ->
            attrs self !! py "data" = Some (VStrs (split (ord ",") d))) as Hprop.
    { destruct (re_match (proprietary_re rt) (upper rt id)); [|done].
      intros (man & _ & Hinit)%bind_Ok.
      apply ProprietarySentence_init_Ok in Hinit as ->. apply lookup_insert_eq. }
    destruct (re_match (query_re rt) (upper rt id)) as [qm|] eqn:Eqm.
    2:{ exists (split (ord ",") d). split; [done|]. split; [done|].
        split; [by apply Hprop|]. right. split; [done|apply length_split]. }
    destruct d as [|c d].
    2:{ exists (split (ord ",") (c :: d)). split; [done|]. split; [done|].
        split; [by apply Hprop|]. right. split; [done|apply length_split]. }
    destruct (query_re_inv rt _ _ Eqm)
      as (q1 & q2 & q3 & q4 & q5 & q6 & q7 & z & _ & _ & _ & Ht & Hl & Hs).
    unfold group in Hshape. rewrite Ht, Hl, Hs in Hshape. cbn [bind] in Hshape.
    rewrite QuerySentence_init_generic in Hshape. injection Hshape as <-.
    exists []. split; [done|]. split; [done|]. split; [apply lookup_insert_eq|]. by left.
Qed.

Lemma parsed_data_fields_witness :
  exists m d fs,
    re_match (sentence_re sample_runtime) (py "$GPGGA,") = Some m /\
    m !! "data"%string = Some d /\
    attrs (talker_object GGA (py "GP") (py "GGA") [[]] ∅) !! py "data" = Some (VStrs fs) /\
    ((fs = [] /\ d = [] /\ type_of (talker_object GGA (py "GP") (py "GGA") [[]] ∅)
                          = QuerySentence) \/
     (fs = split (ord ",") d /\ length fs = S (count_char (ord ",") d))).
Proof.
  apply (parsed_data_fields sample_runtime sample_registry (py "$GPGGA,") false false false).
  vm_compute. reflexivity.
Defined.

(** ** Round trips *)

Section RoundTrips.

Context (rt : runtime).

Lemma not_star_join l :
  Forall (fun f => (ord "," ∉ f) /\ (ord "*" ∉ f)) l ->
  forallb not_star (join (py ",") l) = true.
Proof.
  assert (forall f, ord "*" ∉ f -> forallb not_star f = true) as Hf.
  { intros f. induction f as [|c f IH]; [done|].
    intros [Hc Hf]%not_elem_of_cons. simpl. rewrite IH by done.
    unfold not_star, is_char. by destruct (N.eqb_spec c (ord "*")). }
  intros Hl. induction Hl as [|f l [_ Hstar] _ IH]; [done|].
  destruct l as [|g l]; [by apply Hf|].
  change (join (py ",") (f :: g :: l)) with (f ++ py "," ++ join (py ",") (g :: l)).
  by rewrite !forallb_app, Hf, IH.
Qed.

Lemma is_space_dollar : is_space rt (ord "$") = false.
Proof. reflexivity. Qed.

End RoundTrips.

(** X19.  The round trip of a proprietary sentence.  For every line [parse]
    accepts as a sentence of ProprietarySentence itself, with an ASCII
    identifier and a checksum below 0x100, the sentence renders to the
    upper-cased identifier, the data and the checksum, and [parse] of the text
    gives the sentence back, with or without the checksum test. *)
Theorem proprietary_round_trip rt reg line check gsv grs m id d self :
  registry_wf reg ->
  parse rt reg line check gsv grs = Ok self ->
  type_of self = ProprietarySentence ->
  re_match (sentence_re rt) line = Some m ->
  m !! "sentence_type"%string = Some id -> m !! "data"%string = Some d ->
  forallb is_ascii id = true ->
  checksum (upper rt id ++ d) < 0x100 ->
  exists text,
    render rt self true true NoNewline = Ok text /\
    text = py "$" ++ upper rt id ++ d ++ py "*" ++ format_02X (checksum (upper rt id ++ d)) /\
    forall check' gsv' grs', parse rt reg text check' gsv' grs' = Ok self.
Proof.
  intros [Hwf_t _] Hparse Htype Hm Hid Hd Hascii Hsum.
  destruct (sentence_re_matched rt line m Hm)
    as (ws & dollar & id0 & r & n & ps & d0 & cs & -> & Hws & Hdollar & -> & Hps & Hlen & Hr & Hw).
  destruct (winner_lookup rt n ps _ id0 d0 cs Hw) as (_ & Hd0 & Hid0 & _).
  rewrite Hid0 in Hid. injection Hid as ->. rewrite Hd0 in Hd. injection Hd as ->.
  rewrite (parse_matched rt reg _ check gsv grs _ id d Hm Hid0 Hd0) in Hparse.
  apply bind_Ok in Hparse as (_ & _ & Hshape).
  rewrite (upper_ascii rt id Hascii) in *.
  unfold parse_by_shape in Hshape.
  pose proof (shapes_by_length rt (uc id)) as Hex.
  destruct (winner_shape rt n ps _ id Hw Hps)
    as [(_ & _ & c1 & c2 & c3 & c4 & c5 & _ & Ht)
       |[(_ & _ & c1 & c2 & c3 & c4 & c5 & c6 & c7 & _ & Hq)
        |(_ & _ & c1 & c2 & c3 & Huc & Hp)]].
  - exfalso. destruct (talker_re_inv rt _ _ Ht)
      as (t1 & t2 & t3 & t4 & t5 & z & _ & _ & _ & Htt & Hts).
    rewrite Ht in Hshape.
    destruct (talker_types reg !! [t3; t4; t5]) as [cls|] eqn:Ecls.
    + rewrite (parse_talker_registered rt reg _ _ d gsv grs _ _ _ cls Htt Hts Ecls)
        in Hshape.
      apply TalkerSentence_init_Ok in Hshape as [_ ->].
      cbn [type_of talker_object] in Htype. apply Hwf_t in Ecls. by rewrite Htype in Ecls.
    + rewrite (parse_talker_unregistered rt reg _ _ _ gsv grs _ _ _ Htt Hts Ecls)
        in Hshape.
      by destruct (_ || _).
  - exfalso. destruct (query_re_inv rt _ _ Hq)
      as (q1 & q2 & q3 & q4 & q5 & q6 & q7 & z & _ & _ & _ & Hqt & Hql & Hqs).
    rewrite Hq in *.
    destruct (re_match (talker_re rt) (uc id)), (re_match (proprietary_re rt) (uc id));
      try done.
    destruct d as [|c d]; [|done].
    unfold group in Hshape. rewrite Hqt, Hql, Hqs in Hshape. cbn [bind] in Hshape.
    rewrite QuerySentence_init_generic in Hshape. injection Hshape as <-.
    by apply (f_equal cls_base) in Htype.
  - rewrite Hp in *.
    destruct (re_match (talker_re rt) (uc id)) eqn:Et,
             (re_match (query_re rt) (uc id)) eqn:Eq; try done.
    unfold group in Hshape. rewrite lookup_insert_eq in Hshape. cbn [bind] in Hshape.
    pose proof Hshape as Hinit.
    apply ProprietarySentence_init_Ok in Hshape. rewrite Hshape in Htype.
    cbn [type_of] in Htype.
    assert (self = proprietary_object [c1; c2; c3] (split (ord ",") d)) as Hself.
    { by rewrite Hshape, Htype. }
    destruct (format_02X_hex _ Hsum) as (h1 & h2 & Hfmt & Hh1 & Hh2).
    eexists. split.
    { rewrite Hself, render_proprietary_object. change (py ",") with [ord ","].
      rewrite join_split. change (py "P" ++ [c1; c2; c3]) with [ord "P"; c1; c2; c3].
      rewrite <- Huc. reflexivity. }
    split; [done|]. intros check' gsv' grs'.
    destruct (scan_rest_inv rt r d cs Hr) as [Hdstar _].
    pose proof (sentence_re_upper rt [] [ord "$"] id r (d ++ ord "*" :: [h1; h2])
                  n ps d cs (Some [h1; h2])
                  eq_refl (or_intror eq_refl) Hps Hlen Hascii Hr
                  (scan_rest_checksum_suffix rt d h1 h2 Hdstar Hh1 Hh2) Hw) as Hm'.
    destruct (winner_lookup rt n ps (id ++ r) (uc id) d (Some [h1; h2]) Hw)
      as (Hn1 & Hd1 & Hid1 & Hcs1).
    rewrite Hfmt.
    change (py "$" ++ uc id ++ d ++ py "*" ++ [h1; h2])
      with ([] ++ [ord "$"] ++ uc id ++ d ++ ord "*" :: [h1; h2]).
    rewrite (parse_matched rt reg _ check' gsv' grs' _ (uc id) d Hm' Hid1 Hd1).
    rewrite (check_checksum_passes rt _ _ (uc id) d _ check' Hm' Hid1 Hd1).
    2:{ right. exists [h1; h2], (uc id ++ d). split; [done|]. split; [done|].
        rewrite <- Hfmt. apply int16_format_02X. }
    cbn [bind]. rewrite upper_ascii by by rewrite uc_ascii. rewrite uc_idemp.
    unfold parse_by_shape. rewrite Et, Eq, Hp. unfold group.
    rewrite lookup_insert_eq. cbn [bind]. exact Hinit.
Qed.

Lemma proprietary_round_trip_witness :
  exists text,
    render sample_runtime
      (proprietary_object (py "GRM") (split (ord ",") (py "E,15.0,M,45.0,M,25.0,M")))
      true true NoNewline = Ok text /\
    text = py "$" ++ upper sample_runtime (py "pgrm") ++ py "E,15.0,M,45.0,M,25.0,M"
           ++ py "*"
           ++ format_02X (checksum (upper sample_runtime (py "pgrm")
                                    ++ py "E,15.0,M,45.0,M,25.0,M")) /\
    forall check' gsv' grs',
      parse sample_runtime sample_registry text check' gsv' grs'
      = Ok (proprietary_object (py "GRM") (split (ord ",") (py "E,15.0,M,45.0,M,25.0,M"))).
Proof.
  apply (proprietary_round_trip sample_runtime sample_registry
           (py "pgrmE,15.0,M,45.0,M,25.0,M") false false false
           (match_groups "3" (py "pgrm") (py "E,15.0,M,45.0,M,25.0,M") None)
           (py "pgrm") (py "E,15.0,M,45.0,M,25.0,M")).
  - apply registry_wf_sample.
  - vm_compute. reflexivity.
  - reflexivity.
  - vm_compute. reflexivity.
  - vm_compute. reflexivity.
  - vm_compute. reflexivity.
  - vm_compute. reflexivity.
  - vm_compute. reflexivity.
Defined.

(** X20.  Writing a sentence and reading it back.  A sentence of a
    registered talker type, with a talker and a sentence code of ASCII word
    characters without lower-case letters, not beginning with P and not
    ending in Q, and with at least one data field, none holding a comma or a
    star, renders to a text that [parse] reads back as the same sentence,
    with or without the checksum test. *)
Theorem render_parse_talker rt reg cls c1 c2 c3 c4 c5 data :
  talker_types reg !! [c3; c4; c5] = Some cls ->
  plain_schema cls -> cls_base cls = Talker ->
  forallb (is_word rt) [c1; c2; c3; c4; c5] = true ->
  forallb is_ascii [c1; c2; c3; c4; c5] = true ->
  uc [c1; c2; c3; c4; c5] = [c1; c2; c3; c4; c5] ->
  is_char_i "P" c1 = false -> is_char_i "Q" c5 = false ->
  data <> [] -> Forall (fun f => (ord "," ∉ f) /\ (ord "*" ∉ f)) data ->
  checksum ([c1; c2; c3; c4; c5; ord ","] ++ join (py ",") data) < 0x100 ->
  exists text,
    render rt (talker_object cls [c1; c2] [c3; c4; c5] data ∅) true true NoNewline
    = Ok text /\
    forall check,
      parse rt reg text check false false
      = Ok (talker_object cls [c1; c2] [c3; c4; c5] data ∅).
Proof.
  intros Hcls Hplain Hbase Hword Hascii Huc HP HQ Hne Hdata Hsum.
  set (id := [c1; c2; c3; c4; c5; ord ","]) in *.
  set (d := join (py ",") data) in *.
  destruct (format_02X_hex _ Hsum) as (h1 & h2 & Hfmt & Hh1 & Hh2).
  exists (py "$" ++ id ++ d ++ py "*" ++ [h1; h2]). split.
  { rewrite render_talker_object by done. fold d.
    change ([c1; c2] ++ [c3; c4; c5] ++ py ",") with id. by rewrite Hfmt. }
  intros check.
  pose proof Hword as Hw. cbn [forallb] in Hw. rewrite !andb_true_iff in Hw.
  destruct Hw as (W1 & W2 & W3 & W4 & W5 & _).
  assert (forallb not_star d = true) as Hdstar by by apply not_star_join.
  assert (re_match (sentence_re rt) (py "$" ++ id ++ d ++ py "*" ++ [h1; h2])
          = Some (match_groups "5" id d (Some [h1; h2]))) as Hm.
  { rewrite re_match_sentence_re.
    change (py "$" ++ id ++ d ++ py "*" ++ [h1; h2])
      with (ord "$" :: id ++ d ++ ord "*" :: [h1; h2]).
    cbn [star]. rewrite is_space_dollar. cbn [scan_line].
    change (is_char "$" (ord "$")) with true. cbv iota.
    unfold scan_body.
    assert (scan_with rt "3" (scan_proprietary rt) (id ++ d ++ ord "*" :: [h1; h2]) = None)
      as ->.
    { unfold scan_with, scan_proprietary, id. cbn [app]. by rewrite HP. }
    assert (scan_with rt "4" (scan_query rt) (id ++ d ++ ord "*" :: [h1; h2]) = None)
      as ->.
    { rewrite (scan_with_classes rt "4" _ _ 9 _ (scan_query_classes rt)).
      unfold id. cbn [app take matches_classes query_classes].
      by rewrite W1, W2, W3, W4, HQ. }
    unfold scan_with, scan_talker, id. cbn [app]. rewrite W1, W2, W3, W4, W5.
    change (is_char "," (ord ",")) with true. cbn [andb mbind option_bind].
    by rewrite (scan_rest_checksum_suffix rt d h1 h2 Hdstar Hh1 Hh2). }
  destruct (match_groups_lookup rt "5" (scan_talker rt) id d (Some [h1; h2]))
    as (Hn1 & Hd1 & Hid1 & Hcs1).
  { unfold alternatives. apply list_elem_of_further, list_elem_of_further, list_elem_of_here. }
  rewrite (parse_matched rt reg _ check false false _ id d Hm Hid1 Hd1).
  rewrite (check_checksum_passes rt _ _ id d _ check Hm Hid1 Hd1).
  2:{ right. exists [h1; h2], (id ++ d). split; [done|]. split; [done|].
      rewrite <- Hfmt. apply int16_format_02X. }
  cbn [bind].
  assert (upper rt id = id) as ->.
  { rewrite upper_ascii.
    - unfold id. change [c1; c2; c3; c4; c5; ord ","] with ([c1; c2; c3; c4; c5] ++ [ord ","]).
      by rewrite map_app, Huc.
    - unfold id. change [c1; c2; c3; c4; c5; ord ","] with ([c1; c2; c3; c4; c5] ++ [ord ","]).
      by rewrite forallb_app, Hascii. }
  unfold parse_by_shape, id. rewrite (talker_re_intro rt c1 c2 c3 c4 c5 Hword).
  rewrite (parse_talker_registered rt reg _ _ d false false _ [c1; c2] [c3; c4; c5] cls);
    [|by rewrite lookup_insert_ne, lookup_insert_eq|by rewrite lookup_insert_eq|done].
  rewrite schema_kwargs_default. unfold d. change (py ",") with [ord ","].
  rewrite split_join.
  - by apply TalkerSentence_init_plain.
  - done.
  - eapply Forall_impl; [exact Hdata|]. by intros f [? _].
Qed.

Lemma render_parse_talker_witness :
  exists text,
    render sample_runtime
      (talker_object GGA (py "GP") (py "GGA") [py "184353.07"; py ""; py "S"] ∅)
      true true NoNewline = Ok text /\
    forall check,
      parse sample_runtime sample_registry text check false false
      = Ok (talker_object GGA (py "GP") (py "GGA") [py "184353.07"; py ""; py "S"] ∅).
Proof.
  apply (render_parse_talker sample_runtime sample_registry GGA
           (ord "G") (ord "P") (ord "G") (ord "G") (ord "A")
           [py "184353.07"; py ""; py "S"]).
  - vm_compute. reflexivity.
  - repeat split; vm_compute; reflexivity.
  - reflexivity.
  - vm_compute. reflexivity.
  - vm_compute. reflexivity.
  - vm_compute. reflexivity.
  - vm_compute. reflexivity.
  - vm_compute. reflexivity.
  - done.
  - repeat (apply Forall_cons; split); try apply Forall_nil_2;
      split; vm_compute; intros H; repeat (apply elem_of_cons in H as [H|H]; [done|]);
      by apply elem_of_nil in H.
  - vm_compute. reflexivity.
Defined.

(** ** What surrounds the sentence in a line *)

Section Around.

Context (rt : runtime).

(** [parse] reads its line through the match alone, but for the line an
    exception carries. *)
Lemma parse_outcome_match reg line line' check gsv grs :
  re_match (sentence_re rt) line' = re_match (sentence_re rt) line ->
  outcome (parse rt reg line' check gsv grs) = outcome (parse rt reg line check gsv grs).
Proof.
  intros H. unfold parse. rewrite H. destruct (re_match (sentence_re rt) line); [|done].
  repeat (apply outcome_bind; intros ?). apply parse_by_shape_line.
Qed.

Lemma star_ascii_blanks ws s :
  forallb ascii_isspace ws = true ->
  star (is_space rt) (ws ++ s) (scan_line rt) = star (is_space rt) s (scan_line rt).
Proof.
  induction ws as [|c ws IH]; [done|]. simpl. intros [Hc Hws]%andb_true_iff.
  destruct (ascii_isspace_space rt c Hc) as (-> & Hw & Hd).
  rewrite IH by done. rewrite Hd, (scan_body_first rt c _ Hw).
  by destruct (star (is_space rt) s (scan_line rt)).
Qed.

Lemma not_star_elem s : forallb not_star s = true <-> ord "*" ∉ s.
Proof.
  induction s as [|c s IH]; simpl.
  - split; [intros _; apply not_elem_of_nil|done].
  - rewrite andb_true_iff, IH, not_elem_of_cons. unfold not_star, is_char.
    destruct (N.eqb_spec c (ord "*")) as [->|Hne]; simpl; split; intros [? ?]; done.
Qed.

Lemma is_space_not_hex c : is_space rt c = true -> is_hex_i c = false.
Proof.
  unfold is_space, is_ascii. destruct (N.ltb_spec c 128).
  - unfold ascii_isspace, is_hex_i, between. ord_values. split_comparisons.
  - intros _. unfold is_hex_i, between. ord_values. split_comparisons.
Qed.

(** Blanks after a suffix that begins with a star change nothing. *)
Lemma scan_suffix_blanks t ws :
  forallb (is_space rt) ws = true ->
  scan_suffix rt ((ord "*" :: t) ++ ws) = scan_suffix rt (ord "*" :: t).
Proof.
  intros Hws. cbn [app scan_suffix]. change (is_char "*" (ord "*")) with true. cbv iota.
  destruct t as [|h1 [|h2 t]]; cbn [app].
  - destruct ws as [|w1 [|w2 ws]]; try done.
    simpl in Hws. apply andb_true_iff in Hws as [Hw1 _].
    by rewrite (is_space_not_hex w1 Hw1).
  - destruct ws as [|w1 ws]; [done|].
    simpl in Hws. apply andb_true_iff in Hws as [Hw1 _].
    by rewrite (is_space_not_hex w1 Hw1), andb_false_r.
  - by rewrite forallb_app, Hws, andb_true_r.
Qed.

Lemma scan_rest_blanks r ws :
  ord "*" ∈ r -> forallb (is_space rt) ws = true ->
  scan_rest rt (r ++ ws) = scan_rest rt r.
Proof.
  intros Hstar Hws. unfold scan_rest.
  pose proof (span_app not_star r) as Happ.
  pose proof (span_forallb not_star r) as Hd.
  pose proof (span_rest not_star r) as Ht.
  destruct (span not_star r) as [d t]. cbn [fst snd] in *.
  destruct t as [|c t].
  { exfalso. rewrite app_nil_r in Happ. subst d. by apply not_star_elem in Hd. }
  assert (c = ord "*") as ->.
  { unfold not_star, is_char in Ht. by destruct (N.eqb_spec c (ord "*")). }
  rewrite <- Happ, <- app_assoc.
  rewrite (span_stop not_star d ((ord "*" :: t) ++ ws)) by done.
  by rewrite scan_suffix_blanks.
Qed.

Lemma scan_with_blanks n ps scan k s ws :
  (forall s, scan s = if matches_classes ps (take k s)
                      then Some (take k s, drop k s) else None) ->
  length ps = k -> Forall plain_class ps ->
  ord "*" ∈ s -> forallb (is_space rt) ws = true ->
  scan_with rt n scan (s ++ ws) = scan_with rt n scan s.
Proof.
  intros Hscan Hps Hplain Hstar Hws. rewrite !(scan_with_classes rt n ps scan k) by done.
  destruct (matches_classes ps (take k s)) eqn:E.
  - pose proof (matches_classes_length _ _ E) as Hlen.
    pose proof (matches_classes_not_star _ _ Hplain E) as Hns.
    assert (k <= length s)%nat as Hk.
    { rewrite length_take in Hlen. lia. }
    rewrite take_app_le, drop_app_le by done. rewrite E.
    rewrite scan_rest_blanks; [done| |done].
    rewrite <- (take_drop k s) in Hstar. apply elem_of_app in Hstar as [Hbad|?]; [|done].
    by apply not_star_elem in Hns.
  - destruct (matches_classes ps (take k (s ++ ws))) eqn:E'; [|done].
    exfalso. pose proof (matches_classes_not_star _ _ Hplain E') as Hns.
    destruct (decide (k <= length s)%nat) as [Hk|Hk].
    + rewrite take_app_le in E' by done. congruence.
    + rewrite take_app_ge in Hns by lia. rewrite forallb_app in Hns.
      apply andb_true_iff in Hns as [Hns _]. by apply not_star_elem in Hns.
Qed.

Lemma scan_body_blanks s ws :
  ord "*" ∈ s -> forallb (is_space rt) ws = true ->
  scan_body rt (s ++ ws) = scan_body rt s.
Proof.
  intros Hstar Hws. unfold scan_body.
  rewrite (scan_with_blanks "3" _ _ 4 s ws (scan_proprietary_classes rt)
             eq_refl (plain_proprietary rt) Hstar Hws).
  rewrite (scan_with_blanks "4" _ _ 9 s ws (scan_query_classes rt)
             eq_refl (plain_query rt) Hstar Hws).
  by rewrite (scan_with_blanks "5" _ _ 6 s ws (scan_talker_classes rt)
                eq_refl (plain_talker rt) Hstar Hws).
Qed.

Lemma scan_line_blanks s ws :
  ord "*" ∈ s -> forallb (is_space rt) ws = true ->
  scan_line rt (s ++ ws) = scan_line rt s.
Proof.
  intros Hstar Hws. destruct s as [|c s]; [by apply elem_of_nil in Hstar|].
  cbn [app scan_line]. destruct (is_char "$" c) eqn:E.
  - apply scan_body_blanks; [|done].
    apply elem_of_cons in Hstar as [Hc|?]; [|done].
    subst c. done.
  - by apply (scan_body_blanks (c :: s)).
Qed.

Lemma star_blanks line ws :
  ord "*" ∈ line -> forallb (is_space rt) ws = true ->
  star (is_space rt) (line ++ ws) (scan_line rt) = star (is_space rt) line (scan_line rt).
Proof.
  intros Hstar Hws. induction line as [|c line IH]; [by apply elem_of_nil in Hstar|].
  pose proof (scan_line_blanks (c :: line) ws Hstar Hws) as Hk. cbn [app] in Hk.
  cbn [app star]. rewrite Hk.
  destruct (is_space rt c) eqn:E; [|done].
  rewrite IH; [done|]. apply elem_of_cons in Hstar as [Hc|?]; [|done].
  rewrite <- Hc in E. by rewrite (star_not_space rt) in E.
Qed.

End Around.

(** X21.  Blanks before the sentence and the dollar are skipped, and the
    dollar is optional: for a sentence body that begins with neither a blank
    nor a dollar, [parse] does on the body alone, on the body after a dollar,
    and on either after ASCII blanks what it does on the body, but for the
    line an exception carries. *)
Theorem leading_blanks_and_dollar rt reg ws c s check gsv grs :
  forallb ascii_isspace ws = true ->
  is_space rt c = false -> c <> ord "$" ->
  re_match (sentence_re rt) (ws ++ ord "$" :: c :: s) = re_match (sentence_re rt) (c :: s) /\
  re_match (sentence_re rt) (ws ++ c :: s) = re_match (sentence_re rt) (c :: s) /\
  outcome (parse rt reg (ws ++ ord "$" :: c :: s) check gsv grs)
  = outcome (parse rt reg (c :: s) check gsv grs) /\
  outcome (parse rt reg (ws ++ c :: s) check gsv grs)
  = outcome (parse rt reg (c :: s) check gsv grs).
Proof.
  intros Hws Hc Hd.
  assert (re_match (sentence_re rt) (ws ++ ord "$" :: c :: s)
          = re_match (sentence_re rt) (c :: s)) as H1.
  { rewrite !re_match_sentence_re, star_ascii_blanks by done.
    cbn [star]. rewrite Hc, (is_space_dollar rt). cbn [scan_line].
    change (is_char "$" (ord "$")) with true. cbv iota.
    unfold is_char. by destruct (N.eqb_spec c (ord "$")). }
  assert (re_match (sentence_re rt) (ws ++ c :: s)
          = re_match (sentence_re rt) (c :: s)) as H2.
  { by rewrite !re_match_sentence_re, star_ascii_blanks. }
  split; [done|]. split; [done|]. split; by apply parse_outcome_match.
Qed.

Lemma leading_blanks_and_dollar_witness :
  outcome (parse sample_runtime sample_registry (py "  $GPGGA,184353.07") false false false)
  = outcome (parse sample_runtime sample_registry (py "GPGGA,184353.07") false false false).
Proof.
  apply (proj1 (proj2 (proj2
           (leading_blanks_and_dollar sample_runtime sample_registry (py "  ")
              (ord "G") (py "PGGA,184353.07") false false false
              ltac:(vm_compute; reflexivity) ltac:(vm_compute; reflexivity)
              ltac:(vm_compute; discriminate))))).
Defined.

(** X22.  After a checksum, blanks and line ends are dropped: for a line
    that holds a star, [parse] does on the line followed by blanks, such as
    the line end [render] adds, what it does on the line. *)
Theorem trailing_blanks_after_checksum rt reg line ws check gsv grs :
  ord "*" ∈ line -> forallb (is_space rt) ws = true ->
  re_match (sentence_re rt) (line ++ ws) = re_match (sentence_re rt) line /\
  outcome (parse rt reg (line ++ ws) check gsv grs)
  = outcome (parse rt reg line check gsv grs).
Proof.
  intros Hstar Hws.
  assert (re_match (sentence_re rt) (line ++ ws) = re_match (sentence_re rt) line) as H.
  { rewrite !re_match_sentence_re. by apply star_blanks. }
  split; [done|]. by apply parse_outcome_match.
Qed.

Lemma trailing_blanks_after_checksum_witness :
  outcome (parse sample_runtime sample_registry
             (py "$GPGGA,184353.07*5B" ++ [13; 10]) true false false)
  = outcome (parse sample_runtime sample_registry (py "$GPGGA,184353.07*5B")
               true false false).
Proof.
  apply (trailing_blanks_after_checksum sample_runtime sample_registry
           (py "$GPGGA,184353.07*5B") [13; 10] true false false).
  - vm_compute. do 16 apply list_elem_of_further. apply list_elem_of_here.
  - vm_compute. reflexivity.
Defined.

(** X23.  A field write shows in the text: after a field of a talker
    sentence is set by name, the sentence renders with the stringified value
    at the position of the field, the other fields as they were, and the
    checksum of the new text. *)
Theorem setattr_render rt cls talker sentence_type data kw name v i :
  cls_base cls = Talker ->
  name_to_idx cls !! name = Some i -> (i < length data)%nat ->
  exists self',
    setattr rt (talker_object cls talker sentence_type data kw) name v = Ok self' /\
    self' = talker_object cls talker sentence_type (<[i := py_str rt v]> data) kw /\
    render rt self' true true NoNewline
    = Ok (py "$" ++ (talker ++ sentence_type ++ py ",")
          ++ join (py ",") (<[i := py_str rt v]> data) ++ py "*"
          ++ format_02X (checksum ((talker ++ sentence_type ++ py ",")
                                   ++ join (py ",") (<[i := py_str rt v]> data)))).
Proof.
  intros Hbase Hi Hlt.
  assert (setattr rt (talker_object cls talker sentence_type data kw) name v
          = Ok (talker_object cls talker sentence_type (<[i := py_str rt v]> data) kw)) as H.
  { unfold setattr, getattr, setitem. cbn [type_of attrs talker_object]. rewrite Hi.
    rewrite lookup_insert_eq. cbn [bind].
    rewrite bool_decide_eq_true_2 by done. cbn [bind].
    unfold talker_object. by rewrite insert_insert_eq. }
  eexists. split; [exact H|]. split; [done|]. by apply render_talker_object.
Qed.

Lemma setattr_render_witness :
  exists self',
    setattr sample_runtime
      (talker_object GGA (py "GP") (py "GGA") [py "184353.07"; py "1929.045"; py "S"] ∅)
      (py "lat") (VInt 1930) = Ok self' /\
    self' = talker_object GGA (py "GP") (py "GGA")
              (<[1%nat := py_str sample_runtime (VInt 1930)]>
                 [py "184353.07"; py "1929.045"; py "S"]) ∅ /\
    render sample_runtime self' true true NoNewline
    = Ok (py "$" ++ (py "GP" ++ py "GGA" ++ py ",")
          ++ join (py ",") (<[1%nat := py_str sample_runtime (VInt 1930)]>
                              [py "184353.07"; py "1929.045"; py "S"]) ++ py "*"
          ++ format_02X (checksum ((py "GP" ++ py "GGA" ++ py ",")
               ++ join (py ",") (<[1%nat := py_str sample_runtime (VInt 1930)]>
                                   [py "184353.07"; py "1929.045"; py "S"])))).
Proof.
  apply (setattr_render sample_runtime GGA (py "GP") (py "GGA")
           [py "184353.07"; py "1929.045"; py "S"] ∅ (py "lat") (VInt 1930) 1%nat).
  - reflexivity.
  - vm_compute. reflexivity.
  - simpl. lia.
Defined.

(** ** [__repr__] *)

Section ReprFacts.

Context (rt : runtime) {V : Type}.
Context (py_getattr : sentence -> str -> result V).
Context (repr_value : V -> result str).

Lemma repr_loop_fields self txt data : forall i r d,
  attrs self !! py "fields" = None ->
  (forall f, f ∈ take (length data) (drop i (fields (type_of self))) ->
     match txt f.2 with
     | Some t => exists v, py_getattr self f.2 = Ok v /\ repr_value v = Ok t
     | None => exists e, py_getattr self f.2 = Raise e /\ exn_type e = AttributeError
     end) ->
  repr_loop py_getattr repr_value self i data r d
  = Ok (r ++ omap (entry txt) (take (length data) (drop i (fields (type_of self)))),
        d ++ drop (length (drop i (fields (type_of self)))) data).
Proof.
  induction data as [|v data IH]; intros i r d Hnone Hfields.
  - simpl. by rewrite drop_nil, !app_nil_r.
  - cbn [repr_loop]. unfold len_fields, field_name. rewrite Hnone. cbn [bind].
    case_bool_decide as Hle.
    + rewrite IH; [|done|].
      * rewrite (drop_ge _ (S i)), (drop_ge _ i) by lia. rewrite !take_nil. simpl.
        by rewrite <- app_assoc.
      * rewrite drop_ge by lia. rewrite take_nil. by intros f ?%elem_of_nil.
    + destruct (fields (type_of self) !! i) as [f|] eqn:Ef.
      2:{ apply lookup_ge_None in Ef. lia. }
      cbn [bind]. rewrite (drop_S _ f i Ef) in *.
      cbn [length take] in Hfields.
      pose proof (Hfields f ltac:(apply list_elem_of_here)) as Hf.
      assert (forall r',
                repr_loop py_getattr repr_value self (S i) data r' d
                = Ok (r' ++ omap (entry txt)
                              (take (length data) (drop (S i) (fields (type_of self)))),
                      d ++ drop (length (drop (S i) (fields (type_of self)))) data))
        as Hnext.
      { intros r'. apply IH; [done|]. intros g Hg. apply Hfields.
        by apply list_elem_of_further. }
      cbn [length take drop].
      assert (forall tl,
                omap (entry txt) (f :: tl)
                = match txt f.2 with
                  | Some t => (f.2 ++ py "=" ++ t) :: omap (entry txt) tl
                  | None => omap (entry txt) tl
                  end) as ->.
      { intros tl. cbn. unfold entry at 1. by destruct (txt f.2). }
      destruct (txt f.2) as [t|].
      * destruct Hf as (val & -> & Ht). rewrite Ht. cbn [bind mbind option_bind].
        rewrite Hnext. by rewrite <- app_assoc.
      * destruct Hf as (e & -> & He). rewrite He.
        change (issubclass AttributeError AttributeError) with true. cbv iota.
        by rewrite Hnext.
Qed.

End ReprFacts.

(** X24.  [__repr__] lists the fields in the order of the schema, as far as
    there is data, each as name=value, leaving out those whose lookup raises
    AttributeError, and then the data beyond the schema, if any, as they
    are. *)
Theorem repr_fields rt (V : Type) (py_getattr : sentence -> str -> result V)
    (repr_value : V -> result str) self data txt :
  attrs self !! py "fields" = None ->
  attrs self !! py "data" = Some (VStrs data) ->
  (forall f, f ∈ take (length data) (fields (type_of self)) ->
     match txt f.2 with
     | Some t => exists v, py_getattr self f.2 = Ok v /\ repr_value v = Ok t
     | None => exists e, py_getattr self f.2 = Raise e /\ exn_type e = AttributeError
     end) ->
  repr rt py_getattr repr_value self
  = Ok (py "<" ++ cls_name (type_of self) ++ py "("
        ++ join (py ", ")
             (omap (entry txt) (take (length data) (fields (type_of self))))
        ++ py ")"
        ++ match drop (length (fields (type_of self))) data with
           | [] => []
           | d => py " data=" ++ py_str rt (VStrs d)
           end
        ++ py ">").
Proof.
  intros Hnone Hdata Hfields. unfold repr, getattr. rewrite Hdata. cbn [bind iter_data].
  rewrite (repr_loop_fields py_getattr repr_value self txt data 0 [] []) by done.
  cbn [bind app drop]. by destruct (drop _ data).
Qed.

(** X25.  The text of a sentence whose type declares no field, as the two
    types of this module: the name of the type and, when there is data, the
    list of the data.  No attribute is looked up. *)
Theorem repr_no_fields rt (V : Type) (py_getattr : sentence -> str -> result V)
    (repr_value : V -> result str) self data :
  attrs self !! py "fields" = None ->
  fields (type_of self) = [] ->
  attrs self !! py "data" = Some (VStrs data) ->
  repr rt py_getattr repr_value self
  = Ok (py "<" ++ cls_name (type_of self) ++ py "()"
        ++ match data with
           | [] => []
           | _ => py " data=" ++ py_str rt (VStrs data)
           end
        ++ py ">").
Proof.
  intros Hnone Hempty Hdata. unfold repr, getattr. rewrite Hdata. cbn [bind iter_data].
  rewrite (repr_loop_fields py_getattr repr_value self (fun _ => None) data 0 [] []);
    [|done|].
  - rewrite Hempty. cbn [drop take length app omap bind]. rewrite take_nil.
    cbn [omap join app]. by destruct data.
  - rewrite Hempty. cbn [drop]. rewrite take_nil. by intros f ?%elem_of_nil.
Qed.

Lemma repr_no_fields_witness :
  repr sample_runtime (fun _ _ => Ok tt) (fun _ => Ok [])
    (proprietary_object (py "GRM") [py "E"; py "15.0"])
  = Ok (py "<ProprietarySentence() data=['E', '15.0']>").
Proof.
  apply (repr_no_fields sample_runtime unit (fun _ _ => Ok tt) (fun _ => Ok [])
           (proprietary_object (py "GRM") [py "E"; py "15.0"]) [py "E"; py "15.0"]).
  - vm_compute. reflexivity.
  - reflexivity.
  - vm_compute. reflexivity.
Defined.

Lemma repr_fields_witness :
  repr sample_runtime
    (fun _ name => if bool_decide (name = py "lat")
                   then Raise {| exn_type := AttributeError; exn_message := name;
                                 exn_data := VNone |}
                   else Ok name)
    (fun v => Ok (py_repr sample_runtime v))
    (talker_object GRS (py "GP") (py "GRS") [py "1"; py "2"; py "3"; py "4"; py "5"] ∅)
  = Ok (py "<" ++ py "GRS" ++ py "("
        ++ join (py ", ")
             (omap (entry (fun name => if bool_decide (name = py "lat") then None
                                       else Some (py_repr sample_runtime name)))
                (take 5 (fields GRS)))
        ++ py ")"
        ++ match drop (length (fields GRS)) [py "1"; py "2"; py "3"; py "4"; py "5"] with
           | [] => []
           | d => py " data=" ++ py_str sample_runtime (VStrs d)
           end
        ++ py ">").
Proof.
  apply (repr_fields sample_runtime str _ _
           (talker_object GRS (py "GP") (py "GRS") [py "1"; py "2"; py "3"; py "4"; py "5"] ∅)
           [py "1"; py "2"; py "3"; py "4"; py "5"]
           (fun name => if bool_decide (name = py "lat") then None
                        else Some (py_repr sample_runtime name))).
  - vm_compute. reflexivity.
  - vm_compute. reflexivity.
  - intros f _. cbn beta. case_bool_decide; eauto.
Defined.

(** ** Further facts on [render] and [parse] *)

(** X26.  The line end of [render] does not change what [parse] reads.
    With the checksum, a sentence rendered with a line end is the sentence
    rendered without, followed by the line end, and [parse] does on the one
    what it does on the other. *)
Theorem render_newline_parse rt reg self dollar newline text check gsv grs :
  render rt self true dollar NoNewline = Ok text ->
  forallb (is_space rt) (newline_text newline) = true ->
  render rt self true dollar newline = Ok (text ++ newline_text newline) /\
  outcome (parse rt reg (text ++ newline_text newline) check gsv grs)
  = outcome (parse rt reg text check gsv grs).
Proof.
  unfold render. destruct (identifier rt self) as [ident|]; cbn [bind]; [|done].
  destruct (getattr self (py "data")) as [d|]; cbn [bind]; [|done].
  destruct (join_data d) as [body|]; cbn [bind]; [|done]. intros [= <-] Hnl.
  split.
  - destruct newline; cbn [newline_text]; by rewrite ?app_nil_r.
  - apply parse_outcome_match. rewrite !re_match_sentence_re. apply star_blanks; [|done].
    assert (ord "*" ∈ (ident ++ body) ++ py "*" ++ format_02X (checksum (ident ++ body)))
      as Hstar.
    { apply elem_of_app. right. apply list_elem_of_here. }
    destruct dollar; [|done]. by apply list_elem_of_further.
Qed.

Lemma render_newline_parse_witness :
  render sample_runtime
    (talker_object GGA (py "GP") (py "GGA") [py "184353.07"; py "1929.045"; py "S"] ∅)
    true true Newline
  = Ok (py "$GPGGA,184353.07,1929.045,S*14" ++ newline_text Newline) /\
  outcome (parse sample_runtime sample_registry
             (py "$GPGGA,184353.07,1929.045,S*14" ++ newline_text Newline) true false false)
  = outcome (parse sample_runtime sample_registry
               (py "$GPGGA,184353.07,1929.045,S*14") true false false).
Proof.
  apply (render_newline_parse sample_runtime sample_registry
           (talker_object GGA (py "GP") (py "GGA")
              [py "184353.07"; py "1929.045"; py "S"] ∅)
           true Newline (py "$GPGGA,184353.07,1929.045,S*14") true false false).
  - vm_compute. reflexivity.
  - vm_compute. reflexivity.
Defined.

(** X27.  [parse] raises no ValueError of its own: the checksum group the
    grammar lets through is two hexadecimal digits, which [int(..., 16)]
    reads.  Every ValueError of [parse] is a ParseError. *)
Theorem parse_never_ValueError rt reg line check gsv grs :
  never ValueError (parse rt reg line check gsv grs).
Proof.
  destruct (re_match (sentence_re rt) line) as [m|] eqn:Hm.
  2:{ rewrite parse_unmatched by done. by intros e [= <-]. }
  destruct (sentence_re_groups rt line m Hm) as (id & d & Hid & Hd & _).
  rewrite (parse_matched rt reg line check gsv grs m id d Hm Hid Hd).
  apply never_bind.
  - intros e He. apply (check_checksum_raise rt line) in He as (-> & _); done.
  - intros _. apply never_parse_by_shape; done.
Qed.

(** X28.  The key [parse] looks up in the talker registry is three word
    characters, with no lower-case ASCII letter when the line is ASCII: a
    type registered under another name is never found. *)
Theorem sentence_code_shape rt line s :
  sentence_code rt line = Some s ->
  length s = 3%nat /\ forallb (is_word rt) s = true /\
  (forallb is_ascii line = true -> uc s = s).
Proof.
  unfold sentence_code.
  destruct (re_match (sentence_re rt) line) as [m|] eqn:Hm; [|done].
  cbn [mbind option_bind].
  destruct (sentence_re_matched rt line m Hm)
    as (ws & dollar & id & r & n & ps & d & cs & -> & Hws & Hdollar & -> & Hps & Hlen & Hr & Hw).
  destruct (winner_lookup rt n ps _ id d cs Hw) as (_ & _ & Hid & _).
  rewrite Hid. cbn [mbind option_bind].
  destruct (re_match (talker_re rt) (upper rt id)) as [tm|] eqn:Etm; [|done].
  cbn [mbind option_bind].
  destruct (talker_re_inv rt _ _ Etm)
    as (c1 & c2 & c3 & c4 & c5 & z & Hup & _ & Hword & _ & Hs).
  rewrite Hs. intros [= <-]. split; [done|]. split.
  { cbn [forallb] in *. rewrite !andb_true_iff in *. tauto. }
  intros Hascii. rewrite !forallb_app in Hascii.
  apply andb_true_iff in Hascii as (_ & (_ & (Hascii & _)%andb_true_iff)%andb_true_iff).
  rewrite (upper_ascii rt id Hascii) in Hup.
  pose proof (uc_idemp id) as Hidem. rewrite Hup in Hidem.
  cbn [map app] in Hidem. injection Hidem as _ _ H3 H4 H5 _.
  cbn [map]. by rewrite H3, H4, H5.
Qed.

Lemma sentence_code_shape_witness :
  length (py "GGA") = 3%nat /\ forallb (is_word sample_runtime) (py "GGA") = true /\
  (forallb is_ascii (py "$gpgga,1") = true -> uc (py "GGA") = py "GGA").
Proof.
  apply (sentence_code_shape sample_runtime (py "$gpgga,1") (py "GGA")).
  vm_compute. reflexivity.
Defined.

(** ** The schema flags and the constructor *)

Section Flags.

Context (rt : runtime).

(** [render] reads the type and the attributes of an object, nothing else. *)
Lemma render_same a b with_checksum dollar newline :
  type_of a = type_of b -> attrs a = attrs b ->
  render rt a with_checksum dollar newline = render rt b with_checksum dollar newline.
Proof. destruct a, b. cbn. by intros -> ->. Qed.

(** The object [parse] returns does not depend on the flags, but for the
    keywords its constructor was called with. *)
Lemma parse_flags_object reg line check gsv grs self :
  parse rt reg line check gsv grs = Ok self ->
  exists self0,
    parse rt reg line check false false = Ok self0 /\
    type_of self = type_of self0 /\ attrs self = attrs self0.
Proof.
  intros Hparse.
  destruct (re_match (sentence_re rt) line) as [m|] eqn:Hm.
  2:{ by rewrite parse_unmatched in Hparse. }
  destruct (sentence_re_groups rt line m Hm) as (id & d & Hid & Hd & _).
  rewrite (parse_matched rt reg line check gsv grs m id d Hm Hid Hd) in Hparse.
  rewrite (parse_matched rt reg line check false false m id d Hm Hid Hd).
  apply bind_Ok in Hparse as ([] & -> & Hshape). cbn [bind].
  destruct (re_match (talker_re rt) (upper rt id)) as [tm|] eqn:Etm.
  - unfold parse_by_shape in *. rewrite Etm in *.
    destruct (talker_re_inv rt _ _ Etm)
      as (c1 & c2 & c3 & c4 & c5 & z & _ & _ & _ & Ht & Hs).
    destruct (talker_types reg !! [c3; c4; c5]) as [cls|] eqn:Ecls.
    + rewrite (parse_talker_registered rt reg line _ d gsv grs tm _ _ cls Ht Hs Ecls)
        in Hshape.
      rewrite (parse_talker_registered rt reg line _ d false false tm _ _ cls Ht Hs Ecls).
      apply TalkerSentence_init_Ok in Hshape as [Hplain ->].
      rewrite TalkerSentence_init_plain by done. eauto.
    + rewrite (parse_talker_unregistered rt reg line _ _ gsv grs tm _ _ Ht Hs Ecls)
        in Hshape.
      by destruct (_ || _).
  - rewrite parse_by_shape_flags in Hshape by done. eauto.
Qed.

End Flags.

(** C6.  The schema [parse] computes for GSV with [GSV_signal_id] and for
    GRS with [GRS_ids] does not reach the object: [parse] passes it to the
    constructor as the keyword [fields], and [TalkerSentence.__init__] takes
    [**kwargs] and reads none.  Whatever the flags, the object [parse]
    returns has the type, the attributes, the [name_to_idx] and the text of
    the object it returns with the flags off.  So for a GSV type of seven
    fields and a line of eight, with [GSV_signal_id], the name signal_id is no
    field: setting it sets an attribute and leaves the data as they are; and
    so for system_id and signal_id of a GRS line with [GRS_ids]. *)
Theorem parse_schema_flags_discarded rt :
  (forall reg line check gsv grs self,
     parse rt reg line check gsv grs = Ok self ->
     exists self0,
       parse rt reg line check false false = Ok self0 /\
       type_of self = type_of self0 /\ attrs self = attrs self0 /\
       name_to_idx (type_of self) = name_to_idx (type_of self0) /\
       render rt self true true NoNewline = render rt self0 true true NoNewline) /\
  (exists self self',
     parse rt sample_registry (py "$GPGSV,1,1,01,05,45,120,38,1") false true false
     = Ok self /\
     type_of self = GSV /\
     attrs self !! py "data"
     = Some (VStrs [py "1"; py "1"; py "01"; py "05"; py "45"; py "120"; py "38"; py "1"]) /\
     name_to_idx (type_of self) !! py "signal_id" = None /\
     setattr rt self (py "signal_id") (VStr (py "2")) = Ok self' /\
     attrs self' !! py "signal_id" = Some (VStr (py "2")) /\
     attrs self' !! py "data" = attrs self !! py "data") /\
  (exists self self',
     parse rt sample_registry (py "$GPGRS,184353.07,1,0.1,0.2,3,4") false false true
     = Ok self /\
     type_of self = GRS /\
     attrs self !! py "data"
     = Some (VStrs [py "184353.07"; py "1"; py "0.1"; py "0.2"; py "3"; py "4"]) /\
     name_to_idx (type_of self) !! py "system_id" = None /\
     name_to_idx (type_of self) !! py "signal_id" = None /\
     setattr rt self (py "system_id") (VStr (py "1")) = Ok self' /\
     attrs self' !! py "system_id" = Some (VStr (py "1")) /\
     attrs self' !! py "data" = attrs self !! py "data").
Proof.
  split; [|split].
  - intros reg line check gsv grs self Hparse.
    destruct (parse_flags_object rt reg line check gsv grs self Hparse)
      as (self0 & Hparse0 & Htype & Hattrs).
    exists self0. split; [done|]. split; [done|]. split; [done|].
    split; [by rewrite Htype|]. by apply render_same.
  - eexists _, _. repeat split; vm_compute; reflexivity.
  - eexists _, _. repeat split; vm_compute; reflexivity.
Qed.

(** ** An identifier in lower case *)

Section Case.

Context (rt : runtime).

Lemma written_in_upper_case_uc id up : written_in_upper_case id up = true -> up = uc id.
Proof.
  revert up. induction id as [|a id IH]; intros [|b up]; try done.
  cbn [written_in_upper_case map]. intros [Hab Hrest]%andb_true_iff.
  rewrite (IH up Hrest). f_equal. unfold ascii_upper.
  destruct (between (ord "a") (ord "z") a) eqn:E; apply N.eqb_eq in Hab; [|done].
  unfold between in E. revert E. ord_values. split_comparisons.
Qed.

(** Where the identifier of a line begins: after the blanks and the dollar,
    and nowhere else. *)
Lemma identifier_position ws dollar ws0 dollar0 id rest r0 c id' :
  ws ++ dollar ++ id ++ rest = ws0 ++ dollar0 ++ id ++ r0 ->
  forallb (is_space rt) ws = true -> forallb (is_space rt) ws0 = true ->
  (dollar = [] \/ dollar = [ord "$"]) -> (dollar0 = [] \/ dollar0 = [ord "$"]) ->
  id = c :: id' -> is_space rt c = false -> c <> ord "$" ->
  ws = ws0 /\ dollar = dollar0 /\ rest = r0.
Proof.
  intros Hline Hws Hws0 Hdollar Hdollar0 -> Hc Hne.
  assert (span (is_space rt) (ws ++ dollar ++ (c :: id') ++ rest)
          = (ws, dollar ++ (c :: id') ++ rest)) as H1.
  { apply span_stop; [done|]. destruct Hdollar as [->| ->]; [done|apply is_space_dollar]. }
  assert (span (is_space rt) (ws0 ++ dollar0 ++ (c :: id') ++ r0)
          = (ws0, dollar0 ++ (c :: id') ++ r0)) as H2.
  { apply span_stop; [done|]. destruct Hdollar0 as [->| ->]; [done|apply is_space_dollar]. }
  rewrite Hline, H2 in H1. injection H1 as <- Htail. split; [done|].
  destruct Hdollar as [->| ->], Hdollar0 as [->| ->]; cbn [app] in Htail.
  - injection Htail as Htail. apply app_inv_head in Htail. done.
  - injection Htail as Hbad _. done.
  - injection Htail as Hbad _. done.
  - injection Htail as Htail. apply app_inv_head in Htail. done.
Qed.

(** With [check], [parse] raises ChecksumError or does what it does
    without. *)
Lemma parse_check_cases reg line check gsv grs :
  parse rt reg line check gsv grs = parse rt reg line false gsv grs \/
  raises (parse rt reg line check gsv grs) ChecksumError.
Proof.
  destruct check; [|by left].
  destruct (re_match (sentence_re rt) line) as [m|] eqn:Hm.
  2:{ left. by rewrite !parse_unmatched. }
  destruct (sentence_re_groups rt line m Hm) as (id & d & Hid & Hd & _).
  rewrite !(parse_matched rt reg line _ gsv grs m id d Hm Hid Hd).
  rewrite (check_checksum_passes rt line m id d _ false Hm Hid Hd) by by left.
  destruct (check_checksum m (id ++ d) (split (ord ",") d) true) as [[]|e] eqn:E.
  - by left.
  - right. apply (check_checksum_raise rt line) in E as (? & _); [|done]. by exists e.
Qed.

End Case.

(** C10.  Case normalisation.  The grammar is matched without regard to
    case and the type identifier is put in upper case before it is
    classified.  Take a line [sentence_re] matches, with an ASCII type
    identifier [id] after the blanks and the dollar, and the same line with
    [up] in the place of [id], where [up] is [id] written in upper case.  The
    second line is matched too, with the identifier [up] and the same data and
    checksum groups; [up] is the identifier [parse] classifies on both lines,
    and the sentence code looked up is the same; and [parse] has the same
    outcome on both: the same object, so the same talker, sentence code and
    registered type, or an exception of the same class and message.  With
    [check], either line raises ChecksumError or has that outcome: the
    checksum is taken of the line as it is written. *)
Theorem parse_upper_case_identifier rt reg ws dollar id up rest gsv grs m :
  re_match (sentence_re rt) (ws ++ dollar ++ id ++ rest) = Some m ->
  m !! "sentence_type"%string = Some id ->
  forallb (is_space rt) ws = true -> (dollar = [] \/ dollar = [ord "$"]) ->
  forallb is_ascii id = true ->
  written_in_upper_case id up = true ->
  exists m',
    re_match (sentence_re rt) (ws ++ dollar ++ up ++ rest) = Some m' /\
    m' !! "sentence_type"%string = Some up /\
    m' !! "data"%string = m !! "data"%string /\
    m' !! "checksum"%string = m !! "checksum"%string /\
    upper rt id = up /\ upper rt up = up /\
    sentence_code rt (ws ++ dollar ++ up ++ rest)
    = sentence_code rt (ws ++ dollar ++ id ++ rest) /\
    outcome (parse rt reg (ws ++ dollar ++ up ++ rest) false gsv grs)
    = outcome (parse rt reg (ws ++ dollar ++ id ++ rest) false gsv grs) /\
    forall check,
      (outcome (parse rt reg (ws ++ dollar ++ id ++ rest) check gsv grs)
       = outcome (parse rt reg (ws ++ dollar ++ id ++ rest) false gsv grs) \/
       raises (parse rt reg (ws ++ dollar ++ id ++ rest) check gsv grs) ChecksumError) /\
      (outcome (parse rt reg (ws ++ dollar ++ up ++ rest) check gsv grs)
       = outcome (parse rt reg (ws ++ dollar ++ id ++ rest) false gsv grs) \/
       raises (parse rt reg (ws ++ dollar ++ up ++ rest) check gsv grs) ChecksumError).
Proof.
  intros Hm Hid Hws Hdollar Hascii Hup.
  apply written_in_upper_case_uc in Hup as ->.
  destruct (sentence_re_matched rt _ m Hm)
    as (ws0 & dollar0 & id0 & r & n & ps & d & cs & Hline & Hws0 & Hdollar0 & -> & Hps & Hlen
        & Hr & Hw).
  destruct (winner_lookup rt n ps _ id0 d cs Hw) as (Hn0 & Hd0 & Hid0 & Hcs0).
  rewrite Hid0 in Hid. injection Hid as ->.
  destruct (winner_first_char rt n ps _ id Hw Hps) as (c & id' & Hcons & Hword).
  assert (is_space rt c = false) as Hc.
  { apply word_not_space; [|done]. rewrite Hcons in Hascii. simpl in Hascii.
    by apply andb_true_iff in Hascii as [? _]. }
  assert (c <> ord "$") as Hne by (intros ->; done).
  destruct (identifier_position rt ws dollar ws0 dollar0 id rest r c id'
              Hline Hws Hws0 Hdollar Hdollar0 Hcons Hc Hne) as (<- & <- & <-).
  clear Hline Hws0 Hdollar0.
  pose proof (sentence_re_upper rt ws dollar id rest rest n ps d cs cs
                Hws Hdollar Hps Hlen Hascii Hr Hr Hw) as Hm'.
  destruct (winner_lookup rt n ps _ (uc id) d cs Hw) as (Hn1 & Hd1 & Hid1 & Hcs1).
  assert (upper rt (uc id) = uc id) as Hupup.
  { rewrite upper_ascii by by rewrite uc_ascii. apply uc_idemp. }
  assert (outcome (parse rt reg (ws ++ dollar ++ uc id ++ rest) false gsv grs)
          = outcome (parse rt reg (ws ++ dollar ++ id ++ rest) false gsv grs)) as Hout.
  { rewrite (parse_matched rt reg _ false gsv grs _ (uc id) d Hm' Hid1 Hd1).
    rewrite (parse_matched rt reg _ false gsv grs _ id d Hm Hid0 Hd0).
    rewrite (check_checksum_passes rt _ _ (uc id) d _ false Hm' Hid1 Hd1) by by left.
    rewrite (check_checksum_passes rt _ _ id d _ false Hm Hid0 Hd0) by by left.
    cbn [bind]. rewrite Hupup, (upper_ascii rt id Hascii). apply parse_by_shape_line. }
  exists (match_groups n (uc id) d cs).
  split; [done|]. split; [done|]. split; [by rewrite Hd0, Hd1|].
  split; [by rewrite Hcs0, Hcs1|]. split; [by apply upper_ascii|]. split; [done|].
  split.
  { unfold sentence_code. rewrite Hm, Hm'. cbn [mbind option_bind].
    rewrite Hid0, Hid1. cbn [mbind option_bind].
    by rewrite Hupup, (upper_ascii rt id Hascii). }
  split; [done|]. intros check. split.
  - destruct (parse_check_cases rt reg (ws ++ dollar ++ id ++ rest) check gsv grs)
      as [->|?]; auto.
  - destruct (parse_check_cases rt reg (ws ++ dollar ++ uc id ++ rest) check gsv grs)
      as [->|?]; auto.
Qed.

Lemma parse_upper_case_identifier_witness :
  parse sample_runtime sample_registry (py "  $gpgga,184353.07,1929.045,S")
    false false false
  = Ok (talker_object GGA (py "GP") (py "GGA") [py "184353.07"; py "1929.045"; py "S"] ∅) /\
  sentence_code sample_runtime (py "  $gpgga,184353.07,1929.045,S") = Some (py "GGA") /\
  exists m',
    re_match (sentence_re sample_runtime) (py "  $GPGGA,184353.07,1929.045,S") = Some m' /\
    m' !! "sentence_type"%string = Some (py "GPGGA,") /\
    m' !! "data"%string
    = match_groups "5" (py "gpgga,") (py "184353.07,1929.045,S") None !! "data"%string /\
    m' !! "checksum"%string
    = match_groups "5" (py "gpgga,") (py "184353.07,1929.045,S") None !! "checksum"%string /\
    upper sample_runtime (py "gpgga,") = py "GPGGA," /\
    upper sample_runtime (py "GPGGA,") = py "GPGGA," /\
    sentence_code sample_runtime (py "  $GPGGA,184353.07,1929.045,S")
    = sentence_code sample_runtime (py "  $gpgga,184353.07,1929.045,S") /\
    outcome (parse sample_runtime sample_registry (py "  $GPGGA,184353.07,1929.045,S")
               false false false)
    = outcome (parse sample_runtime sample_registry (py "  $gpgga,184353.07,1929.045,S")
                 false false false) /\
    forall check,
      (outcome (parse sample_runtime sample_registry (py "  $gpgga,184353.07,1929.045,S")
                  check false false)
       = outcome (parse sample_runtime sample_registry (py "  $gpgga,184353.07,1929.045,S")
                    false false false) \/
       raises (parse sample_runtime sample_registry (py "  $gpgga,184353.07,1929.045,S")
                 check false false) ChecksumError) /\
      (outcome (parse sample_runtime sample_registry (py "  $GPGGA,184353.07,1929.045,S")
                  check false false)
       = outcome (parse sample_runtime sample_registry (py "  $gpgga,184353.07,1929.045,S")
                    false false false) \/
       raises (parse sample_runtime sample_registry (py "  $GPGGA,184353.07,1929.045,S")
                 check false false) ChecksumError).
Proof.
  split; [vm_compute; reflexivity|]. split; [vm_compute; reflexivity|].
  apply (parse_upper_case_identifier sample_runtime sample_registry
           (py "  ") [ord "$"] (py "gpgga,") (py "GPGGA,") (py "184353.07,1929.045,S")
           false false
           (match_groups "5" (py "gpgga,") (py "184353.07,1929.045,S") None)).
  - vm_compute. reflexivity.
  - vm_compute. reflexivity.
  - vm_compute. reflexivity.
  - by right.
  - vm_compute. reflexivity.
  - vm_compute. reflexivity.
Defined.
